(** * Evidence Log (src/App.jsx): the in-memory database and its derived views

    A shallow embedding of the data-handling part of [App.jsx]: the storage
    helpers ([loadDB]), the repository operations handed to [setDb]
    ([createInvestigation] ... [addEntry]), the derived view
    [filteredInvestigations], the CSV and JSON exporters and [importJSON].

    JavaScript values are modelled by the type [value]; objects are finite
    maps from property names to values.  Numbers are modelled as integers
    (the program stores [Date.now()] readings) and the two infinities, which
    [JSON.parse] returns for a literal too large for a number; strings are
    sequences of code units below 256.  An operation that can fail reports
    whatever falls outside this fragment by the error [OutOfModel]; the JSON
    printer is total and describes [JSON.stringify] on the values whose
    numbers are infinite or integers that a JavaScript number holds
    exactly. *)

From Stdlib Require Import ZArith String Ascii List Lia Sorting.Sorted Permutation.
From Stdlib Require Import DecimalFacts DecimalPos DecimalN.
From stdpp Require Import base option list gmap strings fin_maps.

Set Warnings "-register-all".
Open Scope string_scope.
Open Scope Z_scope.

(** ** JavaScript values *)

Inductive value :=
| VUndef
| VNull
| VBool (b : bool)
| VNum (z : Z)
| VStr (s : string)
| VArr (l : list value)
| VObj (o : gmap string value)
| VInf (negative : bool).

(** Exceptions.  [Error msg] is [new Error(msg)]; [OutOfModel] marks a
    behaviour of JavaScript that this embedding does not describe. *)
Inductive error :=
| TypeError
| SyntaxError
| RangeError
| Error (msg : string)
| OutOfModel.

Inductive res (A : Type) :=
| Ok (a : A)
| Throw (e : error).
Arguments Ok {A} a.
Arguments Throw {A} e.

#[global] Instance res_ret : MRet res := fun _ a => Ok a.
#[global] Instance res_bind : MBind res := fun _ _ f m =>
  match m with Ok a => f a | Throw e => Throw e end.
#[global] Instance res_fmap : FMap res := fun _ _ f m =>
  match m with Ok a => Ok (f a) | Throw e => Throw e end.

(** [ToBoolean]. *)
Definition truthy (v : value) : bool :=
  match v with
  | VUndef | VNull => false
  | VBool b => b
  | VNum z => negb (z =? 0)
  | VStr s => negb (String.eqb s EmptyString)
  | VArr _ | VObj _ | VInf _ => true
  end.

Definition is_undef (v : value) : bool :=
  match v with VUndef => true | _ => false end.

(** [a || b] on already evaluated operands. *)
Definition js_or (a b : value) : value := if truthy a then a else b.

(** [v === s] for a string [s]: true exactly when [v] is that string. *)
Definition is_str (s : string) (v : value) : bool :=
  match v with VStr s' => String.eqb s' s | _ => false end.

(** [a === b].  Primitives compare by value; two objects compare by
    identity, which values do not carry. *)
Definition strict_eq (a b : value) : res bool :=
  match a, b with
  | VUndef, VUndef | VNull, VNull => Ok true
  | VBool x, VBool y => Ok (Bool.eqb x y)
  | VNum x, VNum y => Ok (x =? y)
  | VStr x, VStr y => Ok (String.eqb x y)
  | VInf x, VInf y => Ok (Bool.eqb x y)
  | (VArr _ | VObj _), (VArr _ | VObj _) => Throw OutOfModel
  | _, _ => Ok false
  end.

(** Property read [v.k], for the property names the program reads.  None
    of them is defined on the prototypes of objects, strings, numbers or
    booleans; [Array.prototype] defines [entries]. *)
Definition get (k : string) (v : value) : res value :=
  match v with
  | VObj o => Ok (default VUndef (o !! k))
  | VUndef | VNull => Throw TypeError
  | VArr _ => if String.eqb k "entries" then Throw OutOfModel else Ok VUndef
  | VBool _ | VNum _ | VStr _ | VInf _ => Ok VUndef
  end.

(** Optional chaining [v?.k]. *)
Definition opt_get (k : string) (v : value) : res value :=
  match v with
  | VUndef | VNull => Ok VUndef
  | _ => get k v
  end.

(** The receiver of [.map], [.filter], [.find], [.forEach], [.some] and
    [.join]: among the values of the model only arrays have these methods. *)
Definition method_arr (v : value) : res (list value) :=
  match v with
  | VArr l => Ok l
  | _ => Throw TypeError
  end.

(** The operand of an array spread [[x, ...v]]. *)
Definition spread_arr (v : value) : res (list value) :=
  match v with
  | VArr l => Ok l
  | VStr _ => Throw OutOfModel
  | _ => Throw TypeError
  end.

(** The own properties copied by an object spread [{...v}]. *)
Definition spread_obj (v : value) : res (gmap string value) :=
  match v with
  | VObj o => Ok o
  | VUndef | VNull | VBool _ | VNum _ | VInf _ => Ok ∅
  | VStr _ | VArr _ => Throw OutOfModel
  end.

Fixpoint filterM {A} (p : A → res bool) (l : list A) : res (list A) :=
  match l with
  | [] => Ok []
  | x :: l' =>
      b ← p x; r ← filterM p l';
      Ok (if b : bool then x :: r else r)
  end.

Fixpoint findM (p : value → res bool) (l : list value) : res value :=
  match l with
  | [] => Ok VUndef
  | x :: l' => b ← p x; if b : bool then Ok x else findM p l'
  end.

Fixpoint someM {A} (p : A → res bool) (l : list A) : res bool :=
  match l with
  | [] => Ok false
  | x :: l' => b ← p x; if b : bool then Ok true else someM p l'
  end.

(** ** The store

    [db] is a React state cell.  An event handler changes it only through
    [setDb]; a handler is modelled by the list of updaters it passes to
    [setDb], in call order, and [run] applies them. *)

Definition updater := value → res value.

Fixpoint run (us : list updater) (db : value) : res value :=
  match us with
  | [] => Ok db
  | u :: us' => db' ← u db; run us' db'
  end.

(** [{ investigations: [], evidence: [], version: 1 }] *)
Definition emptyDB : value :=
  VObj {[ "investigations" := VArr []; "evidence" := VArr []; "version" := VNum 1 ]}.

(** ** Repository operations (App.jsx, lines 336-400)

    [now] is the reading of [Date.now()], [newid] the result of [uuid()],
    [confirmed] the answer of [confirm(...)]. *)

Definition createInvestigation (newid : string) (now : Z) (data : gmap string value)
  : list updater :=
  let inv := VObj (data ∪ {[ "id" := VStr newid; "createdAt" := VNum now;
                             "updatedAt" := VNum now ]}) in
  [ fun prev =>
      po ← spread_obj prev;
      invs ← get "investigations" prev ≫= spread_arr;
      Ok (VObj (<["investigations" := VArr (inv :: invs)]> po)) ].

Definition updateInvestigation (id : string) (data : gmap string value) (now : Z)
  : list updater :=
  [ fun prev =>
      po ← spread_obj prev;
      invs ← get "investigations" prev ≫= method_arr;
      invs' ← mapM (fun i =>
                 iid ← get "id" i;
                 if is_str id iid
                 then io ← spread_obj i;
                      Ok (VObj (<["updatedAt" := VNum now]> (data ∪ io)))
                 else Ok i) invs;
      Ok (VObj (<["investigations" := VArr invs']> po)) ].

Definition deleteInvestigation (confirmed : bool) (id : string) : list updater :=
  if negb confirmed then []
  else
    [ fun prev =>
        po ← spread_obj prev;
        invs ← get "investigations" prev ≫= method_arr;
        invs' ← filterM (fun i => iid ← get "id" i; Ok (negb (is_str id iid))) invs;
        evs ← get "evidence" prev ≫= method_arr;
        evs' ← filterM (fun e => x ← get "investigationId" e;
                               Ok (negb (is_str id x))) evs;
        Ok (VObj (<["evidence" := VArr evs']>
                    (<["investigations" := VArr invs']> po))) ].

Definition createEvidence (invId newid : string) (now : Z) (data : gmap string value)
  : list updater :=
  let ev := VObj (data ∪ {[ "id" := VStr newid; "investigationId" := VStr invId;
                            "createdAt" := VNum now; "updatedAt" := VNum now;
                            "entries" := VArr [] ]}) in
  [ fun prev =>
      po ← spread_obj prev;
      evs ← get "evidence" prev ≫= spread_arr;
      Ok (VObj (<["evidence" := VArr (ev :: evs)]> po)) ].

Definition updateEvidence (id : string) (data : gmap string value) (now : Z)
  : list updater :=
  [ fun prev =>
      po ← spread_obj prev;
      evs ← get "evidence" prev ≫= method_arr;
      evs' ← mapM (fun e =>
                eid ← get "id" e;
                if is_str id eid
                then eo ← spread_obj e;
                     Ok (VObj (<["updatedAt" := VNum now]> (data ∪ eo)))
                else Ok e) evs;
      Ok (VObj (<["evidence" := VArr evs']> po)) ].

Definition deleteEvidence (confirmed : bool) (id : string) : list updater :=
  if negb confirmed then []
  else
    [ fun prev =>
        po ← spread_obj prev;
        evs ← get "evidence" prev ≫= method_arr;
        evs' ← filterM (fun e => eid ← get "id" e; Ok (negb (is_str id eid))) evs;
        Ok (VObj (<["evidence" := VArr evs']> po)) ].

Definition addEntry (evidenceId newid : string) (now : Z) (data : gmap string value)
  : list updater :=
  let entry := VObj (data ∪ {[ "id" := VStr newid; "timestamp" := VNum now ]}) in
  [ fun prev =>
      po ← spread_obj prev;
      evs ← get "evidence" prev ≫= method_arr;
      evs' ← mapM (fun e =>
                eid ← get "id" e;
                if is_str evidenceId eid
                then eo ← spread_obj e;
                     old ← get "entries" e;
                     olds ← spread_arr (js_or old (VArr []));
                     Ok (VObj (<["updatedAt" := VNum now]>
                                 (<["entries" := VArr (entry :: olds)]> eo)))
                else Ok e) evs;
      Ok (VObj (<["evidence" := VArr evs']> po)) ].

(** ** Strings *)

Definition dquote : ascii := "034"%char.
Definition newline : ascii := "010"%char.

(** [String.prototype.toLowerCase] on code units below 256: the letters
    A-Z and the Latin-1 capitals U+00C0-U+00DE other than U+00D7. *)
Definition lower_char (c : ascii) : ascii :=
  let n := nat_of_ascii c in
  if ((65 <=? n) && (n <=? 90) || (192 <=? n) && (n <=? 222) && negb (n =? 215))%nat
  then ascii_of_nat (n + 32) else c.

Fixpoint toLowerCase (s : string) : string :=
  match s with
  | EmptyString => EmptyString
  | String c s' => String (lower_char c) (toLowerCase s')
  end.

(** Does [s] begin with [q]? *)
Fixpoint startsWith (q s : string) : bool :=
  match q, s with
  | EmptyString, _ => true
  | String a q', String b s' => Ascii.eqb a b && startsWith q' s'
  | String _ _, EmptyString => false
  end.

(** [s.includes(q)] *)
Fixpoint includes (q s : string) : bool :=
  startsWith q s ||
  match s with
  | EmptyString => false
  | String _ s' => includes q s'
  end.

(** The test of line 74: does [s] hold a double quote, a comma or a
    line feed? *)
Fixpoint needsQuotes (s : string) : bool :=
  match s with
  | EmptyString => false
  | String c s' =>
      Ascii.eqb c dquote || Ascii.eqb c ","%char || Ascii.eqb c newline
      || needsQuotes s'
  end.

(** The [replaceAll] of line 75: every double quote is written twice. *)
Fixpoint doubleQuotes (s : string) : string :=
  match s with
  | EmptyString => EmptyString
  | String c s' =>
      if Ascii.eqb c dquote then String dquote (String dquote (doubleQuotes s'))
      else String c (doubleQuotes s')
  end.

(** Decimal digits of a number. *)
Fixpoint show_uint (d : Decimal.uint) : list ascii :=
  match d with
  | Decimal.Nil => []
  | Decimal.D0 d => "0"%char :: show_uint d
  | Decimal.D1 d => "1"%char :: show_uint d
  | Decimal.D2 d => "2"%char :: show_uint d
  | Decimal.D3 d => "3"%char :: show_uint d
  | Decimal.D4 d => "4"%char :: show_uint d
  | Decimal.D5 d => "5"%char :: show_uint d
  | Decimal.D6 d => "6"%char :: show_uint d
  | Decimal.D7 d => "7"%char :: show_uint d
  | Decimal.D8 d => "8"%char :: show_uint d
  | Decimal.D9 d => "9"%char :: show_uint d
  end.

Definition show_Z (z : Z) : list ascii :=
  match z with
  | Z0 => ["0"%char]
  | Zpos p => show_uint (Pos.to_uint p)
  | Zneg p => "-"%char :: show_uint (Pos.to_uint p)
  end.

(** The integers that a JavaScript number holds exactly. *)
Definition safe_int (z : Z) : bool := Z.abs z <=? 9007199254740992.

(** [String(v)] and the conversion made by a template literal. *)
Definition to_String (v : value) : res string :=
  match v with
  | VStr s => Ok s
  | VUndef => Ok "undefined"
  | VNull => Ok "null"
  | VBool true => Ok "true"
  | VBool false => Ok "false"
  | VNum z => if safe_int z then Ok (string_of_list_ascii (show_Z z))
              else Throw OutOfModel
  | VInf false => Ok "Infinity"
  | VInf true => Ok "-Infinity"
  | VArr _ | VObj _ => Throw OutOfModel
  end.

(** [l.join(sep)]: [null] and [undefined] elements give the empty string. *)
Definition join_values (sep : string) (l : list value) : res string :=
  cells ← mapM (fun v => match v with
                         | VUndef | VNull => Ok EmptyString
                         | _ => to_String v
                         end) l;
  Ok (String.concat sep cells).

(** ** CSV export (App.jsx, lines 72-77 and 412-457) *)

Definition csvSafe (s : value) : res string :=
  match s with
  | VUndef | VNull => Ok EmptyString
  | _ =>
      str ← to_String s;
      let out := doubleQuotes str in
      Ok (if needsQuotes str
          then String dquote out ++ String dquote EmptyString
          else out)
  end.

Definition csv_header : list value :=
  [ VStr "caseNumber"; VStr "investigationTitle"; VStr "investigationStatus";
    VStr "investigationTags"; VStr "evidenceTitle"; VStr "evidenceType";
    VStr "evidenceTags"; VStr "entryTimestamp"; VStr "entryAuthor";
    VStr "entryBody"; VStr "attachments" ].

(** [new Date(ts).toISOString()].  A time value is valid up to 8.64e15
    milliseconds either side of the epoch; an invalid date makes
    [toISOString] throw.  [iso] is the platform's rendering of a valid time
    value as [YYYY-MM-DDTHH:mm:ss.sssZ]. *)
Definition Date_toISOString (iso : Z → string) (ts : value) : res string :=
  match ts with
  | VNum z => if Z.abs z <=? 8640000000000000 then Ok (iso z) else Throw RangeError
  | VUndef | VInf _ => Throw RangeError
  | _ => Throw OutOfModel
  end.

Definition attachment_cell (a : value) : res value :=
  l ← get "label" a;
  ls ← to_String (js_or l (VStr "link"));
  u ← get "url" a;
  us ← to_String u;
  Ok (VStr (ls ++ ":" ++ us)).

Definition entry_row (iso : Z → string) (inv ev en : value) : res (list value) :=
  c1 ← opt_get "caseNumber" inv;
  c2 ← opt_get "title" inv;
  c3 ← opt_get "status" inv;
  t ← opt_get "tags" inv;
  c4 ← method_arr (js_or t (VArr [])) ≫= join_values ";";
  c5 ← get "title" ev;
  c6 ← get "type" ev;
  et ← get "tags" ev;
  c7 ← method_arr (js_or et (VArr [])) ≫= join_values ";";
  ts ← get "timestamp" en;
  c8 ← Date_toISOString iso ts;
  c9 ← get "author" en;
  c10 ← get "body" en;
  atts ← get "attachments" en;
  cells ← method_arr (js_or atts (VArr [])) ≫= mapM attachment_cell;
  c11 ← join_values " | " cells;
  Ok [ js_or c1 (VStr EmptyString); js_or c2 (VStr EmptyString);
       js_or c3 (VStr EmptyString); VStr c4;
       js_or c5 (VStr EmptyString); js_or c6 (VStr EmptyString); VStr c7; VStr c8;
       js_or c9 (VStr EmptyString); js_or c10 (VStr EmptyString); VStr c11 ].

(** The [rows] array at line 449. *)
Definition exportCSV_rows (iso : Z → string) (db : value) : res (list (list value)) :=
  evs ← get "evidence" db ≫= method_arr;
  rows ← mapM (fun ev =>
             invs ← get "investigations" db ≫= method_arr;
             inv ← findM (fun i => iid ← get "id" i;
                                   x ← get "investigationId" ev;
                                   strict_eq iid x) invs;
             ens ← get "entries" ev;
             method_arr (js_or ens (VArr [])) ≫= mapM (entry_row iso inv ev)) evs;
  Ok (csv_header :: concat rows).

(** The text handed to the [Blob]. *)
Definition exportCSV (iso : Z → string) (db : value) : res string :=
  rows ← exportCSV_rows iso db;
  lines ← mapM (fun r => cells ← mapM csvSafe r; Ok (String.concat "," cells)) rows;
  Ok (String.concat (String newline EmptyString) lines).

(** ** The filtered investigation list (App.jsx, lines 322-334) *)

(** [a - b], defined here on numbers only. *)
Definition js_sub (a b : value) : res Z :=
  match a, b with
  | VNum x, VNum y => Ok (x - y)
  | _, _ => Throw OutOfModel
  end.

(** [x.updatedAt || x.createdAt] *)
Definition sort_key (x : value) : res value :=
  u ← get "updatedAt" x;
  if truthy u then Ok u else get "createdAt" x.

(** The comparator [(a, b) => key(b) - key(a)]. *)
Definition compare_updated (a b : value) : res Z :=
  kb ← sort_key b;
  ka ← sort_key a;
  js_sub kb ka.

(** [Array.prototype.sort] is stable: with a consistent comparator its
    result is that of any stable sort, here insertion from the right.  The
    comparator of the program is consistent, being a difference of keys;
    only the sign of the difference is used, and it is exact. *)
Fixpoint insertM (cmp : value → value → res Z) (x : value) (l : list value)
  : res (list value) :=
  match l with
  | [] => Ok [x]
  | y :: l' =>
      c ← cmp x y;
      if c <=? 0 then Ok (x :: y :: l')
      else r ← insertM cmp x l'; Ok (y :: r)
  end.

Fixpoint sortM (cmp : value → value → res Z) (l : list value) : res (list value) :=
  match l with
  | [] => Ok []
  | x :: l' => r ← sortM cmp l'; insertM cmp x r
  end.

(** [l.sort(cmp)].  [undefined] elements go to the end without being
    compared, which is not modelled. *)
Definition Array_sort (cmp : value → value → res Z) (l : list value)
  : res (list value) :=
  if existsb is_undef l then Throw OutOfModel else sortM cmp l.

Definition filteredInvestigations (statusFilter query : string) (db : value)
  : res (list value) :=
  let q := toLowerCase query in
  investigations ← get "investigations" db;
  l0 ← method_arr investigations;
  l1 ← filterM (fun i =>
          if String.eqb statusFilter "All" then Ok true
          else st ← get "status" i; Ok (is_str statusFilter st)) l0;
  l2 ← filterM (fun i =>
          if String.eqb q EmptyString then Ok true
          else
            t ← get "title" i;
            c ← get "caseNumber" i;
            d ← get "description" i;
            tg ← get "tags" i;
            tags ← spread_arr (js_or tg (VArr []));
            someM (fun f => s ← to_String f; Ok (includes q (toLowerCase s)))
                  (filter (fun f => truthy f = true) (t :: c :: d :: tags))) l1;
  Array_sort compare_updated l2.

(** ** JSON text: [JSON.stringify(v, null, 2)] and [JSON.parse]

    Text is handled as a list of code units.  The printer follows
    SerializeJSONProperty with a two-space gap; the parser follows the JSON
    grammar, fractions and exponents included.  A number literal denotes
    an infinity when it is too large for a number ([1e999]), and an integer
    when its value is an integer that a JavaScript number holds exactly
    ([12], [1.0], [1e2]).  A literal whose value is a proper fraction or an
    integer that has to be rounded, the zero with a minus sign and a [\u]
    escape of a code unit above 255 denote values outside the model: on
    these the parser answers [OutOfModel]. *)

Open Scope list_scope.

Definition hex_digit (n : nat) : ascii :=
  nth n [ "0"; "1"; "2"; "3"; "4"; "5"; "6"; "7"; "8"; "9";
          "a"; "b"; "c"; "d"; "e"; "f" ]%char "0"%char.

Definition hex_val (c : ascii) : option nat :=
  let n := nat_of_ascii c in
  if ((48 <=? n) && (n <=? 57))%nat then Some (n - 48)%nat
  else if ((97 <=? n) && (n <=? 102))%nat then Some (n - 87)%nat
  else if ((65 <=? n) && (n <=? 70))%nat then Some (n - 55)%nat
  else None.

(** QuoteJSONString, one code unit. *)
Definition escape_char (c : ascii) : list ascii :=
  let n := nat_of_ascii c in
  if Ascii.eqb c dquote then [ "\"%char; dquote ]
  else if Ascii.eqb c "\"%char then [ "\"%char; "\"%char ]
  else if (n =? 8)%nat then [ "\"%char; "b"%char ]
  else if (n =? 9)%nat then [ "\"%char; "t"%char ]
  else if (n =? 10)%nat then [ "\"%char; "n"%char ]
  else if (n =? 12)%nat then [ "\"%char; "f"%char ]
  else if (n =? 13)%nat then [ "\"%char; "r"%char ]
  else if (n <? 32)%nat
       then [ "\"%char; "u"%char; "0"%char; "0"%char;
              hex_digit (n / 16); hex_digit (n mod 16) ]
  else [c].

Definition quote_string (s : string) : list ascii :=
  dquote :: flat_map escape_char (list_ascii_of_string s) ++ [dquote].

(** A line feed followed by the indentation of nesting depth [n]. *)
Definition nl_indent (n : nat) : list ascii := newline :: repeat " "%char (2 * n).

Fixpoint seq_body (ind : nat) (close : ascii) (items : list (list ascii)) : list ascii :=
  match items with
  | [] => []
  | [x] => x ++ nl_indent ind ++ [close]
  | x :: xs => x ++ ","%char :: nl_indent (S ind) ++ seq_body ind close xs
  end.

Definition wrap (open close : ascii) (ind : nat) (items : list (list ascii)) : list ascii :=
  match items with
  | [] => [open; close]
  | _ => open :: nl_indent (S ind) ++ seq_body ind close items
  end.

(** The text of [v] at nesting depth [ind].  An [undefined] array element
    is written [null], and so is an infinite number; a property whose value
    is [undefined] is left out.
    The members of an object are written in the enumeration order of the
    finite map, where JavaScript follows the order of insertion; the
    parser builds the same object from either order. *)
Fixpoint ser (ind : nat) (v : value) : list ascii :=
  match v with
  | VUndef | VNull | VInf _ => [ "n"; "u"; "l"; "l" ]%char
  | VBool true => [ "t"; "r"; "u"; "e" ]%char
  | VBool false => [ "f"; "a"; "l"; "s"; "e" ]%char
  | VNum z => show_Z z
  | VStr s => quote_string s
  | VArr l => wrap "["%char "]"%char ind (map (ser (S ind)) l)
  | VObj o =>
      wrap "{"%char "}"%char ind
        (map_fold (fun k x acc =>
                     if is_undef x then acc
                     else (quote_string k ++ ":"%char :: " "%char :: ser (S ind) x) :: acc)
                  [] o)
  end.

(** [JSON.stringify(v, null, 2)]; [None] stands for the result [undefined]. *)
Definition JSON_stringify (v : value) : option string :=
  match v with
  | VUndef => None
  | _ => Some (string_of_list_ascii (ser 0 v))
  end.

Definition is_ws (c : ascii) : bool :=
  Ascii.eqb c " "%char || Ascii.eqb c "009"%char || Ascii.eqb c "010"%char
  || Ascii.eqb c "013"%char.

Fixpoint skip_ws (s : list ascii) : list ascii :=
  match s with
  | c :: s' => if is_ws c then skip_ws s' else s
  | [] => []
  end.

Definition digit_of (c : ascii) : option (Decimal.uint → Decimal.uint) :=
  if Ascii.eqb c "0" then Some Decimal.D0
  else if Ascii.eqb c "1" then Some Decimal.D1
  else if Ascii.eqb c "2" then Some Decimal.D2
  else if Ascii.eqb c "3" then Some Decimal.D3
  else if Ascii.eqb c "4" then Some Decimal.D4
  else if Ascii.eqb c "5" then Some Decimal.D5
  else if Ascii.eqb c "6" then Some Decimal.D6
  else if Ascii.eqb c "7" then Some Decimal.D7
  else if Ascii.eqb c "8" then Some Decimal.D8
  else if Ascii.eqb c "9" then Some Decimal.D9
  else None.

Definition is_digit (c : ascii) : bool :=
  match digit_of c with Some _ => true | None => false end.

Fixpoint read_digits (s : list ascii) : Decimal.uint * list ascii :=
  match s with
  | c :: s' =>
      match digit_of c with
      | Some k => let '(d, r) := read_digits s' in (k d, r)
      | None => (Decimal.Nil, s)
      end
  | [] => (Decimal.Nil, [])
  end.

(** The digits of the fraction [.ddd] of a number literal, none when the
    literal has no fraction; [None] when no digit follows the point. *)
Definition read_fraction (s : list ascii) : option (Decimal.uint * list ascii) :=
  match s with
  | c :: s' =>
      if Ascii.eqb c "." then
        match read_digits s' with
        | (Decimal.Nil, _) => None
        | (f, r) => Some (f, r)
        end
      else Some (Decimal.Nil, s)
  | [] => Some (Decimal.Nil, s)
  end.

(** The exponent [e12], [e+12], [e-12] (or with [E]) of a number literal,
    0 when the literal has none; [None] when no digit follows the sign. *)
Definition read_exponent (s : list ascii) : option (Z * list ascii) :=
  match s with
  | c :: s' =>
      if Ascii.eqb c "e" || Ascii.eqb c "E" then
        let '(minus, s1) := match s' with
                            | x :: s'' => if Ascii.eqb x "-" then (true, s'')
                                          else if Ascii.eqb x "+" then (false, s'')
                                          else (false, s')
                            | [] => (false, s')
                            end in
        match read_digits s1 with
        | (Decimal.Nil, _) => None
        | (d, r) => let n := Z.of_N (N.of_uint d) in
                    Some (if minus then - n else n, r)
        end
      else Some (0, s)
  | [] => Some (0, s)
  end.

(** The least magnitude that is rounded to an infinity: half way between
    the largest finite number, [2^1024 - 2^971], and [2^1024]. *)
Definition overflow : Z := 2 ^ 1024 - 2 ^ 970.

(** The number that the literal with digits [m], scaled by [10^k], denotes:
    an infinity from [overflow] on, the integer itself when the literal
    denotes an integer that a number holds exactly.  Every other literal
    (a fraction, an integer that has to be rounded, the zero with a minus
    sign) denotes a number that the model does not have. *)
Definition number_value (neg : bool) (m k : Z) : res value :=
  if m =? 0 then (if neg then Throw OutOfModel else Ok (VNum 0))
  else
    let num := if 0 <=? k then m * 10 ^ k else m in
    let den := if 0 <=? k then 1 else 10 ^ (- k) in
    if overflow * den <=? num then Ok (VInf neg)
    else if (num mod den =? 0) && safe_int (num / den)
         then Ok (VNum (if neg then - (num / den) else num / den))
         else Throw OutOfModel.

Definition parse_number (s : list ascii) : res (value * list ascii) :=
  let '(neg, s1) := match s with
                    | c :: s' => if Ascii.eqb c "-" then (true, s') else (false, s)
                    | [] => (false, s)
                    end in
  let '(d, r) := read_digits s1 in
  match d with
  | Decimal.Nil => Throw SyntaxError
  | Decimal.D0 (Decimal.D0 _ | Decimal.D1 _ | Decimal.D2 _ | Decimal.D3 _
               | Decimal.D4 _ | Decimal.D5 _ | Decimal.D6 _ | Decimal.D7 _
               | Decimal.D8 _ | Decimal.D9 _) => Throw SyntaxError
  | _ =>
      match read_fraction r with
      | None => Throw SyntaxError
      | Some (f, r1) =>
          match read_exponent r1 with
          | None => Throw SyntaxError
          | Some (e, r2) =>
              let digits := Z.of_nat (Decimal.nb_digits f) in
              let m := Z.of_N (N.of_uint d) * 10 ^ digits + Z.of_N (N.of_uint f) in
              v ← number_value neg m (e - digits);
              Ok (v, r2)
          end
      end
  end.

(** The rest of a string literal, after its opening quote. *)
Fixpoint parse_string_body (s : list ascii) : res (list ascii * list ascii) :=
  match s with
  | [] => Throw SyntaxError
  | c :: r =>
      if Ascii.eqb c dquote then Ok ([], r)
      else if Ascii.eqb c "\" then
        match r with
        | e :: r1 =>
            let continue (x : ascii) (rest : res (list ascii * list ascii)) :=
              '(cs, r') ← rest; Ok (x :: cs, r') in
            if Ascii.eqb e dquote then continue dquote (parse_string_body r1)
            else if Ascii.eqb e "\" then continue "\"%char (parse_string_body r1)
            else if Ascii.eqb e "/" then continue "/"%char (parse_string_body r1)
            else if Ascii.eqb e "b" then continue "008"%char (parse_string_body r1)
            else if Ascii.eqb e "f" then continue "012"%char (parse_string_body r1)
            else if Ascii.eqb e "n" then continue "010"%char (parse_string_body r1)
            else if Ascii.eqb e "r" then continue "013"%char (parse_string_body r1)
            else if Ascii.eqb e "t" then continue "009"%char (parse_string_body r1)
            else if Ascii.eqb e "u" then
              match r1 with
              | h1 :: h2 :: h3 :: h4 :: r2 =>
                  match hex_val h1, hex_val h2, hex_val h3, hex_val h4 with
                  | Some a, Some b, Some c', Some d =>
                      let n := (((a * 16 + b) * 16 + c') * 16 + d)%nat in
                      if (n <? 256)%nat
                      then continue (ascii_of_nat n) (parse_string_body r2)
                      else Throw OutOfModel
                  | _, _, _, _ => Throw SyntaxError
                  end
              | _ => Throw SyntaxError
              end
            else Throw SyntaxError
        | [] => Throw SyntaxError
        end
      else if (nat_of_ascii c <? 32)%nat then Throw SyntaxError
      else '(cs, r') ← parse_string_body r; Ok (c :: cs, r')
  end.

(** Properties are defined in text order: of two members with one name the
    later one stays. *)
Definition obj_of_members (ms : list (string * value)) : gmap string value :=
  fold_left (fun o m => <[m.1 := m.2]> o) ms ∅.

Definition expect (word : list ascii) (v : value) (s : list ascii)
  : res (value * list ascii) :=
  if decide (take (length word) s = word)
  then Ok (v, drop (length word) s) else Throw SyntaxError.

(** One value, from a text without leading white space.  [fuel] bounds the
    number of nested calls; running out of it is not a verdict on the text. *)
Fixpoint parse_value (fuel : nat) (s : list ascii) : res (value * list ascii) :=
  match fuel with
  | O => Throw OutOfModel
  | S n =>
      match s with
      | [] => Throw SyntaxError
      | c :: s' =>
          if Ascii.eqb c "{" then
            match skip_ws s' with
            | c1 :: r1 =>
                if Ascii.eqb c1 "}" then Ok (VObj ∅, r1)
                else '(ms, r) ← parse_members n (c1 :: r1);
                     Ok (VObj (obj_of_members ms), r)
            | [] => Throw SyntaxError
            end
          else if Ascii.eqb c "[" then
            match skip_ws s' with
            | c1 :: r1 =>
                if Ascii.eqb c1 "]" then Ok (VArr [], r1)
                else '(vs, r) ← parse_elements n (c1 :: r1); Ok (VArr vs, r)
            | [] => Throw SyntaxError
            end
          else if Ascii.eqb c dquote then
            '(cs, r) ← parse_string_body s'; Ok (VStr (string_of_list_ascii cs), r)
          else if Ascii.eqb c "t" then expect [ "r"; "u"; "e" ]%char (VBool true) s'
          else if Ascii.eqb c "f" then expect [ "a"; "l"; "s"; "e" ]%char (VBool false) s'
          else if Ascii.eqb c "n" then expect [ "u"; "l"; "l" ]%char VNull s'
          else if Ascii.eqb c "-" || is_digit c then parse_number s
          else Throw SyntaxError
      end
  end
with parse_elements (fuel : nat) (s : list ascii) : res (list value * list ascii) :=
  match fuel with
  | O => Throw OutOfModel
  | S n =>
      '(v, r1) ← parse_value n s;
      match skip_ws r1 with
      | c :: r2 =>
          if Ascii.eqb c "," then
            '(vs, r3) ← parse_elements n (skip_ws r2); Ok (v :: vs, r3)
          else if Ascii.eqb c "]" then Ok ([v], r2)
          else Throw SyntaxError
      | [] => Throw SyntaxError
      end
  end
with parse_members (fuel : nat) (s : list ascii)
  : res (list (string * value) * list ascii) :=
  match fuel with
  | O => Throw OutOfModel
  | S n =>
      match s with
      | c :: s0 =>
          if Ascii.eqb c dquote then
            '(k, r1) ← parse_string_body s0;
            match skip_ws r1 with
            | c1 :: r2 =>
                if Ascii.eqb c1 ":" then
                  '(v, r3) ← parse_value n (skip_ws r2);
                  match skip_ws r3 with
                  | c2 :: r4 =>
                      if Ascii.eqb c2 "," then
                        '(ms, r5) ← parse_members n (skip_ws r4);
                        Ok ((string_of_list_ascii k, v) :: ms, r5)
                      else if Ascii.eqb c2 "}"
                           then Ok ([(string_of_list_ascii k, v)], r4)
                      else Throw SyntaxError
                  | [] => Throw SyntaxError
                  end
                else Throw SyntaxError
            | [] => Throw SyntaxError
            end
          else Throw SyntaxError
      | [] => Throw SyntaxError
      end
  end.

(** [JSON.parse(text)] *)
Definition JSON_parse (text : string) : res value :=
  let s := list_ascii_of_string text in
  '(v, r) ← parse_value (2 * length s + 2) (skip_ws s);
  match skip_ws r with
  | [] => Ok v
  | _ => Throw SyntaxError
  end.

Open Scope string_scope.

(** ** Storage and transcoding (App.jsx, lines 8-17, 402-410, 459-473) *)

(** [loadDB()], given the content of the storage slot ([None]: no such
    item).  An empty text is falsy, so it is not parsed. *)
Definition loadDB (slot : option string) : res value :=
  match slot with
  | None => Ok emptyDB
  | Some raw =>
      if String.eqb raw EmptyString then Ok emptyDB
      else match JSON_parse raw with
           | Ok v => Ok v
           | Throw OutOfModel => Throw OutOfModel
           | Throw _ => Ok emptyDB
           end
  end.

(** The text that [exportJSON] puts into the [Blob]. *)
Definition exportJSON (db : value) : string :=
  default "undefined" (JSON_stringify db).

Definition typeof_object (v : value) : bool :=
  match v with VNull | VArr _ | VObj _ => true | _ => false end.

Definition isArray (v : value) : bool :=
  match v with VArr _ => true | _ => false end.

(** The [try] block of [reader.onload], up to the call of [setDb]. *)
Definition import_checked (content : string) : res value :=
  imported ← JSON_parse content;
  if negb (truthy imported) || negb (typeof_object imported)
  then Throw (Error "Invalid file")
  else
    invs ← get "investigations" imported;
    if negb (isArray invs) then Throw (Error "Missing keys")
    else
      evs ← get "evidence" imported;
      if negb (isArray evs) then Throw (Error "Missing keys")
      else Ok imported.

(** [importJSON]: what [reader.onload] passes to [setDb] once [content] has
    been read.  A thrown error is caught and only reported by [alert]. *)
Definition importJSON (content : string) : res (list updater) :=
  match import_checked content with
  | Ok imported => Ok [ fun _ => Ok imported ]
  | Throw OutOfModel => Throw OutOfModel
  | Throw _ => Ok []
  end.

(** ** Records (App.jsx, lines 23-26) and form payloads

    The shapes named in the source, and their representation as values. *)

Record Attachment := { att_label : string; att_url : string }.

Record Entry := {
  en_id : string; en_author : string; en_body : string;
  en_timestamp : Z; en_attachments : list Attachment }.

Record Evidence := {
  ev_id : string; ev_investigationId : string; ev_title : string;
  ev_type : string; ev_summary : string; ev_createdAt : Z; ev_updatedAt : Z;
  ev_tags : list string; ev_entries : list Entry }.

Record Investigation := {
  inv_id : string; inv_title : string; inv_caseNumber : string;
  inv_description : string; inv_status : string; inv_createdAt : Z;
  inv_updatedAt : option Z; inv_tags : list string }.

Record Database := {
  db_investigations : list Investigation; db_evidence : list Evidence;
  db_version : Z }.

Definition enc_attachment (a : Attachment) : value :=
  VObj {[ "label" := VStr (att_label a); "url" := VStr (att_url a) ]}.

Definition enc_entry (e : Entry) : value :=
  VObj {[ "id" := VStr (en_id e); "timestamp" := VNum (en_timestamp e);
          "author" := VStr (en_author e); "body" := VStr (en_body e);
          "attachments" := VArr (map enc_attachment (en_attachments e)) ]}.

Definition enc_evidence (e : Evidence) : value :=
  VObj {[ "id" := VStr (ev_id e); "investigationId" := VStr (ev_investigationId e);
          "createdAt" := VNum (ev_createdAt e); "updatedAt" := VNum (ev_updatedAt e);
          "entries" := VArr (map enc_entry (ev_entries e));
          "title" := VStr (ev_title e); "type" := VStr (ev_type e);
          "summary" := VStr (ev_summary e);
          "tags" := VArr (map VStr (ev_tags e)) ]}.

Definition enc_investigation (i : Investigation) : value :=
  let base : gmap string value :=
    {[ "id" := VStr (inv_id i); "createdAt" := VNum (inv_createdAt i);
       "title" := VStr (inv_title i); "caseNumber" := VStr (inv_caseNumber i);
       "description" := VStr (inv_description i); "status" := VStr (inv_status i);
       "tags" := VArr (map VStr (inv_tags i)) ]} in
  VObj (match inv_updatedAt i with
        | Some u => <["updatedAt" := VNum u]> base
        | None => base
        end).

Definition enc_db (d : Database) : value :=
  VObj {[ "investigations" := VArr (map enc_investigation (db_investigations d));
          "evidence" := VArr (map enc_evidence (db_evidence d));
          "version" := VNum (db_version d) ]}.

(** The payloads built by [InvestigationForm], [EvidenceForm] and
    [EntryForm] (lines 123-132, 185-193, 251-257). *)
Record InvestigationPayload := {
  ip_title : string; ip_caseNumber : string; ip_description : string;
  ip_status : string; ip_tags : list string }.

Record EvidencePayload := {
  ep_title : string; ep_type : string; ep_summary : string; ep_tags : list string }.

Record EntryPayload := {
  np_author : string; np_body : string; np_attachments : list Attachment }.

Definition investigation_payload (p : InvestigationPayload) : gmap string value :=
  {[ "title" := VStr (ip_title p); "caseNumber" := VStr (ip_caseNumber p);
     "description" := VStr (ip_description p); "status" := VStr (ip_status p);
     "tags" := VArr (map VStr (ip_tags p)) ]}.

Definition evidence_payload (p : EvidencePayload) : gmap string value :=
  {[ "title" := VStr (ep_title p); "type" := VStr (ep_type p);
     "summary" := VStr (ep_summary p); "tags" := VArr (map VStr (ep_tags p)) ]}.

Definition entry_payload (p : EntryPayload) : gmap string value :=
  {[ "author" := VStr (np_author p); "body" := VStr (np_body p);
     "attachments" := VArr (map enc_attachment (np_attachments p)) ]}.

(** ** Events: the operations the interface exposes *)

Inductive event :=
| CreateInvestigation (newid : string) (now : Z) (p : InvestigationPayload)
| UpdateInvestigation (id : string) (now : Z) (p : InvestigationPayload)
| DeleteInvestigation (confirmed : bool) (id : string)
| CreateEvidence (invId newid : string) (now : Z) (p : EvidencePayload)
| UpdateEvidence (id : string) (now : Z) (p : EvidencePayload)
| DeleteEvidence (confirmed : bool) (id : string)
| AddEntry (evidenceId newid : string) (now : Z) (p : EntryPayload)
| ImportJSON (content : string).

Definition handle (e : event) : res (list updater) :=
  match e with
  | CreateInvestigation newid now p =>
      Ok (createInvestigation newid now (investigation_payload p))
  | UpdateInvestigation id now p =>
      Ok (updateInvestigation id (investigation_payload p) now)
  | DeleteInvestigation confirmed id => Ok (deleteInvestigation confirmed id)
  | CreateEvidence invId newid now p =>
      Ok (createEvidence invId newid now (evidence_payload p))
  | UpdateEvidence id now p => Ok (updateEvidence id (evidence_payload p) now)
  | DeleteEvidence confirmed id => Ok (deleteEvidence confirmed id)
  | AddEntry evidenceId newid now p =>
      Ok (addEntry evidenceId newid now (entry_payload p))
  | ImportJSON content => importJSON content
  end.

(** The store after a sequence of events. *)
Fixpoint exec (es : list event) (db : value) : res value :=
  match es with
  | [] => Ok db
  | e :: es' => us ← handle e; db' ← run us db; exec es' db'
  end.

(** The clock reading taken by an event, if it takes one. *)
Definition event_time (e : event) : option Z :=
  match e with
  | CreateInvestigation _ now _ | UpdateInvestigation _ now _
  | CreateEvidence _ _ now _ | UpdateEvidence _ now _ | AddEntry _ _ now _ => Some now
  | DeleteInvestigation _ _ | DeleteEvidence _ _ | ImportJSON _ => None
  end.

Definition is_import (e : event) : bool :=
  match e with ImportJSON _ => true | _ => false end.

(** [updatedAt >= createdAt] on one record, and on every record of a store. *)
Definition ts_ok (r : value) : bool :=
  match get "createdAt" r, get "updatedAt" r with
  | Ok (VNum c), Ok (VNum u) => (c <=? u)%Z
  | _, _ => false
  end.

Definition timestamps_ok (db : value) : bool :=
  match get "investigations" db, get "evidence" db with
  | Ok (VArr invs), Ok (VArr evs) => forallb ts_ok invs && forallb ts_ok evs
  | _, _ => false
  end.


(** ** Persistence (App.jsx, lines 19-21 and 313)

    [saveDB] runs after every render in which [db] has changed and writes
    [JSON.stringify(db)] into the storage slot that [loadDB] reads when the
    page is opened.  A failure of [setItem] (a full storage) is not
    modelled. *)

Open Scope list_scope.

(** The items of an array or an object, separated by commas. *)
Fixpoint commas (items : list (list ascii)) : list ascii :=
  match items with
  | [] => []
  | [x] => x
  | x :: xs => x ++ ","%char :: commas xs
  end.

(** [JSON.stringify(v)]: the text of [v] without white space.  As in
    [ser], an [undefined] element and an infinite number are written
    [null], a property whose value is [undefined] is left out, and the members of an object come in the
    enumeration order of the finite map. *)
Fixpoint ser_compact (v : value) : list ascii :=
  match v with
  | VUndef | VNull | VInf _ => [ "n"; "u"; "l"; "l" ]%char
  | VBool true => [ "t"; "r"; "u"; "e" ]%char
  | VBool false => [ "f"; "a"; "l"; "s"; "e" ]%char
  | VNum z => show_Z z
  | VStr s => quote_string s
  | VArr l => "["%char :: commas (map ser_compact l) ++ ["]"%char]
  | VObj o =>
      "{"%char ::
      commas (map_fold (fun k x acc =>
                          if is_undef x then acc
                          else (quote_string k ++ ":"%char :: ser_compact x) :: acc)
                       [] o)
      ++ ["}"%char]
  end.

Open Scope string_scope.

(** The content of the storage slot after [saveDB(db)]; [setItem] turns
    the result [undefined] of [JSON.stringify] into text. *)
Definition saveDB (db : value) : string :=
  match db with
  | VUndef => "undefined"
  | _ => string_of_list_ascii (ser_compact db)
  end.

(** ** Derived views (App.jsx, lines 315-320) *)

(** [investigations.find((i) => i.id === selected) || null] *)
Definition selectedInvestigation (selected db : value) : res value :=
  investigations ← get "investigations" db;
  l ← method_arr investigations;
  r ← findM (fun i => iid ← get "id" i; strict_eq iid selected) l;
  Ok (js_or r VNull).

(** The comparator [(a, b) => (b.updatedAt || 0) - (a.updatedAt || 0)]. *)
Definition compare_evidence (a b : value) : res Z :=
  ub ← get "updatedAt" b;
  ua ← get "updatedAt" a;
  js_sub (js_or ub (VNum 0)) (js_or ua (VNum 0)).

Definition evidenceForSelected (selected db : value) : res (list value) :=
  evidence ← get "evidence" db;
  l ← method_arr evidence;
  l1 ← filterM (fun e => x ← get "investigationId" e; strict_eq x selected) l;
  Array_sort compare_evidence l1.

(** [evidence.find((e) => e.id === activeEvidence) || null] *)
Definition activeEvidenceObj (activeEvidence db : value) : res value :=
  evidence ← get "evidence" db;
  l ← method_arr evidence;
  r ← findM (fun e => eid ← get "id" e; strict_eq eid activeEvidence) l;
  Ok (js_or r VNull).

(** ** Selection (App.jsx, lines 306, 311, 342, 362-363, 372, 388)

    Of the other state cells the model follows two: [selected], the id of
    an investigation or [null], and [activeEvidence], the id of an evidence
    record or [null]; the cells of the two dialogs are left out.  A handler
    reads the cells, and [db], as the render that installed it saw them. *)

Record Selection := { selected : value; activeEvidence : value }.

(** [setSelected(inv.id)] at the end of [createInvestigation]. *)
Definition createInvestigation_selection (newid : string) (now : Z)
    (data : gmap string value) (s : Selection) : res Selection :=
  let inv := VObj (data ∪ {[ "id" := VStr newid; "createdAt" := VNum now;
                             "updatedAt" := VNum now ]}) in
  id ← get "id" inv;
  Ok {| selected := id; activeEvidence := activeEvidence s |}.

(** Lines 362-363: [selected] is cleared when it is the deleted id, and
    [activeEvidence], when set, is cleared when some evidence record
    refers to the deleted investigation. *)
Definition deleteInvestigation_selection (confirmed : bool) (id : string)
    (db : value) (s : Selection) : res Selection :=
  if negb confirmed then Ok s
  else
    let sel := if is_str id (selected s) then VNull else selected s in
    if truthy (activeEvidence s)
    then
      evidence ← get "evidence" db;
      l ← method_arr evidence;
      r ← findM (fun e => x ← get "investigationId" e; Ok (is_str id x)) l;
      Ok {| selected := sel;
            activeEvidence := if truthy r then VNull else activeEvidence s |}
    else Ok {| selected := sel; activeEvidence := activeEvidence s |}.

(** [setActiveEvidence(ev.id)] at the end of [createEvidence]. *)
Definition createEvidence_selection (invId newid : string) (now : Z)
    (data : gmap string value) (s : Selection) : res Selection :=
  let ev := VObj (data ∪ {[ "id" := VStr newid; "investigationId" := VStr invId;
                            "createdAt" := VNum now; "updatedAt" := VNum now;
                            "entries" := VArr [] ]}) in
  id ← get "id" ev;
  Ok {| selected := selected s; activeEvidence := id |}.

(** Line 388: [if (activeEvidence === id) setActiveEvidence(null)]. *)
Definition deleteEvidence_selection (confirmed : bool) (id : string) (s : Selection)
  : Selection :=
  if negb confirmed then s
  else {| selected := selected s;
          activeEvidence := if is_str id (activeEvidence s) then VNull
                            else activeEvidence s |}.

(** What an event does to the selection; [db] is the store that the
    handler sees.  Updates, entry additions and imports leave it alone. *)
Definition handle_selection (e : event) (db : value) (s : Selection) : res Selection :=
  match e with
  | CreateInvestigation newid now p =>
      createInvestigation_selection newid now (investigation_payload p) s
  | DeleteInvestigation confirmed id => deleteInvestigation_selection confirmed id db s
  | CreateEvidence invId newid now p =>
      createEvidence_selection invId newid now (evidence_payload p) s
  | DeleteEvidence confirmed id => Ok (deleteEvidence_selection confirmed id s)
  | _ => Ok s
  end.

(** ** Forms (App.jsx, lines 112-299) *)

(** White space and line terminators among the code units below 256: tab,
    line feed, vertical tab, form feed, carriage return, space and the
    no-break space. *)
Definition is_space (c : ascii) : bool :=
  let n := nat_of_ascii c in
  ((9 <=? n) && (n <=? 13) || (n =? 32) || (n =? 160))%nat.

Fixpoint trimStart (s : string) : string :=
  match s with
  | EmptyString => EmptyString
  | String c s' => if is_space c then trimStart s' else s
  end.

Fixpoint trimEnd (s : string) : string :=
  match s with
  | EmptyString => EmptyString
  | String c s' =>
      match trimEnd s' with
      | EmptyString => if is_space c then EmptyString else String c EmptyString
      | r => String c r
      end
  end.

(** [s.trim()] *)
Definition trim (s : string) : string := trimEnd (trimStart s).

(** [v.trim()] on a state value: only strings have the method. *)
Definition trim_value (v : value) : res string :=
  match v with
  | VStr s => Ok (trim s)
  | _ => Throw TypeError
  end.

(** [s.split(",")] *)
Fixpoint split_comma (s : string) : list string :=
  match s with
  | EmptyString => [EmptyString]
  | String c s' =>
      if Ascii.eqb c ","%char then EmptyString :: split_comma s'
      else match split_comma s' with
           | x :: r => String c x :: r
           | [] => [String c EmptyString]
           end
  end.

(** [tags.split(",").map((t) => t.trim()).filter(Boolean)] *)
Definition clean_tags (tags : string) : list string :=
  filter (fun t => t ≠ EmptyString) (map trim (split_comma tags)).

(** The state of [InvestigationForm]: four cells hold what [initial]
    gives, or what has been typed since; [tags] is a text. *)
Record InvestigationFormState := {
  if_title : value; if_caseNumber : value; if_description : value;
  if_status : value; if_tags : string }.

(** The initial state, lines 113-117; [initial] is the record being
    edited, or [undefined] for a new one. *)
Definition InvestigationForm_init (initial : value) : res InvestigationFormState :=
  t ← opt_get "title" initial;
  c ← opt_get "caseNumber" initial;
  d ← opt_get "description" initial;
  s ← opt_get "status" initial;
  tg ← opt_get "tags" initial;
  tags ← method_arr (js_or tg (VArr [])) ≫= join_values ", ";
  Ok {| if_title := js_or t (VStr EmptyString);
        if_caseNumber := js_or c (VStr EmptyString);
        if_description := js_or d (VStr EmptyString);
        if_status := js_or s (VStr "Open");
        if_tags := tags |}.

(** The payload handed to [onSubmit], lines 123-132. *)
Definition InvestigationForm_submit (st : InvestigationFormState)
  : res (gmap string value) :=
  t ← trim_value (if_title st);
  c ← trim_value (if_caseNumber st);
  d ← trim_value (if_description st);
  Ok {[ "title" := VStr t; "caseNumber" := VStr c; "description" := VStr d;
        "status" := if_status st;
        "tags" := VArr (map VStr (clean_tags (if_tags st))) ]}.

Record EvidenceFormState := {
  ef_title : value; ef_type : value; ef_summary : value; ef_tags : string }.

(** Lines 176-179. *)
Definition EvidenceForm_init (initial : value) : res EvidenceFormState :=
  t ← opt_get "title" initial;
  ty ← opt_get "type" initial;
  s ← opt_get "summary" initial;
  tg ← opt_get "tags" initial;
  tags ← method_arr (js_or tg (VArr [])) ≫= join_values ", ";
  Ok {| ef_title := js_or t (VStr EmptyString);
        ef_type := js_or ty (VStr "Physical");
        ef_summary := js_or s (VStr EmptyString);
        ef_tags := tags |}.

(** Lines 185-193. *)
Definition EvidenceForm_submit (st : EvidenceFormState) : res (gmap string value) :=
  t ← trim_value (ef_title st);
  s ← trim_value (ef_summary st);
  Ok {[ "title" := VStr t; "type" := ef_type st; "summary" := VStr s;
        "tags" := VArr (map VStr (clean_tags (ef_tags st))) ]}.

(** The state of [EntryForm]: two texts and the attachment rows. *)
Record EntryFormState := {
  nf_author : string; nf_body : string; nf_attachments : list value }.

(** The blank row [{ label, url }], both texts empty. *)
Definition blank_attachment : value :=
  VObj {[ "label" := VStr EmptyString; "url" := VStr EmptyString ]}.

Definition EntryForm_init : EntryFormState :=
  {| nf_author := EmptyString; nf_body := EmptyString;
     nf_attachments := [blank_attachment] |}.

(** [prev.map((x, idx) => f(x, idx))], counting from [n]. *)
Fixpoint map_indexed {A B} (n : nat) (f : A → nat → res B) (l : list A) : res (list B) :=
  match l with
  | [] => Ok []
  | x :: l' => y ← f x n; r ← map_indexed (S n) f l'; Ok (y :: r)
  end.

(** [prev.filter((x, idx) => p(x, idx))], counting from [n]. *)
Fixpoint filter_indexed {A} (n : nat) (p : A → nat → bool) (l : list A) : list A :=
  match l with
  | [] => []
  | x :: l' => if p x n then x :: filter_indexed (S n) p l' else filter_indexed (S n) p l'
  end.

(** [addAttachment], [updateAttachment] and [removeAttachment], lines
    235-245, as functions on the rows. *)
Definition addAttachment (a : list value) : list value :=
  (a ++ [blank_attachment])%list.

Definition updateAttachment (i : nat) (field : string) (v : string) (prev : list value)
  : res (list value) :=
  map_indexed 0 (fun att idx =>
                   if (idx =? i)%nat
                   then o ← spread_obj att; Ok (VObj (<[field := VStr v]> o))
                   else Ok att) prev.

Definition removeAttachment (i : nat) (prev : list value) : list value :=
  filter_indexed 0 (fun _ idx => negb (idx =? i)%nat) prev.

(** The payload handed to [onSubmit], lines 251-257. *)
Definition EntryForm_submit (st : EntryFormState) : res (gmap string value) :=
  let author := trim (nf_author st) in
  rows ← mapM (fun a =>
                 l ← get "label" a ≫= trim_value;
                 label ← (if String.eqb l EmptyString
                          then get "url" a ≫= trim_value else Ok l);
                 u ← get "url" a ≫= trim_value;
                 Ok (VObj {[ "label" := VStr label; "url" := VStr u ]}))
              (nf_attachments st);
  kept ← filterM (fun a => u ← get "url" a; Ok (truthy u)) rows;
  Ok {[ "author" := VStr (if String.eqb author EmptyString then "Unknown" else author);
        "body" := VStr (trim (nf_body st));
        "attachments" := VArr kept ]}.
(** A value whose properties can be read: neither [null] nor [undefined]. *)
Definition nonnullish (v : value) : Prop :=
  match v with VUndef | VNull => False | _ => True end.

(** [i.id === id], as a test on a record. *)
Definition has_id (id : string) (v : value) : bool :=
  match get "id" v with Ok x => is_str id x | Throw _ => false end.

(** [e.investigationId === id] *)
Definition owned_by (id : string) (v : value) : bool :=
  match get "investigationId" v with Ok x => is_str id x | Throw _ => false end.

(** What the callback of [.map] in [updateInvestigation] and
    [updateEvidence] returns for a record [r]. *)
Definition merged (id : string) (data : gmap string value) (now : Z) (r : value) : value :=
  if has_id id r
  then match r with
       | VObj ro => VObj (<["updatedAt" := VNum now]> (data ∪ ro))
       | _ => r
       end
  else r.

(** The properties of an update, for an updater [update] working on the
    property [coll] of the database and a [fields] object that, like the
    payloads of the forms, has no property [id] or [createdAt]. *)
Definition update_spec
    (update : string → gmap string value → Z → list updater) (coll : string) : Prop :=
  ∀ (o : gmap string value) (l : list value) (id : string)
    (data : gmap string value) (now : Z),
    o !! coll = Some (VArr l) → Forall nonnullish l →
    data !! "id" = None → data !! "createdAt" = None →
    ∃ l',
      run (update id data now) (VObj o) = Ok (VObj (<[coll := VArr l']> o)) ∧
      length l' = length l ∧
      (∀ n r, l !! n = Some r → has_id id r = false → l' !! n = Some r) ∧
      (∀ n r, l !! n = Some r → has_id id r = true →
         ∃ ro ro', r = VObj ro ∧ l' !! n = Some (VObj ro') ∧
           ro' !! "id" = ro !! "id" ∧
           ro' !! "createdAt" = ro !! "createdAt" ∧
           ro' !! "updatedAt" = Some (VNum now) ∧
           (∀ k v, k ≠ "updatedAt" → data !! k = Some v → ro' !! k = Some v) ∧
           (∀ k, k ≠ "updatedAt" → data !! k = None → ro' !! k = ro !! k)) ∧
      ((∀ r, r ∈ l → has_id id r = false) →
         run (update id data now) (VObj o) = Ok (VObj o)).

(** [e.entries || []], spread into the new array. *)
Definition entries_of (e : value) : res (list value) :=
  old ← get "entries" e; spread_arr (js_or old (VArr [])).

(** What the callback of [.map] in [addEntry] returns for a record [e]. *)
Definition with_entry (id : string) (entry : value) (now : Z) (e : value) : value :=
  if has_id id e
  then match e, entries_of e with
       | VObj eo, Ok old =>
           VObj (<["updatedAt" := VNum now]> (<["entries" := VArr (entry :: old)]> eo))
       | _, _ => e
       end
  else e.

(** The evidence records on which [addEntry(id, ...)] runs through: all
    readable, and [entries] of a record with that id is an array or absent. *)
Definition entries_ready (id : string) (evs : list value) : Prop :=
  Forall (fun e => nonnullish e ∧
                   (has_id id e = true → ∃ old, entries_of e = Ok old)) evs.

(** A string literal of JSON text: [s] between double quotes. *)
Definition quoted (s : string) : string :=
  String dquote (s ++ String dquote EmptyString).

(** What [importJSON] accepts: an object whose [investigations] and
    [evidence] are arrays. *)
Definition valid_import (v : value) : Prop :=
  ∃ o invs evs, v = VObj o ∧ o !! "investigations" = Some (VArr invs)
                ∧ o !! "evidence" = Some (VArr evs).

(** The store after the handler of an import has run. *)
Definition after_import (content : string) (db : value) : res value :=
  us ← importJSON content; run us db.

(** The text [{"investigations": "not-an-array", "evidence": []}]. *)
Definition not_an_array_doc : string :=
  "{" ++ quoted "investigations" ++ ": " ++ quoted "not-an-array" ++ ", "
      ++ quoted "evidence" ++ ": []}".

(** Stable insertion sort of [l] by decreasing [key], the pure counterpart
    of [sortM] for the comparator [(a, b) => key b - key a]. *)
Fixpoint insert_desc {A} (key : A → Z) (x : A) (l : list A) : list A :=
  match l with
  | [] => [x]
  | y :: l' => if (key y - key x <=? 0)%Z then x :: y :: l' else y :: insert_desc key x l'
  end.

Fixpoint sort_desc {A} (key : A → Z) (l : list A) : list A :=
  match l with
  | [] => []
  | x :: l' => insert_desc key x (sort_desc key l')
  end.

(** The sort key of an investigation as line 333 computes it:
    [updatedAt], unless it is absent or zero, and then [createdAt]. *)
Definition updated_key (i : Investigation) : Z :=
  match inv_updatedAt i with
  | Some u => if (u =? 0)%Z then inv_createdAt i else u
  | None => inv_createdAt i
  end.

(** [f] contains [q], letter case apart. *)
Definition contains_ci (q f : string) : Prop :=
  ∃ a b, toLowerCase f = a ++ toLowerCase q ++ b.

(** The investigations selected by a status filter and a query. *)
Definition status_selected (statusFilter : string) (i : Investigation) : Prop :=
  statusFilter = "All" ∨ inv_status i = statusFilter.

Definition query_selected (query : string) (i : Investigation) : Prop :=
  ∃ f, In f (inv_title i :: inv_caseNumber i :: inv_description i :: inv_tags i)
       ∧ contains_ci query f.

(** The same selection as the two [.filter] callbacks compute it. *)
Definition selectedb (statusFilter query : string) (i : Investigation) : bool :=
  (if String.eqb statusFilter "All" then true else String.eqb (inv_status i) statusFilter)
  && (if String.eqb (toLowerCase query) EmptyString then true
      else existsb (fun f => includes (toLowerCase query) (toLowerCase f))
             (inv_title i :: inv_caseNumber i :: inv_description i :: inv_tags i)).

(** The sort key of the specification: [updatedAt], and [createdAt] when
    [updatedAt] is absent. *)
Definition updated_or_created (i : Investigation) : Z :=
  match inv_updatedAt i with
  | Some u => u
  | None => inv_createdAt i
  end.

(** The CSV table of a database of records. *)
Definition csv_header_names : list string :=
  [ "caseNumber"; "investigationTitle"; "investigationStatus"; "investigationTags";
    "evidenceTitle"; "evidenceType"; "evidenceTags"; "entryTimestamp";
    "entryAuthor"; "entryBody"; "attachments" ].

(** The first investigation whose id is the [investigationId] of [ev]. *)
Definition parent_of (d : Database) (ev : Evidence) : option Investigation :=
  List.find (fun i => String.eqb (inv_id i) (ev_investigationId ev))
            (db_investigations d).

(** One attachment in the last column: the label, or the word [link] for
    an empty label, then a colon and the address. *)
Definition attachment_text (a : Attachment) : string :=
  (if String.eqb (att_label a) EmptyString then "link" else att_label a)
  ++ ":" ++ att_url a.

Definition csv_row (iso : Z → string) (inv : option Investigation)
    (ev : Evidence) (en : Entry) : list string :=
  [ from_option inv_caseNumber EmptyString inv;
    from_option inv_title EmptyString inv;
    from_option inv_status EmptyString inv;
    String.concat ";" (from_option inv_tags [] inv);
    ev_title ev;
    ev_type ev;
    String.concat ";" (ev_tags ev);
    iso (en_timestamp en);
    en_author en;
    en_body en;
    String.concat " | " (map attachment_text (en_attachments en)) ].

Definition csv_data_rows (iso : Z → string) (d : Database) : list (list string) :=
  flat_map (fun ev => map (csv_row iso (parent_of d ev) ev) (ev_entries ev))
           (db_evidence d).

(** One field of the CSV text. *)
Definition csv_field (s : string) : string :=
  if needsQuotes s then quoted (doubleQuotes s) else s.

Definition csv_text (rows : list (list string)) : string :=
  String.concat (String newline EmptyString)
    (map (fun r => String.concat "," (map csv_field r)) rows).

(** The entries that [exportCSV] can render: the time stamp is a valid
    time value. *)
Definition exportable_entry (en : Entry) : Prop :=
  (Z.abs (en_timestamp en) <= 8640000000000000)%Z.

Definition exportable (d : Database) : Prop :=
  Forall (fun ev => Forall exportable_entry (ev_entries ev)) (db_evidence d).

Definition entry_count (d : Database) : nat :=
  list_sum (map (fun ev => length (ev_entries ev)) (db_evidence d)).

(** The clock never runs backwards: every reading taken by an event of
    [es] is at least the one before it, starting from [t]. *)
Fixpoint clock_ok (t : Z) (es : list event) : Prop :=
  match es with
  | [] => True
  | e :: es' =>
      match event_time e with
      | Some now => (t <= now)%Z ∧ clock_ok now es'
      | None => clock_ok t es'
      end
  end.

(** A record created no later than [t] whose [updatedAt] is not before its
    [createdAt]. *)
Definition record_ok (t : Z) (r : value) : Prop :=
  ∃ ro c u, r = VObj ro ∧ ro !! "createdAt" = Some (VNum c)
            ∧ ro !! "updatedAt" = Some (VNum u) ∧ (c <= u)%Z ∧ (c <= t)%Z.

Definition evidence_ok (t : Z) (r : value) : Prop :=
  record_ok t r ∧ ∃ l, get "entries" r = Ok (VArr l).

Definition store_ok (t : Z) (db : value) : Prop :=
  ∃ o invs evs, db = VObj o ∧ o !! "investigations" = Some (VArr invs)
                ∧ o !! "evidence" = Some (VArr evs)
                ∧ Forall (record_ok t) invs ∧ Forall (evidence_ok t) evs.

(** A document that passes the validation of [importJSON] and holds an
    investigation updated before it was created. *)
Definition backdated_doc : string :=
  "{" ++ quoted "investigations" ++ ": [{" ++ quoted "id" ++ ": " ++ quoted "a" ++ ", "
      ++ quoted "createdAt" ++ ": 10, " ++ quoted "updatedAt" ++ ": 5}], "
      ++ quoted "evidence" ++ ": []}".

Definition backdated_db : value :=
  VObj {[ "investigations" :=
            VArr [ VObj {[ "id" := VStr "a"; "createdAt" := VNum 10;
                           "updatedAt" := VNum 5 ]} ];
          "evidence" := VArr [] ]}.

(** A document with a number too large for a JavaScript number, and the
    database that [JSON.parse] makes of it: [1e999] is read as [Infinity]. *)
Definition overflow_doc : string :=
  "{" ++ quoted "investigations" ++ ": [], " ++ quoted "evidence" ++ ": [], "
      ++ quoted "version" ++ ": 1e999}".

Definition overflow_db : value :=
  VObj {[ "investigations" := VArr []; "evidence" := VArr [];
          "version" := VInf false ]}.

(** What is left of it after an export and an import. *)
Definition overflow_db_exported : value :=
  VObj {[ "investigations" := VArr []; "evidence" := VArr [];
          "version" := VNull ]}.

(** The values that JSON text denotes in this model: no [undefined]
    anywhere, no infinite number, and only integers that a JavaScript number
    holds exactly. *)
Fixpoint is_json (v : value) : bool :=
  match v with
  | VUndef | VInf _ => false
  | VNull | VBool _ | VStr _ => true
  | VNum z => safe_int z
  | VArr l => forallb is_json l
  | VObj o => map_fold (fun _ x acc => is_json x && acc) true o
  end.

(** The number of nodes of a value, counting each element and each
    property once more: a bound on the nested calls of the parser. *)
Fixpoint size (v : value) : nat :=
  match v with
  | VArr l => S (list_sum (map (fun x => S (size x)) l))
  | VObj o => S (map_fold (fun _ x acc => S (size x) + acc)%nat O o)
  | _ => 1
  end.

(** Does the text go on with a fraction or an exponent? *)
Definition more_number (s : list ascii) : bool :=
  match s with
  | c :: _ => Ascii.eqb c "." || Ascii.eqb c "e" || Ascii.eqb c "E"
  | [] => false
  end.

(** Where a number literal may end. *)
Definition token_end (s : list ascii) : bool :=
  match s with
  | [] => true
  | c :: _ => negb (is_digit c) && negb (more_number s)
  end.

(** The first character of a number, and how [parse_value] dispatches on it. *)
Definition starts_number (c : ascii) : Prop :=
  Ascii.eqb c "{" = false ∧ Ascii.eqb c "[" = false ∧ Ascii.eqb c dquote = false ∧
  Ascii.eqb c "t" = false ∧ Ascii.eqb c "f" = false ∧ Ascii.eqb c "n" = false ∧
  is_ws c = false ∧ Ascii.eqb c "]" = false.


(** The text of one property of an object at nesting depth [ind]. *)
Definition member_text (ind : nat) (p : string * value) : list ascii :=
  (quote_string p.1 ++ ":"%char :: " "%char :: ser (S ind) p.2)%list.

(** What the induction gives for one value. *)
Definition parses_back (x : value) : Prop :=
  ∀ ind n rest, (size x <= n)%nat → token_end rest = true →
    parse_value n ((ser ind x ++ rest)%list) = Ok (x, rest).

(** ** Worked examples

    Two investigations A and B, one evidence record for each, as in the
    examples of the specification. *)

Definition inv_A : Investigation :=
  {| inv_id := "A"; inv_title := "Harbour NARCOtics"; inv_caseNumber := "17";
     inv_description := EmptyString; inv_status := "Closed"; inv_createdAt := 1;
     inv_updatedAt := Some 4%Z; inv_tags := ["robbery"] |}.

Definition inv_B : Investigation :=
  {| inv_id := "B"; inv_title := "Depot"; inv_caseNumber := EmptyString;
     inv_description := EmptyString;
     inv_status := "Closed"; inv_createdAt := 9; inv_updatedAt := None;
     inv_tags := ["Narcotics"; "cctv"] |}.

Definition entry_X : Entry :=
  {| en_id := "X"; en_author := "Unknown"; en_body := "plain"; en_timestamp := 7;
     en_attachments := [] |}.

Definition entry_Y : Entry :=
  {| en_id := "Y"; en_author := "K9"; en_body := "hello, world"; en_timestamp := 8;
     en_attachments := [ {| att_label := "photo"; att_url := "http://x/1" |};
                         {| att_label := "http://x/2"; att_url := "http://x/2" |} ] |}.

Definition ev_E1 : Evidence :=
  {| ev_id := "E1"; ev_investigationId := "A"; ev_title := "Knife"; ev_type := "Physical";
     ev_summary := EmptyString; ev_createdAt := 2; ev_updatedAt := 8; ev_tags := ["steel"];
     ev_entries := [entry_Y; entry_X] |}.

Definition ev_E2 : Evidence :=
  {| ev_id := "E2"; ev_investigationId := "gone"; ev_title := "Tape"; ev_type := "Media";
     ev_summary := EmptyString; ev_createdAt := 3; ev_updatedAt := 3; ev_tags := [];
     ev_entries := [entry_X] |}.

Definition demo : Database :=
  {| db_investigations := [inv_A; inv_B]; db_evidence := [ev_E1; ev_E2];
     db_version := 1 |}.

Definition demo_store : gmap string value :=
  {[ "investigations" := VArr [enc_investigation inv_A; enc_investigation inv_B];
     "evidence" := VArr [enc_evidence ev_E1; enc_evidence ev_E2];
     "version" := VNum 1 ]}.

(** A rendering of time values for the examples: the epoch millisecond
    count behind a fixed date. *)
Definition demo_iso (z : Z) : string :=
  "1970-01-01T00:00:00.00" ++ string_of_list_ascii (show_Z z) ++ "Z".

(** Investigations with and without a zero [updatedAt], and an attachment
    with an empty label. *)
Definition inv_Y : Investigation :=
  {| inv_id := "Y"; inv_title := "Yard"; inv_caseNumber := EmptyString;
     inv_description := EmptyString; inv_status := "Open"; inv_createdAt := 50;
     inv_updatedAt := Some 50%Z; inv_tags := [] |}.

Definition inv_Z : Investigation :=
  {| inv_id := "Z"; inv_title := "Zoo"; inv_caseNumber := EmptyString;
     inv_description := EmptyString; inv_status := "Open"; inv_createdAt := 100;
     inv_updatedAt := Some 0%Z; inv_tags := [] |}.

Definition zero_db : Database :=
  {| db_investigations := [inv_Y; inv_Z]; db_evidence := []; db_version := 1 |}.

Definition entry_W : Entry :=
  {| en_id := "W"; en_author := "K9"; en_body := "scan"; en_timestamp := 7;
     en_attachments := [ {| att_label := EmptyString; att_url := "http://x/3" |} ] |}.

Definition blank_db : Database :=
  {| db_investigations := [];
     db_evidence :=
       [ {| ev_id := "E3"; ev_investigationId := "A"; ev_title := "Scan";
            ev_type := "Digital"; ev_summary := EmptyString; ev_createdAt := 2;
            ev_updatedAt := 7; ev_tags := []; ev_entries := [entry_W] |} ];
     db_version := 1 |}.

(** Two [fields] objects: one with an [id] and a [createdAt], which no
    form sends, and one that changes the status. *)
Definition renamed_fields : gmap string value :=
  {[ "id" := VStr "Z"; "createdAt" := VNum 99 ]}.

Definition closing_fields : gmap string value := {[ "status" := VStr "Open" ]}.

Definition note_fields : gmap string value :=
  entry_payload {| np_author := "K9"; np_body := "found"; np_attachments := [] |}.

Definition form_A : InvestigationPayload :=
  {| ip_title := "Harbour"; ip_caseNumber := "17"; ip_description := EmptyString;
     ip_status := "Open"; ip_tags := ["robbery"] |}.

Definition form_E : EvidencePayload :=
  {| ep_title := "Knife"; ep_type := "Physical"; ep_summary := EmptyString; ep_tags := [] |}.

Definition form_N : EntryPayload :=
  {| np_author := "K9"; np_body := "found"; np_attachments := [] |}.

Definition demo_events : list event :=
  [ CreateInvestigation "A" 5 form_A; CreateEvidence "A" "E1" 6 form_E;
    AddEntry "E1" "X" 6 form_N; UpdateInvestigation "A" 8 form_A;
    UpdateEvidence "E1" 9 form_E; DeleteEvidence true "E1";
    DeleteInvestigation true "A" ].

(** ** The operations on records

    What the repository operations do to a database of records of the
    shapes of lines 23-26, when their payloads are those of the forms. *)

Definition new_investigation (newid : string) (now : Z) (p : InvestigationPayload)
  : Investigation :=
  {| inv_id := newid; inv_title := ip_title p; inv_caseNumber := ip_caseNumber p;
     inv_description := ip_description p; inv_status := ip_status p;
     inv_createdAt := now; inv_updatedAt := Some now; inv_tags := ip_tags p |}.

Definition edit_investigation (id : string) (now : Z) (p : InvestigationPayload)
    (i : Investigation) : Investigation :=
  if String.eqb (inv_id i) id
  then {| inv_id := inv_id i; inv_title := ip_title p; inv_caseNumber := ip_caseNumber p;
          inv_description := ip_description p; inv_status := ip_status p;
          inv_createdAt := inv_createdAt i; inv_updatedAt := Some now;
          inv_tags := ip_tags p |}
  else i.

Definition new_evidence (invId newid : string) (now : Z) (p : EvidencePayload)
  : Evidence :=
  {| ev_id := newid; ev_investigationId := invId; ev_title := ep_title p;
     ev_type := ep_type p; ev_summary := ep_summary p; ev_createdAt := now;
     ev_updatedAt := now; ev_tags := ep_tags p; ev_entries := [] |}.

Definition edit_evidence (id : string) (now : Z) (p : EvidencePayload)
    (e : Evidence) : Evidence :=
  if String.eqb (ev_id e) id
  then {| ev_id := ev_id e; ev_investigationId := ev_investigationId e;
          ev_title := ep_title p; ev_type := ep_type p; ev_summary := ep_summary p;
          ev_createdAt := ev_createdAt e; ev_updatedAt := now; ev_tags := ep_tags p;
          ev_entries := ev_entries e |}
  else e.

Definition new_entry (newid : string) (now : Z) (p : EntryPayload) : Entry :=
  {| en_id := newid; en_author := np_author p; en_body := np_body p;
     en_timestamp := now; en_attachments := np_attachments p |}.

Definition extend_evidence (id : string) (en : Entry) (now : Z) (e : Evidence)
  : Evidence :=
  if String.eqb (ev_id e) id
  then {| ev_id := ev_id e; ev_investigationId := ev_investigationId e;
          ev_title := ev_title e; ev_type := ev_type e; ev_summary := ev_summary e;
          ev_createdAt := ev_createdAt e; ev_updatedAt := now; ev_tags := ev_tags e;
          ev_entries := en :: ev_entries e |}
  else e.

Definition with_investigations (f : list Investigation → list Investigation)
    (d : Database) : Database :=
  {| db_investigations := f (db_investigations d); db_evidence := db_evidence d;
     db_version := db_version d |}.

Definition with_evidence (f : list Evidence → list Evidence) (d : Database) : Database :=
  {| db_investigations := db_investigations d; db_evidence := f (db_evidence d);
     db_version := db_version d |}.

(** The database of records after an event other than an import. *)
Definition apply_event (e : event) (d : Database) : Database :=
  match e with
  | CreateInvestigation newid now p =>
      with_investigations (cons (new_investigation newid now p)) d
  | UpdateInvestigation id now p =>
      with_investigations (map (edit_investigation id now p)) d
  | DeleteInvestigation confirmed id =>
      if confirmed
      then with_evidence
             (filter (fun e => negb (String.eqb (ev_investigationId e) id)))
             (with_investigations (filter (fun i => negb (String.eqb (inv_id i) id))) d)
      else d
  | CreateEvidence invId newid now p =>
      with_evidence (cons (new_evidence invId newid now p)) d
  | UpdateEvidence id now p => with_evidence (map (edit_evidence id now p)) d
  | DeleteEvidence confirmed id =>
      if confirmed
      then with_evidence (filter (fun e => negb (String.eqb (ev_id e) id))) d
      else d
  | AddEntry evidenceId newid now p =>
      with_evidence (map (extend_evidence evidenceId (new_entry newid now p) now)) d
  | ImportJSON _ => d
  end.

Definition apply_events (es : list event) (d : Database) : Database :=
  fold_left (fun d e => apply_event e d) es d.

Definition empty_database : Database :=
  {| db_investigations := []; db_evidence := []; db_version := 1 |}.

(** Identifiers are fresh: the one an event generates is none of [used],
    the identifiers seen so far. *)
Fixpoint fresh_ids (used : list string) (es : list event) : Prop :=
  match es with
  | [] => True
  | e :: es' =>
      match e with
      | CreateInvestigation newid _ _ | CreateEvidence _ newid _ _
      | AddEntry _ newid _ _ => (newid ∉ used) ∧ fresh_ids (newid :: used) es'
      | _ => fresh_ids used es'
      end
  end.

(** The identifiers of the records of a database. *)
Definition ids_of (d : Database) : list string :=
  map inv_id (db_investigations d) ++ map ev_id (db_evidence d)
  ++ flat_map (fun e => map en_id (ev_entries e)) (db_evidence d).

Definition unique_ids (d : Database) : Prop :=
  NoDup (map inv_id (db_investigations d)) ∧ NoDup (map ev_id (db_evidence d)) ∧
  Forall (fun e => NoDup (map en_id (ev_entries e))) (db_evidence d).

(** Every evidence record refers to an investigation of the database. *)
Definition resolves (d : Database) (invId : string) : Prop :=
  ∃ i, In i (db_investigations d) ∧ inv_id i = invId.

Definition no_orphans (d : Database) : Prop :=
  Forall (fun e => resolves d (ev_investigationId e)) (db_evidence d).

(** Evidence is created for an investigation that is there, as the
    interface does: the button is rendered for the selected investigation
    only. *)
Fixpoint parents_known (d : Database) (es : list event) : Prop :=
  match es with
  | [] => True
  | e :: es' =>
      match e with
      | CreateEvidence invId _ _ _ => resolves d invId
      | _ => True
      end ∧ parents_known (apply_event e d) es'
  end.

(** The text of one property of an object in [ser_compact]. *)
Definition member_compact (p : string * value) : list ascii :=
  (quote_string p.1 ++ ":"%char :: ser_compact p.2)%list.

(** What the induction gives for one value printed without white space. *)
Definition parses_back_compact (x : value) : Prop :=
  ∀ n rest, (size x <= n)%nat → token_end rest = true →
    parse_value n ((ser_compact x ++ rest)%list) = Ok (x, rest).

(** What the text saved for a value denotes: the value with [null] in the
    place of every infinite number. *)
Fixpoint as_saved (v : value) : value :=
  match v with
  | VInf _ => VNull
  | VArr l => VArr (map as_saved l)
  | VObj o => VObj (as_saved <$> o)
  | _ => v
  end.

(** The selection points into the database: [selected] is [null] or the
    id of an investigation that is there, [activeEvidence] is [null] or the
    id, not empty, of an evidence record that is there. *)
Definition selection_ok (d : Database) (s : Selection) : Prop :=
  (selected s = VNull ∨ ∃ i, In i (db_investigations d) ∧ selected s = VStr (inv_id i)) ∧
  (activeEvidence s = VNull ∨
   ∃ e, In e (db_evidence d) ∧ activeEvidence s = VStr (ev_id e) ∧ ev_id e ≠ EmptyString).

(** Where a field of a CSV line ends: at the end of the text, at a comma
    or at a line feed; and where a line ends. *)
Definition field_end (t : string) : Prop :=
  match t with
  | EmptyString => True
  | String c _ => c = ","%char ∨ c = newline
  end.

Definition line_end (t : string) : Prop :=
  match t with
  | EmptyString => True
  | String c _ => c = newline
  end.

(** ** The forms on records *)

(** Does the code unit [c] occur in [s]? *)
Fixpoint occurs (c : ascii) (s : string) : bool :=
  match s with
  | EmptyString => false
  | String x s' => Ascii.eqb x c || occurs c s'
  end.

(** A tag as the forms produce it: not empty, without a comma, without
    white space at either end. *)
Definition clean_tag (t : string) : Prop :=
  t ≠ EmptyString ∧ trim t = t ∧ occurs ","%char t = false.

(** The fields of a record that its form edits. *)
Definition investigation_fields (i : Investigation) : InvestigationPayload :=
  {| ip_title := inv_title i; ip_caseNumber := inv_caseNumber i;
     ip_description := inv_description i; ip_status := inv_status i;
     ip_tags := inv_tags i |}.

Definition evidence_fields (e : Evidence) : EvidencePayload :=
  {| ep_title := ev_title e; ep_type := ev_type e; ep_summary := ev_summary e;
     ep_tags := ev_tags e |}.

(** A payload as [InvestigationForm] produces it, and one of
    [EvidenceForm]. *)
Definition clean_investigation_fields (p : InvestigationPayload) : Prop :=
  trim (ip_title p) = ip_title p ∧ trim (ip_caseNumber p) = ip_caseNumber p ∧
  trim (ip_description p) = ip_description p ∧ ip_status p ≠ EmptyString ∧
  Forall clean_tag (ip_tags p).

Definition clean_evidence_fields (p : EvidencePayload) : Prop :=
  trim (ep_title p) = ep_title p ∧ trim (ep_summary p) = ep_summary p ∧
  ep_type p ≠ EmptyString ∧ Forall clean_tag (ep_tags p).

(** What [InvestigationForm] hands over when its cells hold these texts,
    and so for [EvidenceForm]. *)
Definition investigation_form_payload (title caseNumber description status tags : string)
  : InvestigationPayload :=
  {| ip_title := trim title; ip_caseNumber := trim caseNumber;
     ip_description := trim description; ip_status := status;
     ip_tags := clean_tags tags |}.

Definition evidence_form_payload (title type summary tags : string) : EvidencePayload :=
  {| ep_title := trim title; ep_type := type; ep_summary := trim summary;
     ep_tags := clean_tags tags |}.

(** An attachment row as [EntryForm] hands it over: both texts trimmed,
    the address standing in for an empty label. *)
Definition submitted_attachment (a : Attachment) : Attachment :=
  {| att_label := if String.eqb (trim (att_label a)) EmptyString
                  then trim (att_url a) else trim (att_label a);
     att_url := trim (att_url a) |}.

Definition entry_form_payload (author body : string) (rows : list Attachment)
  : EntryPayload :=
  {| np_author := if String.eqb (trim author) EmptyString then "Unknown" else trim author;
     np_body := trim body;
     np_attachments :=
       filter (fun a => att_url a ≠ EmptyString) (map submitted_attachment rows) |}.

(** The entries of every thread are in order of time, newest first, and
    none is later than [t]. *)
Definition thread_ordered (t : Z) (e : Evidence) : Prop :=
  StronglySorted (fun a b => (en_timestamp b <= en_timestamp a)%Z) (ev_entries e) ∧
  Forall (fun n => (en_timestamp n <= t)%Z) (ev_entries e).

Definition threads_ordered (t : Z) (d : Database) : Prop :=
  Forall (thread_ordered t) (db_evidence d).

(** ** Worked examples, continued *)

(** A selection on the example database, a database with an entry whose
    time stamp is not a valid time value, and form inputs. *)
Definition demo_selection : Selection :=
  {| selected := VStr "A"; activeEvidence := VStr "E1" |}.

Definition entry_late : Entry :=
  {| en_id := "L"; en_author := "K9"; en_body := "late"; en_timestamp := 8640000000000001;
     en_attachments := [] |}.

Definition late_db : Database :=
  {| db_investigations := [];
     db_evidence :=
       [ {| ev_id := "E4"; ev_investigationId := "A"; ev_title := "Clock";
            ev_type := "Digital"; ev_summary := EmptyString; ev_createdAt := 2;
            ev_updatedAt := 7; ev_tags := []; ev_entries := [entry_X; entry_late] |} ];
     db_version := 1 |}.

Definition form_rows : list Attachment :=
  [ {| att_label := " photo "; att_url := " http://x/1" |};
    {| att_label := EmptyString; att_url := "http://x/2 " |};
    {| att_label := "lost"; att_url := "  " |} ].
(** * Properties *)

(** ** The error monad *)

Lemma mapM_ok {A B} (f : A → res B) (g : A → B) (l : list A) :
  Forall (fun x => f x = Ok (g x)) l → mapM f l = Ok (map g l).
Proof.
  induction 1 as [|x l Hx _ IH]; [done|].
  cbn. rewrite Hx. cbn. rewrite IH. done.
Qed.

Lemma filterM_ok {A} (p : A → res bool) (q : A → bool) (l : list A) :
  Forall (fun x => p x = Ok (q x)) l → filterM p l = Ok (filter q l).
Proof.
  induction 1 as [|x l Hx _ IH]; [done|].
  rewrite filter_cons. cbn. rewrite Hx. cbn. rewrite IH. cbn.
  destruct (q x); done.
Qed.

Lemma is_str_spec (s : string) (v : value) : is_str s v = true ↔ v = VStr s.
Proof.
  destruct v; cbn; try (split; [discriminate | congruence]).
  rewrite String.eqb_eq. split; congruence.
Qed.

(** ** Shapes *)

Lemma nonnullish_get (k : string) (v : value) :
  nonnullish v → k ≠ "entries" → ∃ x, get k v = Ok x.
Proof.
  intros Hv Hk. destruct v; cbn in *; try done; eauto.
  destruct (String.eqb_spec k "entries"); [done|eauto].
Qed.

(** ** C1: deleting an investigation *)

(** C1.  On a database whose records are readable, a confirmed
    [deleteInvestigation(id)] makes exactly one [setDb] call, and that one
    update yields the database in which [investigations] keeps, in order
    and unchanged, the records whose [id] is not [id], [evidence] keeps, in
    order and unchanged, the records whose [investigationId] is not [id],
    and every other property of the database is as before. *)
Theorem deleteInvestigation_cascade
    (o : gmap string value) (invs evs : list value) (id : string) :
  o !! "investigations" = Some (VArr invs) →
  o !! "evidence" = Some (VArr evs) →
  Forall nonnullish invs → Forall nonnullish evs →
  let invs' := filter (fun i => negb (has_id id i)) invs in
  let evs' := filter (fun e => negb (owned_by id e)) evs in
  length (deleteInvestigation true id) = 1%nat ∧
  run (deleteInvestigation true id) (VObj o)
    = Ok (VObj (<["evidence" := VArr evs']> (<["investigations" := VArr invs']> o))) ∧
  (∀ i, i ∈ invs' ↔ i ∈ invs ∧ has_id id i = false) ∧
  (∀ e, e ∈ evs' ↔ e ∈ evs ∧ owned_by id e = false) ∧
  (∀ k, k ≠ "investigations" → k ≠ "evidence" →
        (<["evidence" := VArr evs']> (<["investigations" := VArr invs']> o)) !! k = o !! k).
Proof.
  intros Hi He Fi Fe invs' evs'.
  split; [reflexivity|]. split; [|split; [|split]].
  - cbn. rewrite Hi, He. cbn.
    rewrite (filterM_ok _ (fun i => negb (has_id id i)) invs).
    2:{ eapply Forall_impl; [exact Fi|]. intros i Hn. unfold has_id.
        destruct (nonnullish_get "id" i Hn) as [x ->]; done. }
    cbn. rewrite (filterM_ok _ (fun e => negb (owned_by id e)) evs).
    2:{ eapply Forall_impl; [exact Fe|]. intros e Hn. unfold owned_by.
        destruct (nonnullish_get "investigationId" e Hn) as [x ->]; done. }
    done.
  - intros i. unfold invs'. rewrite list_elem_of_filter.
    destruct (has_id id i); cbn; intuition congruence.
  - intros e. unfold evs'. rewrite list_elem_of_filter.
    destruct (owned_by id e); cbn; intuition congruence.
  - intros k H1 H2. rewrite !lookup_insert_ne by done. done.
Qed.

(** ** C3: updating a record *)

Lemma has_id_obj (id : string) (v : value) :
  has_id id v = true → ∃ o, v = VObj o ∧ o !! "id" = Some (VStr id).
Proof.
  unfold has_id. destruct v; cbn; try discriminate.
  intros H. apply is_str_spec in H. exists o. split; [done|].
  destruct (o !! "id"); cbn in H; congruence.
Qed.

Lemma merge_callback_ok (id : string) (data : gmap string value) (now : Z) (l : list value) :
  Forall nonnullish l →
  mapM (fun i => iid ← get "id" i;
                 if is_str id iid
                 then io ← spread_obj i;
                      Ok (VObj (<["updatedAt" := VNum now]> (data ∪ io)))
                 else Ok i) l
  = Ok (map (merged id data now) l).
Proof.
  intros Hl. apply mapM_ok. eapply Forall_impl; [exact Hl|].
  intros r Hr. unfold merged.
  destruct (has_id id r) eqn:E.
  - destruct (has_id_obj _ _ E) as (ro & -> & Hid). cbn. rewrite Hid. cbn.
    rewrite String.eqb_refl. done.
  - unfold has_id in E. destruct (nonnullish_get "id" r Hr) as [x Hx]; [done|].
    rewrite Hx in *. cbn. rewrite E. done.
Qed.

Lemma merged_other (id : string) (data : gmap string value) (now : Z) (l : list value) :
  (∀ r, r ∈ l → has_id id r = false) → map (merged id data now) l = l.
Proof.
  intros H. induction l as [|r l IH]; [done|]. cbn. rewrite IH.
  - unfold merged. rewrite (H r) by (left). done.
  - intros r' Hr'. apply H. by right.
Qed.

Lemma merged_spec (coll : string) (o : gmap string value) (l : list value)
    (id : string) (data : gmap string value) (now : Z) :
  o !! coll = Some (VArr l) →
  let l' := map (merged id data now) l in
  length l' = length l ∧
  (∀ n r, l !! n = Some r → has_id id r = false → l' !! n = Some r) ∧
  (∀ n r, l !! n = Some r → has_id id r = true →
     ∃ ro ro', r = VObj ro ∧ l' !! n = Some (VObj ro') ∧
       ro' !! "updatedAt" = Some (VNum now) ∧
       (∀ k v, k ≠ "updatedAt" → data !! k = Some v → ro' !! k = Some v) ∧
       (∀ k, k ≠ "updatedAt" → data !! k = None → ro' !! k = ro !! k) ∧
       (data !! "id" = None → ro' !! "id" = ro !! "id") ∧
       (data !! "createdAt" = None → ro' !! "createdAt" = ro !! "createdAt")) ∧
  ((∀ r, r ∈ l → has_id id r = false) → VObj (<[coll := VArr l']> o) = VObj o).
Proof.
  intros Ho l'. split; [apply length_map|]. split; [|split].
  - intros n r Hn E. unfold l'. rewrite list_lookup_fmap, Hn. cbn.
    unfold merged. rewrite E. done.
  - intros n r Hn E. destruct (has_id_obj _ _ E) as (ro & -> & Hid).
    exists ro, (<["updatedAt" := VNum now]> (data ∪ ro)). split; [done|].
    split. { unfold l'. rewrite list_lookup_fmap, Hn. cbn. unfold merged. rewrite E. done. }
    split; [apply lookup_insert_eq|].
    assert (Hnone : ∀ k, k ≠ "updatedAt" → data !! k = None →
              <["updatedAt" := VNum now]> (data ∪ ro) !! k = ro !! k).
    { intros k Hk Hd. rewrite lookup_insert_ne by done.
      rewrite lookup_union_r by done. done. }
    split; [|split; [exact Hnone|split; intros; apply Hnone; done]].
    intros k v Hk Hd. rewrite lookup_insert_ne by done.
    apply lookup_union_Some_l. done.
  - intros H. unfold l'. rewrite merged_other by done. rewrite insert_id; done.
Qed.

Lemma updateInvestigation_run (o : gmap string value) (l : list value)
    (id : string) (data : gmap string value) (now : Z) :
  o !! "investigations" = Some (VArr l) → Forall nonnullish l →
  run (updateInvestigation id data now) (VObj o)
  = Ok (VObj (<["investigations" := VArr (map (merged id data now) l)]> o)).
Proof.
  intros Ho Hl. cbn. rewrite Ho. cbn. rewrite merge_callback_ok by done. done.
Qed.

Lemma updateEvidence_run (o : gmap string value) (l : list value)
    (id : string) (data : gmap string value) (now : Z) :
  o !! "evidence" = Some (VArr l) → Forall nonnullish l →
  run (updateEvidence id data now) (VObj o)
  = Ok (VObj (<["evidence" := VArr (map (merged id data now) l)]> o)).
Proof.
  intros Ho Hl. cbn. rewrite Ho. cbn. rewrite merge_callback_ok by done. done.
Qed.

(** C3.  For every database, every id and every [fields] object without a
    property [id] or [createdAt] (the payloads that the investigation form
    and the evidence form submit have neither), [updateInvestigation(id,
    fields)] replaces every investigation whose id matches by its merge with
    [fields]: a property of [fields] takes the value given there, every
    other property keeps its value, [updatedAt] is the current time, and
    [id] and [createdAt] are unchanged.  Records with another id, and the
    rest of the database, are unchanged; when no record has the id the
    database is unchanged.  [updateEvidence] does the same on [evidence]. *)
Theorem update_merges_fields :
  update_spec updateInvestigation "investigations" ∧
  update_spec updateEvidence "evidence" ∧
  (∀ p, investigation_payload p !! "id" = None ∧
        investigation_payload p !! "createdAt" = None) ∧
  (∀ p, evidence_payload p !! "id" = None ∧ evidence_payload p !! "createdAt" = None).
Proof.
  split; [|split; [|split; intros p; split; reflexivity]];
    intros o l id data now Ho Hl Hid Hcr;
    exists (map (merged id data now) l);
    destruct (merged_spec _ o l id data now Ho) as (H1 & H2 & H3 & H4).
  - rewrite (updateInvestigation_run o l) by done.
    split; [done|]. split; [done|]. split; [done|]. split.
    + intros n r Hn E. destruct (H3 n r Hn E) as (ro & ro' & ? & ? & ? & ? & ? & Hi & Hc).
      exists ro, ro'. repeat split; auto.
    + intros H. f_equal. apply H4, H.
  - rewrite (updateEvidence_run o l) by done.
    split; [done|]. split; [done|]. split; [done|]. split.
    + intros n r Hn E. destruct (H3 n r Hn E) as (ro & ro' & ? & ? & ? & ? & ? & Hi & Hc).
      exists ro, ro'. repeat split; auto.
    + intros H. f_equal. apply H4, H.
Qed.

(** ** C4: adding an entry *)

Lemma run_app (us1 us2 : list updater) (db : value) :
  run (us1 ++ us2) db = run us1 db ≫= run us2.
Proof.
  revert db. induction us1 as [|u us1 IH]; intros db; [done|].
  cbn. destruct (u db); cbn; [apply IH|done].
Qed.

Lemma addEntry_run (o : gmap string value) (evs : list value)
    (id newid : string) (now : Z) (data : gmap string value) :
  o !! "evidence" = Some (VArr evs) → entries_ready id evs →
  run (addEntry id newid now data) (VObj o)
  = Ok (VObj (<["evidence" :=
        VArr (map (with_entry id
                (VObj (data ∪ {[ "id" := VStr newid; "timestamp" := VNum now ]})) now) evs)]> o)).
Proof.
  intros Ho Hl. cbn. rewrite Ho. cbn.
  erewrite mapM_ok; [reflexivity|].
  eapply Forall_impl; [exact Hl|]. intros e [Hn He]. unfold with_entry.
  destruct (has_id id e) eqn:E.
  - destruct (has_id_obj _ _ E) as (eo & -> & Hid).
    destruct (He eq_refl) as [old Hold]. rewrite Hold.
    unfold entries_of in Hold. cbn in Hold |- *. rewrite Hid. cbn.
    rewrite String.eqb_refl. rewrite Hold. done.
  - unfold has_id in E. destruct (nonnullish_get "id" e Hn) as [x Hx]; [done|].
    rewrite Hx in *. cbn. rewrite E. done.
Qed.

Lemma with_entry_other (id : string) (entry : value) (now : Z) (l : list value) :
  (∀ r, r ∈ l → has_id id r = false) → map (with_entry id entry now) l = l.
Proof.
  intros H. induction l as [|r l IH]; [done|]. cbn. rewrite IH.
  - unfold with_entry. rewrite (H r) by (left). done.
  - intros r' Hr'. apply H. by right.
Qed.

Lemma with_entry_ready (id : string) (entry : value) (now : Z) (evs : list value) :
  entries_ready id evs → entries_ready id (map (with_entry id entry now) evs).
Proof.
  unfold entries_ready. rewrite Forall_fmap. intros H.
  eapply Forall_impl; [exact H|]. clear H.
  intros e [Hn He]. cbn. unfold with_entry. destruct (has_id id e) eqn:E; [|by rewrite E].
  destruct (has_id_obj _ _ E) as (eo & -> & Hid).
  destruct (He eq_refl) as [old ->]. split; [done|]. intros _.
  exists (entry :: old). unfold entries_of. cbn.
  rewrite lookup_insert_ne by done. rewrite lookup_insert_eq. done.
Qed.

(** C4.  For every database, every evidence id and every [fields] object
    without a property [id] or [timestamp] (the payload that the entry form
    submits has [author], [body] and [attachments] only), [addEntry(
    evidenceId, fields)] builds an entry that has the properties of
    [fields], the identifier just generated as [id] and the current time as
    [timestamp]; every evidence record with that id gets the entry put in
    front of its [entries] and its [updatedAt] set to the current time,
    every other record and the rest of the database stay as they were;
    when no record has the id the database is unchanged.  Adding X and
    then Y to one record leaves its [entries] starting with Y, X. *)
Theorem addEntry_prepends :
  (∀ p, entry_payload p !! "id" = None ∧ entry_payload p !! "timestamp" = None) ∧
  ∀ (o : gmap string value) (evs : list value) (evidenceId newid : string)
    (now : Z) (data : gmap string value),
  o !! "evidence" = Some (VArr evs) → entries_ready evidenceId evs →
  data !! "id" = None → data !! "timestamp" = None →
  ∃ entry evs',
    run (addEntry evidenceId newid now data) (VObj o)
      = Ok (VObj (<["evidence" := VArr evs']> o)) ∧
    get "id" entry = Ok (VStr newid) ∧
    get "timestamp" entry = Ok (VNum now) ∧
    (∀ k v, data !! k = Some v → get k entry = Ok v) ∧
    (∀ k, k ≠ "id" → k ≠ "timestamp" → get k entry = get k (VObj data)) ∧
    length evs' = length evs ∧
    (∀ n e, evs !! n = Some e → has_id evidenceId e = false → evs' !! n = Some e) ∧
    (∀ n e, evs !! n = Some e → has_id evidenceId e = true →
       ∃ eo eo' old, e = VObj eo ∧ entries_of e = Ok old ∧ evs' !! n = Some (VObj eo') ∧
         eo' !! "entries" = Some (VArr (entry :: old)) ∧
         eo' !! "updatedAt" = Some (VNum now) ∧
         (∀ k, k ≠ "entries" → k ≠ "updatedAt" → eo' !! k = eo !! k) ∧
         ∀ newid2 now2 data2, ∃ evs2 eo2,
           run (addEntry evidenceId newid now data ++ addEntry evidenceId newid2 now2 data2)
               (VObj o) = Ok (VObj (<["evidence" := VArr evs2]> o)) ∧
           evs2 !! n = Some (VObj eo2) ∧
           eo2 !! "entries"
             = Some (VArr (VObj (data2 ∪ {[ "id" := VStr newid2; "timestamp" := VNum now2 ]})
                           :: entry :: old))) ∧
    ((∀ e, e ∈ evs → has_id evidenceId e = false) →
       run (addEntry evidenceId newid now data) (VObj o) = Ok (VObj o)).
Proof.
  split; [intros p; split; reflexivity|].
  intros o evs evidenceId newid now data Ho Hl Hid Hts.
  set (entry := VObj (data ∪ {[ "id" := VStr newid; "timestamp" := VNum now ]})).
  exists entry, (map (with_entry evidenceId entry now) evs).
  split; [by apply addEntry_run|].
  split. { cbn. rewrite lookup_union_r by done. done. }
  split. { cbn. rewrite lookup_union_r by done. done. }
  split. { intros k v Hk. cbn. erewrite lookup_union_Some_l by done. done. }
  split. { intros k H1 H2. cbn. destruct (data !! k) eqn:E.
           - erewrite lookup_union_Some_l by done. done.
           - rewrite lookup_union_r by done.
             rewrite lookup_insert_ne, lookup_singleton_ne by done. done. }
  split; [apply length_map|]. split; [|split].
  - intros n e Hn E. rewrite list_lookup_fmap, Hn. cbn. unfold with_entry. by rewrite E.
  - intros n e Hn E. destruct (has_id_obj _ _ E) as (eo & -> & Hi).
    assert (He : ∃ old, entries_of (VObj eo) = Ok old).
    { unfold entries_ready in Hl. rewrite Forall_forall in Hl.
      apply (Hl (VObj eo)); [|done]. eapply list_elem_of_lookup_2, Hn. }
    destruct He as [old Hold].
    exists eo, (<["updatedAt" := VNum now]> (<["entries" := VArr (entry :: old)]> eo)), old.
    split; [done|]. split; [done|].
    assert (Hw : with_entry evidenceId entry now (VObj eo)
                 = VObj (<["updatedAt" := VNum now]> (<["entries" := VArr (entry :: old)]> eo))).
    { unfold with_entry. rewrite E, Hold. done. }
    split. { rewrite list_lookup_fmap, Hn. cbn. by rewrite Hw. }
    split. { rewrite lookup_insert_ne by done. apply lookup_insert_eq. }
    split; [apply lookup_insert_eq|].
    split. { intros k H1 H2. rewrite !lookup_insert_ne by done. done. }
    intros newid2 now2 data2.
    set (entry2 := VObj (data2 ∪ {[ "id" := VStr newid2; "timestamp" := VNum now2 ]})).
    set (evs1 := map (with_entry evidenceId entry now) evs).
    exists (map (with_entry evidenceId entry2 now2) evs1).
    exists (<["updatedAt" := VNum now2]>
              (<["entries" := VArr (entry2 :: entry :: old)]>
                 (<["updatedAt" := VNum now]> (<["entries" := VArr (entry :: old)]> eo)))).
    split.
    { rewrite run_app. rewrite (addEntry_run o evs) by done. cbn [mbind res_bind].
      fold entry evs1.
      rewrite (addEntry_run _ evs1); [|apply lookup_insert_eq|by apply with_entry_ready].
      rewrite insert_insert_eq. done. }
    split.
    { unfold evs1. rewrite !list_lookup_fmap, Hn. cbn. rewrite Hw. f_equal.
      unfold with_entry, has_id, entries_of. cbn.
      rewrite !lookup_insert_ne by done. rewrite Hi. cbn. rewrite String.eqb_refl.
      rewrite lookup_insert_eq. done. }
    rewrite lookup_insert_ne by done. apply lookup_insert_eq.
  - intros H. rewrite (addEntry_run o evs) by done. rewrite with_entry_other by done.
    rewrite insert_id; done.
Qed.

(** ** C2: import validation *)

Lemma valid_import_checked (content : string) (v : value) :
  JSON_parse content = Ok v → valid_import v → import_checked content = Ok v.
Proof.
  intros Hp (o & invs & evs & -> & Hi & He).
  unfold import_checked. rewrite Hp. cbn. rewrite Hi, He. done.
Qed.

Lemma invalid_import_checked (content : string) (v : value) :
  JSON_parse content = Ok v → ¬ valid_import v →
  import_checked content = Throw (Error "Invalid file")
  ∨ import_checked content = Throw (Error "Missing keys").
Proof.
  intros Hp Hn. unfold import_checked. rewrite Hp. cbn.
  destruct v as [| |b|z|s|l|o|i]; cbn; auto.
  - destruct b; cbn; auto.
  - destruct (negb (z =? 0)%Z); cbn; auto.
  - destruct (negb (String.eqb s EmptyString)); cbn; auto.
  - destruct (o !! "investigations") as [[]|] eqn:Hi; cbn; auto.
    destruct (o !! "evidence") as [[]|] eqn:He; cbn; auto.
    destruct Hn. by eexists _, _, _.
Qed.

(** C2.  Let [content] parse to the value [v].  If [v] is not an object
    whose [investigations] and [evidence] are arrays, the import throws a
    validation error ([Invalid file] or [Missing keys]), [setDb] is not
    called and the store is what it was.  Otherwise the store becomes [v]
    itself, whatever it held before.  The document of the specification,
    with a string for [investigations], is rejected with [Missing keys]. *)
Theorem importJSON_validates (content : string) (v : value) :
  JSON_parse content = Ok v →
  (¬ valid_import v →
     (import_checked content = Throw (Error "Invalid file")
      ∨ import_checked content = Throw (Error "Missing keys"))
     ∧ importJSON content = Ok []
     ∧ ∀ db, after_import content db = Ok db) ∧
  (valid_import v →
     (∃ u, importJSON content = Ok [u]) ∧ ∀ db, after_import content db = Ok v) ∧
  import_checked not_an_array_doc = Throw (Error "Missing keys") ∧
  (∀ db, after_import not_an_array_doc db = Ok db).
Proof.
  intros Hp. split; [|split; [|split]].
  - intros Hn. pose proof (invalid_import_checked _ _ Hp Hn) as Hc.
    split; [done|]. unfold after_import, importJSON.
    destruct Hc as [-> | ->]; done.
  - intros Hv. pose proof (valid_import_checked _ _ Hp Hv) as Hc.
    unfold after_import, importJSON. rewrite Hc. split; [eauto|done].
  - vm_compute. reflexivity.
  - intros db. unfold after_import, importJSON.
    replace (import_checked not_an_array_doc) with (@Throw value (Error "Missing keys"))
      by (vm_compute; reflexivity).
    done.
Qed.

(** ** C10: loading the store *)

Lemma JSON_parse_empty : JSON_parse EmptyString = Throw SyntaxError.
Proof. reflexivity. Qed.

(** C10.  [loadDB] returns whatever the text of the storage slot parses
    to, without looking at its shape: the texts [null] and [42] give the
    values [null] and [42].  It returns the fresh empty database when the
    slot is absent and when parsing throws. *)
Theorem loadDB_no_validation :
  (∀ raw v, JSON_parse raw = Ok v → loadDB (Some raw) = Ok v) ∧
  loadDB None = Ok emptyDB ∧
  (∀ raw e, JSON_parse raw = Throw e → e ≠ OutOfModel → loadDB (Some raw) = Ok emptyDB) ∧
  loadDB (Some "null") = Ok VNull ∧
  loadDB (Some "42") = Ok (VNum 42) ∧
  emptyDB = VObj {[ "version" := VNum 1; "investigations" := VArr [];
                    "evidence" := VArr [] ]}.
Proof.
  split; [|split; [|split; [|split; [|split]]]].
  - intros raw v Hp. unfold loadDB.
    destruct (String.eqb_spec raw EmptyString) as [->|_].
    + rewrite JSON_parse_empty in Hp. discriminate.
    + by rewrite Hp.
  - reflexivity.
  - intros raw e Hp He. unfold loadDB.
    destruct (String.eqb raw EmptyString); [done|]. rewrite Hp. by destruct e.
  - vm_compute. reflexivity.
  - vm_compute. reflexivity.
  - vm_compute. reflexivity.
Qed.

(** ** C7: CSV escaping *)

Lemma doubleQuotes_plain (s : string) : needsQuotes s = false → doubleQuotes s = s.
Proof.
  induction s as [|c s IH]; [done|]. cbn.
  destruct (Ascii.eqb c dquote); [discriminate|].
  intros H. apply orb_false_iff in H as [_ H]. by rewrite IH.
Qed.

Lemma needsQuotes_spec (s : string) :
  needsQuotes s = true ↔
  ∃ c, In c (list_ascii_of_string s) ∧ (c = dquote ∨ c = ","%char ∨ c = newline).
Proof.
  induction s as [|c s IH]; cbn.
  - split; [discriminate|]. intros (c & [] & _).
  - rewrite !orb_true_iff, IH, !Ascii.eqb_eq. split.
    + intros [[[H|H]|H]|(c' & H1 & H2)]; eauto 6.
    + intros (c' & [<-|H1] & H2); [tauto|eauto].
Qed.

Lemma doubleQuotes_spec (s : string) :
  list_ascii_of_string (doubleQuotes s)
  = flat_map (fun c => if Ascii.eqb c dquote then [dquote; dquote] else [c])
             (list_ascii_of_string s).
Proof.
  induction s as [|c s IH]; [done|]. cbn.
  destruct (Ascii.eqb c dquote); cbn; by rewrite IH.
Qed.

(** C7.  For a string [s], [csvSafe] gives [s] between double quotes, with
    every double quote of [s] written twice, exactly when [s] holds a
    comma, a double quote or a line feed; otherwise it gives [s] itself.
    So [hello, world] comes out quoted and [plain] comes out as it is. *)
Theorem csvSafe_escapes (s : string) :
  (needsQuotes s = true ↔
     ∃ c, In c (list_ascii_of_string s) ∧ (c = dquote ∨ c = ","%char ∨ c = newline)) ∧
  list_ascii_of_string (doubleQuotes s)
    = flat_map (fun c => if Ascii.eqb c dquote then [dquote; dquote] else [c])
               (list_ascii_of_string s) ∧
  csvSafe (VStr s) = Ok (if needsQuotes s then quoted (doubleQuotes s) else s) ∧
  csvSafe (VStr "hello, world") = Ok (quoted "hello, world") ∧
  csvSafe (VStr "plain") = Ok "plain".
Proof.
  split; [apply needsQuotes_spec|]. split; [apply doubleQuotes_spec|].
  split; [|split; reflexivity].
  cbn. destruct (needsQuotes s) eqn:E; [done|]. by rewrite doubleQuotes_plain.
Qed.

(** ** C6: the filtered investigation list *)

Lemma filterM_map {A} (enc : A → value) (p : value → res bool) (q : A → bool)
    (l : list A) :
  (∀ x, x ∈ l → p (enc x) = Ok (q x)) →
  filterM p (map enc l) = Ok (map enc (filter q l)).
Proof.
  induction l as [|x l IH]; intros H; [done|].
  rewrite filter_cons. cbn [map filterM]. rewrite H by left.
  cbn [mbind res_bind]. rewrite IH by (intros; apply H; by right).
  cbn [mbind res_bind]. by destruct (q x).
Qed.

Lemma insert_desc_perm {A} (key : A → Z) (x : A) (l : list A) :
  insert_desc key x l ≡ₚ x :: l.
Proof.
  induction l as [|y l IH]; [done|]. cbn.
  destruct (key y - key x <=? 0)%Z; [done|]. rewrite IH. apply Permutation_swap.
Qed.

Lemma sort_desc_perm {A} (key : A → Z) (l : list A) : sort_desc key l ≡ₚ l.
Proof.
  induction l as [|x l IH]; [done|]. cbn. by rewrite insert_desc_perm, IH.
Qed.

Lemma insert_desc_sorted {A} (key : A → Z) (x : A) (l : list A) :
  StronglySorted (fun a b => (key b <= key a)%Z) l →
  StronglySorted (fun a b => (key b <= key a)%Z) (insert_desc key x l).
Proof.
  induction 1 as [|y l Hl IH Hy]; cbn.
  - repeat constructor.
  - destruct (Z.leb_spec (key y - key x) 0).
    + constructor; [by constructor|]. constructor; [lia|].
      eapply Forall_impl; [exact Hy|]. cbn. intros; lia.
    + constructor; [done|]. rewrite insert_desc_perm. constructor; [lia|done].
Qed.

Lemma sort_desc_sorted {A} (key : A → Z) (l : list A) :
  StronglySorted (fun a b => (key b <= key a)%Z) (sort_desc key l).
Proof.
  induction l as [|x l IH]; cbn; [constructor|by apply insert_desc_sorted].
Qed.

Lemma insertM_map {A} (enc : A → value) (cmp : value → value → res Z)
    (key : A → Z) (x : A) (l : list A) :
  (∀ y, y ∈ l → cmp (enc x) (enc y) = Ok (key y - key x)%Z) →
  insertM cmp (enc x) (map enc l) = Ok (map enc (insert_desc key x l)).
Proof.
  induction l as [|y l IH]; intros H; [done|].
  cbn. rewrite H by left. cbn.
  destruct (key y - key x <=? 0)%Z; [done|].
  rewrite IH by (intros; apply H; by right). done.
Qed.

Lemma sortM_map {A} (enc : A → value) (cmp : value → value → res Z)
    (key : A → Z) (l : list A) :
  (∀ x y, x ∈ l → y ∈ l → cmp (enc x) (enc y) = Ok (key y - key x)%Z) →
  sortM cmp (map enc l) = Ok (map enc (sort_desc key l)).
Proof.
  induction l as [|x l IH]; intros H; [done|].
  cbn. rewrite IH by (intros; apply H; by right). cbn.
  apply insertM_map. intros y Hy. apply H; [left|right].
  by rewrite <- (sort_desc_perm key l).
Qed.

Lemma startsWith_spec (q s : string) : startsWith q s = true ↔ ∃ b, s = q ++ b.
Proof.
  revert s. induction q as [|c q IH]; intros s; cbn.
  - split; eauto.
  - destruct s as [|c' s]; [split; [done|intros [b [=]]]|].
    rewrite andb_true_iff, Ascii.eqb_eq, IH. split.
    + intros [-> [b ->]]. eauto.
    + intros [b [= -> ->]]. eauto.
Qed.

Lemma includes_spec (q s : string) : includes q s = true ↔ ∃ a b, s = a ++ q ++ b.
Proof.
  induction s as [|c s IH].
  - cbn. rewrite orb_false_r, startsWith_spec. split.
    + intros [b ->]. by exists EmptyString, b.
    + intros (a & b & H). destruct a; cbn in H; [eauto|done].
  - cbn [includes]. rewrite orb_true_iff, IH, startsWith_spec. split.
    + intros [[b ->]|(a & b & ->)]; [by exists EmptyString, b|by exists (String c a), b].
    + intros (a & b & H). destruct a as [|c' a]; cbn in H; [eauto|].
      injection H as -> ->. eauto.
Qed.

Lemma includes_empty (q : string) : q ≠ EmptyString → includes q EmptyString = false.
Proof. by destruct q. Qed.

Lemma toLowerCase_empty (s : string) : toLowerCase s = EmptyString → s = EmptyString.
Proof. by destruct s. Qed.

Lemma selectedb_spec (statusFilter query : string) (i : Investigation) :
  selectedb statusFilter query i = true ↔
  status_selected statusFilter i ∧ query_selected query i.
Proof.
  unfold selectedb, status_selected, query_selected, contains_ci.
  rewrite andb_true_iff.
  assert (Hand : ∀ P Q P' Q' : Prop, (P ↔ P') → (Q ↔ Q') → (P ∧ Q ↔ P' ∧ Q')) by tauto.
  apply Hand; clear Hand.
  - destruct (String.eqb_spec statusFilter "All") as [->|Hne].
    + tauto.
    + rewrite String.eqb_eq. tauto.
  - destruct (String.eqb_spec (toLowerCase query) EmptyString) as [Hq|Hq].
    + rewrite Hq. split; [|done]. intros _. exists (inv_title i).
      split; [by left|]. by exists EmptyString, (toLowerCase (inv_title i)).
    + rewrite existsb_exists. by setoid_rewrite includes_spec.
Qed.

(** The properties that [filteredInvestigations] reads on a record. *)
Lemma get_investigation (i : Investigation) :
  get "status" (enc_investigation i) = Ok (VStr (inv_status i)) ∧
  get "title" (enc_investigation i) = Ok (VStr (inv_title i)) ∧
  get "caseNumber" (enc_investigation i) = Ok (VStr (inv_caseNumber i)) ∧
  get "description" (enc_investigation i) = Ok (VStr (inv_description i)) ∧
  get "tags" (enc_investigation i) = Ok (VArr (map VStr (inv_tags i))) ∧
  get "createdAt" (enc_investigation i) = Ok (VNum (inv_createdAt i)) ∧
  get "id" (enc_investigation i) = Ok (VStr (inv_id i)) ∧
  get "updatedAt" (enc_investigation i)
    = Ok (match inv_updatedAt i with Some u => VNum u | None => VUndef end).
Proof. unfold enc_investigation. destruct (inv_updatedAt i); repeat split; reflexivity. Qed.

Lemma sort_key_investigation (i : Investigation) :
  sort_key (enc_investigation i) = Ok (VNum (updated_key i)).
Proof.
  unfold sort_key, updated_key.
  destruct (get_investigation i) as (_ & _ & _ & _ & _ & Hc & _ & Hu).
  rewrite Hu. cbn [mbind res_bind].
  destruct (inv_updatedAt i) as [u|]; cbn [truthy]; [|exact Hc].
  destruct (u =? 0)%Z; [exact Hc|done].
Qed.

Lemma someM_strings (q : string) (fs : list string) :
  q ≠ EmptyString →
  someM (fun f => s ← to_String f; Ok (includes q (toLowerCase s)))
        (filter (fun f => truthy f = true) (map VStr fs))
  = Ok (existsb (fun f => includes q (toLowerCase f)) fs).
Proof.
  intros Hq. induction fs as [|f fs IH]; [done|].
  cbn [map existsb]. rewrite filter_cons.
  destruct (String.eqb_spec f EmptyString) as [->|Hf].
  - change (toLowerCase EmptyString) with EmptyString. rewrite (includes_empty q Hq).
    rewrite decide_False by (cbn; discriminate). exact IH.
  - rewrite decide_True.
    2:{ cbn. by destruct (String.eqb_spec f EmptyString). }
    cbn [someM mbind res_bind to_String].
    destruct (includes q (toLowerCase f)); [done|exact IH].
Qed.

Lemma existsb_undef_records (l : list Investigation) :
  existsb is_undef (map enc_investigation l) = false.
Proof. induction l as [|i l IH]; [done|exact IH]. Qed.

Lemma filteredInvestigations_run (statusFilter query : string) (d : Database) :
  filteredInvestigations statusFilter query (enc_db d)
  = Ok (map enc_investigation
          (sort_desc updated_key
             (filter (fun i => selectedb statusFilter query i) (db_investigations d)))).
Proof.
  unfold filteredInvestigations.
  change (get "investigations" (enc_db d))
    with (@Ok value (VArr (map enc_investigation (db_investigations d)))).
  cbn [mbind res_bind method_arr].
  rewrite (filterM_map _ _
             (fun i => if String.eqb statusFilter "All" then true
                       else String.eqb (inv_status i) statusFilter)).
  2:{ intros i _. destruct (String.eqb statusFilter "All"); [done|].
      destruct (get_investigation i) as (-> & _). done. }
  cbn [mbind res_bind].
  rewrite (filterM_map _ _
             (fun i => if String.eqb (toLowerCase query) EmptyString then true
                       else existsb (fun f => includes (toLowerCase query) (toLowerCase f))
                              (inv_title i :: inv_caseNumber i :: inv_description i
                                 :: inv_tags i))).
  2:{ intros i _. destruct (String.eqb_spec (toLowerCase query) EmptyString) as [|Hq]; [done|].
      destruct (get_investigation i) as (_ & -> & -> & -> & -> & _).
      cbn [mbind res_bind js_or truthy spread_arr].
      apply (someM_strings _ (_ :: _ :: _ :: _) Hq). }
  cbn [mbind res_bind]. unfold Array_sort.
  rewrite existsb_undef_records. rewrite (sortM_map _ _ updated_key).
  2:{ intros x y _ _. unfold compare_updated. rewrite !sort_key_investigation. done. }
  rewrite list_filter_filter. do 3 f_equal. apply list_filter_iff.
  intros i. unfold selectedb. rewrite andb_True. tauto.
Qed.

(** The sort is stable: records with one key keep their order. *)
Lemma insert_desc_stable {A} (key : A → Z) (k : Z) (x : A) (l : list A) :
  filter (fun y => key y = k) (insert_desc key x l)
  = filter (fun y => key y = k) (x :: l).
Proof.
  induction l as [|y l IH]; [done|]. cbn [insert_desc].
  destruct (Z.leb_spec (key y - key x) 0) as [Hle|Hgt]; [done|].
  rewrite filter_cons, IH, !filter_cons.
  destruct (decide (key y = k)), (decide (key x = k)); try done. lia.
Qed.

Lemma sort_desc_stable {A} (key : A → Z) (k : Z) (l : list A) :
  filter (fun y => key y = k) (sort_desc key l) = filter (fun y => key y = k) l.
Proof.
  induction l as [|x l IH]; [done|]. cbn [sort_desc].
  by rewrite insert_desc_stable, !filter_cons, IH.
Qed.

Lemma updated_key_spec (i : Investigation) :
  (∀ u, inv_updatedAt i = Some u → u ≠ 0%Z → updated_key i = u) ∧
  (inv_updatedAt i = Some 0%Z → updated_key i = inv_createdAt i) ∧
  (inv_updatedAt i = None → updated_key i = inv_createdAt i).
Proof.
  unfold updated_key. split; [|split].
  - intros u -> Hu. by destruct (Z.eqb_spec u 0).
  - by intros ->.
  - by intros ->.
Qed.

(** C6 (amended).  For every database of investigation records, status
    filter and query, the filtered list consists of exactly the
    investigations whose status is the filter (all of them for the filter
    [All]) and for which the title, the case number, the description or
    some tag contains the query, letter case apart; every investigation
    matches the empty query; and the list is ordered by decreasing sort
    key, the key being [updatedAt] when it is present and not zero, and
    [createdAt] when [updatedAt] is absent or zero. *)
Theorem filteredInvestigations_selects_and_sorts
    (statusFilter query : string) (d : Database) :
  ∃ l,
    filteredInvestigations statusFilter query (enc_db d)
      = Ok (map enc_investigation l) ∧
    l ≡ₚ filter (fun i => selectedb statusFilter query i) (db_investigations d) ∧
    (∀ i, selectedb statusFilter query i = true ↔
            status_selected statusFilter i ∧ query_selected query i) ∧
    (∀ i, In i l ↔ In i (db_investigations d)
                   ∧ status_selected statusFilter i ∧ query_selected query i) ∧
    (∀ i, status_selected "All" i ∧ query_selected EmptyString i) ∧
    StronglySorted (fun a b => (updated_key b <= updated_key a)%Z) l ∧
    (∀ i u, inv_updatedAt i = Some u → u ≠ 0%Z → updated_key i = u) ∧
    (∀ i, inv_updatedAt i = Some 0%Z ∨ inv_updatedAt i = None →
          updated_key i = inv_createdAt i).
Proof.
  set (sel := filter (fun i => selectedb statusFilter query i) (db_investigations d)).
  exists (sort_desc updated_key sel).
  assert (Hin : ∀ i, In i (sort_desc updated_key sel) ↔
                  In i (db_investigations d) ∧ selectedb statusFilter query i = true).
  { intros i. rewrite <- !list_elem_of_In, (sort_desc_perm updated_key sel). unfold sel.
    rewrite list_elem_of_filter, Is_true_true. tauto. }
  split; [apply filteredInvestigations_run|].
  split; [apply sort_desc_perm|].
  split; [apply selectedb_spec|].
  split. { intros i. rewrite Hin, selectedb_spec. tauto. }
  split.
  { intros i. split; [by left|]. exists (inv_title i). split; [by left|].
    by exists EmptyString, (toLowerCase (inv_title i)). }
  split; [apply sort_desc_sorted|]. split.
  - intros i u. apply updated_key_spec.
  - intros i. destruct (updated_key_spec i) as (_ & Hz & Hn). intros [H|H]; auto.
Qed.

(** ** C8: the CSV table *)

Lemma mapM_map {A B C} (enc : A → C) (f : C → res B) (g : A → B) (l : list A) :
  Forall (fun x => f (enc x) = Ok (g x)) l → mapM f (map enc l) = Ok (map g l).
Proof.
  intros H. rewrite <- (map_map enc (fun v => v)), map_id.
  induction H as [|x l Hx _ IH]; [done|].
  cbn. rewrite Hx. cbn. by rewrite IH.
Qed.

Lemma join_values_strings (sep : string) (l : list string) :
  join_values sep (map VStr l) = Ok (String.concat sep l).
Proof.
  unfold join_values. rewrite (mapM_map VStr _ (fun s => s)).
  - cbn. by rewrite map_id.
  - by apply Forall_forall.
Qed.

Lemma js_or_string (s : string) : js_or (VStr s) (VStr EmptyString) = VStr s.
Proof.
  unfold js_or. cbn. by destruct (String.eqb_spec s EmptyString) as [->|].
Qed.

Lemma attachment_cell_text (a : Attachment) :
  attachment_cell (enc_attachment a) = Ok (VStr (attachment_text a)).
Proof.
  unfold attachment_cell, attachment_text.
  change (get "label" (enc_attachment a)) with (@Ok value (VStr (att_label a))).
  change (get "url" (enc_attachment a)) with (@Ok value (VStr (att_url a))).
  unfold js_or. cbn. by destruct (String.eqb (att_label a) EmptyString).
Qed.

Lemma findM_parent (x : string) (invs : list Investigation) :
  findM (fun i => iid ← get "id" i; y ← Ok (VStr x); strict_eq iid y)
        (map enc_investigation invs)
  = Ok (from_option enc_investigation VUndef
          (List.find (fun i => String.eqb (inv_id i) x) invs)).
Proof.
  induction invs as [|i invs IH]; [done|].
  cbn [map findM List.find].
  destruct (get_investigation i) as (_ & _ & _ & _ & _ & _ & -> & _).
  cbn [mbind res_bind strict_eq].
  destruct (String.eqb (inv_id i) x); [done|exact IH].
Qed.

Lemma entry_row_ok (iso : Z → string) (inv : option Investigation)
    (ev : Evidence) (en : Entry) :
  exportable_entry en →
  entry_row iso (from_option enc_investigation VUndef inv) (enc_evidence ev) (enc_entry en)
  = Ok (map VStr (csv_row iso inv ev en)).
Proof.
  intros Hts. unfold exportable_entry in Hts. unfold entry_row.
  assert (Hinv :
    opt_get "caseNumber" (from_option enc_investigation VUndef inv)
      = Ok (from_option (fun i => VStr (inv_caseNumber i)) VUndef inv) ∧
    opt_get "title" (from_option enc_investigation VUndef inv)
      = Ok (from_option (fun i => VStr (inv_title i)) VUndef inv) ∧
    opt_get "status" (from_option enc_investigation VUndef inv)
      = Ok (from_option (fun i => VStr (inv_status i)) VUndef inv) ∧
    opt_get "tags" (from_option enc_investigation VUndef inv)
      = Ok (from_option (fun i => VArr (map VStr (inv_tags i))) VUndef inv)).
  { destruct inv as [i|]; [|done]. cbn [from_option].
    destruct (get_investigation i) as (H1 & H2 & H3 & _ & H5 & _).
    unfold enc_investigation in *. by destruct (inv_updatedAt i). }
  destruct Hinv as (-> & -> & -> & ->). cbn [mbind res_bind].
  replace (method_arr (js_or (from_option (fun i => VArr (map VStr (inv_tags i))) VUndef inv)
                             (VArr [])) ≫= join_values ";")
    with (@Ok string (String.concat ";" (from_option inv_tags [] inv))).
  2:{ destruct inv as [i|]; cbn; [|done]. by rewrite join_values_strings. }
  cbn [mbind res_bind].
  change (get "title" (enc_evidence ev)) with (@Ok value (VStr (ev_title ev))).
  change (get "type" (enc_evidence ev)) with (@Ok value (VStr (ev_type ev))).
  change (get "tags" (enc_evidence ev)) with (@Ok value (VArr (map VStr (ev_tags ev)))).
  cbn [mbind res_bind js_or truthy method_arr]. rewrite join_values_strings.
  change (get "timestamp" (enc_entry en)) with (@Ok value (VNum (en_timestamp en))).
  change (get "author" (enc_entry en)) with (@Ok value (VStr (en_author en))).
  change (get "body" (enc_entry en)) with (@Ok value (VStr (en_body en))).
  change (get "attachments" (enc_entry en))
    with (@Ok value (VArr (map enc_attachment (en_attachments en)))).
  cbn [mbind res_bind js_or truthy method_arr Date_toISOString].
  destruct (Z.leb_spec (Z.abs (en_timestamp en)) 8640000000000000); [|lia].
  cbn [mbind res_bind].
  rewrite (mapM_map enc_attachment _ (fun a => VStr (attachment_text a))).
  2:{ apply Forall_forall. intros a _. apply attachment_cell_text. }
  cbn [mbind res_bind]. rewrite <- (map_map attachment_text VStr), join_values_strings.
  cbn [mbind res_bind]. unfold csv_row. cbn [map].
  fold (js_or (VStr (ev_title ev)) (VStr EmptyString)).
  fold (js_or (VStr (ev_type ev)) (VStr EmptyString)).
  fold (js_or (VStr (en_author en)) (VStr EmptyString)).
  fold (js_or (VStr (en_body en)) (VStr EmptyString)).
  rewrite !js_or_string.
  destruct inv as [i|]; cbn [from_option]; [|done].
  by rewrite !js_or_string.
Qed.

Lemma csvSafe_string (s : string) : csvSafe (VStr s) = Ok (csv_field s).
Proof.
  unfold csv_field. cbn. destruct (needsQuotes s) eqn:E; [done|].
  by rewrite doubleQuotes_plain.
Qed.

Lemma exportCSV_rows_run (iso : Z → string) (d : Database) :
  exportable d →
  exportCSV_rows iso (enc_db d)
  = Ok (map (map VStr) (csv_header_names :: csv_data_rows iso d)).
Proof.
  intros Hd. unfold exportCSV_rows.
  change (get "evidence" (enc_db d))
    with (@Ok value (VArr (map enc_evidence (db_evidence d)))).
  cbn [mbind res_bind method_arr].
  rewrite (mapM_map enc_evidence _
             (fun ev => map (fun en => map VStr (csv_row iso (parent_of d ev) ev en))
                            (ev_entries ev))).
  - cbn [mbind res_bind]. f_equal. cbn [map]. f_equal.
    unfold csv_data_rows. rewrite flat_map_concat_map, concat_map, map_map.
    f_equal. apply map_ext. intros ev. by rewrite map_map.
  - eapply Forall_impl; [exact Hd|]. intros ev Hev. cbn beta.
    change (get "investigations" (enc_db d))
      with (@Ok value (VArr (map enc_investigation (db_investigations d)))).
    cbn [mbind res_bind method_arr].
    change (get "investigationId" (enc_evidence ev))
      with (@Ok value (VStr (ev_investigationId ev))).
    rewrite findM_parent. cbn [mbind res_bind]. fold (parent_of d ev).
    change (get "entries" (enc_evidence ev))
      with (@Ok value (VArr (map enc_entry (ev_entries ev)))).
    cbn [mbind res_bind js_or truthy method_arr].
    apply mapM_map. eapply Forall_impl; [exact Hev|].
    intros en Hen. by apply entry_row_ok.
Qed.

Lemma parent_of_none (d : Database) (ev : Evidence) :
  parent_of d ev = None ↔
  ∀ i, In i (db_investigations d) → inv_id i ≠ ev_investigationId ev.
Proof.
  unfold parent_of. split.
  - intros H i Hi E. eapply find_none in H; [|exact Hi].
    cbn in H. rewrite E, String.eqb_refl in H. done.
  - intros H. destruct (List.find _ _) as [i|] eqn:E; [|done].
    apply find_some in E as [Hi E]. apply String.eqb_eq in E. by destruct (H i Hi).
Qed.

Lemma exportCSV_run (iso : Z → string) (d : Database) :
  exportable d →
  exportCSV iso (enc_db d) = Ok (csv_text (csv_header_names :: csv_data_rows iso d)).
Proof.
  intros Hd. unfold exportCSV. rewrite exportCSV_rows_run by done.
  cbn [mbind res_bind]. unfold csv_text.
  rewrite (mapM_map (map VStr) _ (fun r => String.concat "," (map csv_field r))); [done|].
  apply Forall_forall. intros r _.
  rewrite (mapM_map VStr _ csv_field); [done|].
  apply Forall_forall. intros s _. apply csvSafe_string.
Qed.

Lemma mapM_throws {A B} (f : A → res B) (e : error) (l : list A) :
  Forall (fun x => (∃ y, f x = Ok y) ∨ f x = Throw e) l →
  Exists (fun x => f x = Throw e) l →
  mapM f l = Throw e.
Proof.
  induction 1 as [|x l Hx _ IH]; intros Hex; [by apply Exists_nil in Hex|].
  cbn. destruct Hx as [[y Hy]| ->]; [|done]. rewrite Hy. cbn.
  apply Exists_cons in Hex as [Hex|Hex]; [congruence|]. by rewrite IH.
Qed.

Lemma entry_row_invalid (iso : Z → string) (inv : option Investigation)
    (ev : Evidence) (en : Entry) :
  ¬ exportable_entry en →
  entry_row iso (from_option enc_investigation VUndef inv) (enc_evidence ev) (enc_entry en)
  = Throw RangeError.
Proof.
  intros Hts. unfold exportable_entry in Hts. unfold entry_row.
  assert (Hinv :
    opt_get "caseNumber" (from_option enc_investigation VUndef inv)
      = Ok (from_option (fun i => VStr (inv_caseNumber i)) VUndef inv) ∧
    opt_get "title" (from_option enc_investigation VUndef inv)
      = Ok (from_option (fun i => VStr (inv_title i)) VUndef inv) ∧
    opt_get "status" (from_option enc_investigation VUndef inv)
      = Ok (from_option (fun i => VStr (inv_status i)) VUndef inv) ∧
    opt_get "tags" (from_option enc_investigation VUndef inv)
      = Ok (from_option (fun i => VArr (map VStr (inv_tags i))) VUndef inv)).
  { destruct inv as [i|]; [|done]. cbn [from_option].
    destruct (get_investigation i) as (H1 & H2 & H3 & _ & H5 & _).
    unfold enc_investigation in *. by destruct (inv_updatedAt i). }
  destruct Hinv as (-> & -> & -> & ->). cbn [mbind res_bind].
  replace (method_arr (js_or (from_option (fun i => VArr (map VStr (inv_tags i))) VUndef inv)
                             (VArr [])) ≫= join_values ";")
    with (@Ok string (String.concat ";" (from_option inv_tags [] inv))).
  2:{ destruct inv as [i|]; cbn; [|done]. by rewrite join_values_strings. }
  cbn [mbind res_bind].
  change (get "title" (enc_evidence ev)) with (@Ok value (VStr (ev_title ev))).
  change (get "type" (enc_evidence ev)) with (@Ok value (VStr (ev_type ev))).
  change (get "tags" (enc_evidence ev)) with (@Ok value (VArr (map VStr (ev_tags ev)))).
  cbn [mbind res_bind js_or truthy method_arr]. rewrite join_values_strings.
  change (get "timestamp" (enc_entry en)) with (@Ok value (VNum (en_timestamp en))).
  cbn [mbind res_bind Date_toISOString].
  destruct (Z.leb_spec (Z.abs (en_timestamp en)) 8640000000000000); [lia|done].
Qed.

Lemma exportCSV_rows_invalid (iso : Z → string) (d : Database) :
  Exists (fun ev => Exists (fun en => ¬ exportable_entry en) (ev_entries ev))
         (db_evidence d) →
  exportCSV_rows iso (enc_db d) = Throw RangeError.
Proof.
  intros Hbad. unfold exportCSV_rows.
  change (get "evidence" (enc_db d))
    with (@Ok value (VArr (map enc_evidence (db_evidence d)))).
  cbn [mbind res_bind method_arr].
  match goal with |- context [mapM ?F0 (map enc_evidence _)] => set (F := F0) end.
  assert (Hev : ∀ ev,
    F (enc_evidence ev)
    = mapM (entry_row iso (from_option enc_investigation VUndef (parent_of d ev))
                      (enc_evidence ev))
           (map enc_entry (ev_entries ev))).
  { intros ev. unfold F.
    change (get "investigations" (enc_db d))
      with (@Ok value (VArr (map enc_investigation (db_investigations d)))).
    cbn [mbind res_bind method_arr].
    change (get "investigationId" (enc_evidence ev))
      with (@Ok value (VStr (ev_investigationId ev))).
    rewrite findM_parent. cbn [mbind res_bind]. fold (parent_of d ev). done. }
  clearbody F.
  rewrite (mapM_throws _ RangeError); [done| |].
  - apply Forall_fmap, Forall_forall. intros ev _. unfold compose. rewrite Hev.
    destruct (decide (Forall exportable_entry (ev_entries ev))) as [Hok|Hno].
    + left. eexists. apply mapM_map. eapply Forall_impl; [exact Hok|].
      intros en Hen. by apply entry_row_ok.
    + right. apply mapM_throws.
      * apply Forall_fmap, Forall_forall. intros en _. unfold compose.
        destruct (decide (exportable_entry en)) as [Hen|Hen].
        -- left. eexists. by apply entry_row_ok.
        -- right. by apply entry_row_invalid.
      * apply Exists_fmap. apply not_Forall_Exists in Hno; [|apply _].
        eapply Exists_impl; [exact Hno|]. intros en Hen. by apply entry_row_invalid.
  - apply Exists_fmap. eapply Exists_impl; [exact Hbad|]. intros ev Hex.
    unfold compose. rewrite Hev. apply mapM_throws.
    + apply Forall_fmap, Forall_forall. intros en _. unfold compose.
      destruct (decide (exportable_entry en)) as [Hen|Hen].
      * left. eexists. by apply entry_row_ok.
      * right. by apply entry_row_invalid.
    + apply Exists_fmap. eapply Exists_impl; [exact Hex|].
      intros en Hen. by apply entry_row_invalid.
Qed.

Lemma not_exportable (d : Database) :
  ¬ exportable d →
  Exists (fun ev => Exists (fun en => ¬ exportable_entry en) (ev_entries ev))
         (db_evidence d).
Proof.
  intros H. apply not_Forall_Exists in H; [|apply _].
  eapply Exists_impl; [exact H|]. intros ev Hev. cbn in Hev.
  apply not_Forall_Exists in Hev; [done|apply _].
Qed.

(** C8 (amended).  For a database of records, [exportCSV] either writes
    every entry or nothing.  When every entry has a valid time stamp, it
    builds the header row followed by one row for each entry of each
    evidence record, in order (a record without entries gives no row).  A
    row holds, in this order, the case number, title, status and tags
    (joined by [;]) of the investigation the evidence refers to, the
    title, type and tags of the evidence, the ISO time stamp, author and
    body of the entry, and the attachments joined by [ | ], each written
    [label:url], with the word [link] in place of an empty label.  When no
    investigation has the id the evidence refers to, the four investigation
    columns are empty and the row is still there.  The text is the rows
    joined by line feeds, each row being its escaped fields joined by
    commas.  When some entry has a time stamp that is not a valid time
    value, [exportCSV] throws a [RangeError] and builds no row. *)
Theorem exportCSV_one_row_per_entry (iso : Z → string) (d : Database) :
  (exportable d →
     exportCSV_rows iso (enc_db d)
       = Ok (map (map VStr) (csv_header_names :: csv_data_rows iso d)) ∧
     exportCSV iso (enc_db d) = Ok (csv_text (csv_header_names :: csv_data_rows iso d))) ∧
  (¬ exportable d →
     exportCSV_rows iso (enc_db d) = Throw RangeError ∧
     exportCSV iso (enc_db d) = Throw RangeError) ∧
  length (csv_data_rows iso d) = entry_count d ∧
  (∀ ev en, In ev (db_evidence d) → In en (ev_entries ev) →
     In (csv_row iso (parent_of d ev) ev en) (csv_data_rows iso d)) ∧
  (∀ ev en,
     (∀ i, In i (db_investigations d) → inv_id i ≠ ev_investigationId ev) →
     csv_row iso (parent_of d ev) ev en
     = [ EmptyString; EmptyString; EmptyString; EmptyString; ev_title ev; ev_type ev;
         String.concat ";" (ev_tags ev); iso (en_timestamp en); en_author en;
         en_body en; String.concat " | " (map attachment_text (en_attachments en)) ]) ∧
  (∀ a, att_label a ≠ EmptyString → attachment_text a = att_label a ++ ":" ++ att_url a) ∧
  (∀ a, att_label a = EmptyString → attachment_text a = "link:" ++ att_url a).
Proof.
  split; [|split; [|split; [|split; [|split; [|split]]]]].
  - intros Hd. split; [by apply exportCSV_rows_run|by apply exportCSV_run].
  - intros Hd. apply not_exportable in Hd.
    pose proof (exportCSV_rows_invalid iso d Hd) as Hrows.
    split; [exact Hrows|]. unfold exportCSV. by rewrite Hrows.
  - unfold csv_data_rows, entry_count.
    induction (db_evidence d) as [|ev evs IH]; [done|].
    cbn. rewrite length_app, length_map, IH. done.
  - intros ev en Hev Hen. unfold csv_data_rows. apply in_flat_map.
    exists ev. split; [done|]. by apply in_map.
  - intros ev en Hno. apply parent_of_none in Hno. by rewrite Hno.
  - intros a Ha. unfold attachment_text.
    by destruct (String.eqb_spec (att_label a) EmptyString).
  - intros a Ha. unfold attachment_text. by rewrite Ha.
Qed.

(** ** C5: [updatedAt >= createdAt] *)

(** C5, as stated, fails: importing a document whose record was updated
    before it was created is one exposed operation away from the empty
    database, and the resulting store breaks the invariant. *)
Lemma import_breaks_timestamp_order :
  exec [ImportJSON backdated_doc] emptyDB = Ok backdated_db ∧
  timestamps_ok backdated_db = false.
Proof. split; vm_compute; reflexivity. Qed.

Lemma record_ok_nonnullish (t : Z) (l : list value) :
  Forall (record_ok t) l → Forall nonnullish l.
Proof.
  intros H. eapply Forall_impl; [exact H|]. by intros r (ro & c & u & -> & _).
Qed.

Lemma record_ok_mono (t t' : Z) (r : value) :
  (t <= t')%Z → record_ok t r → record_ok t' r.
Proof.
  intros Ht (ro & c & u & -> & Hc & Hu & H1 & H2).
  exists ro, c, u. repeat split; try done. lia.
Qed.

Lemma evidence_ok_mono (t t' : Z) (r : value) :
  (t <= t')%Z → evidence_ok t r → evidence_ok t' r.
Proof. intros Ht [H1 H2]. split; [by eapply record_ok_mono|done]. Qed.

Lemma merged_record_ok (t now : Z) (id : string) (data : gmap string value) (r : value) :
  (t <= now)%Z → data !! "createdAt" = None →
  record_ok t r → record_ok now (merged id data now r).
Proof.
  intros Ht Hd Hr. unfold merged. destruct (has_id id r) eqn:E.
  - destruct Hr as (ro & c & u & -> & Hc & Hu & H1 & H2).
    exists (<["updatedAt" := VNum now]> (data ∪ ro)), c, now.
    split; [done|]. split; [|split; [apply lookup_insert_eq|lia]].
    rewrite lookup_insert_ne by done. by rewrite lookup_union_r.
  - by eapply record_ok_mono.
Qed.

Lemma merged_evidence_ok (t now : Z) (id : string) (data : gmap string value) (r : value) :
  (t <= now)%Z → data !! "createdAt" = None → data !! "entries" = None →
  evidence_ok t r → evidence_ok now (merged id data now r).
Proof.
  intros Ht Hd He [Hr [l Hl]]. split; [by eapply merged_record_ok|].
  exists l. unfold merged. destruct (has_id id r) eqn:E; [|done].
  destruct Hr as (ro & c & u & -> & _). cbn in Hl |- *.
  rewrite lookup_insert_ne by done. by rewrite lookup_union_r.
Qed.

Lemma with_entry_evidence_ok (t now : Z) (id : string) (entry : value) (r : value) :
  (t <= now)%Z → evidence_ok t r → evidence_ok now (with_entry id entry now r).
Proof.
  intros Ht [Hr [l Hl]]. unfold with_entry. destruct (has_id id r) eqn:E.
  2:{ split; [by eapply record_ok_mono|eauto]. }
  destruct Hr as (ro & c & u & -> & Hc & Hu & H1 & H2).
  unfold entries_of. rewrite Hl. cbn [mbind res_bind js_or truthy spread_arr].
  split.
  - exists (<["updatedAt" := VNum now]> (<["entries" := VArr (entry :: l)]> ro)), c, now.
    split; [done|]. split; [|split; [apply lookup_insert_eq|lia]].
    by rewrite !lookup_insert_ne.
  - exists (entry :: l). cbn. rewrite lookup_insert_ne by done.
    by rewrite lookup_insert_eq.
Qed.

Lemma evidence_ok_ready (t : Z) (id : string) (evs : list value) :
  Forall (evidence_ok t) evs → entries_ready id evs.
Proof.
  intros H. eapply Forall_impl; [exact H|]. clear H.
  intros r [(ro & c & u & -> & _) [l Hl]]. split; [done|].
  intros _. exists l. unfold entries_of. by rewrite Hl.
Qed.

Lemma filterM_records (t : Z) (k id : string) (l : list value) :
  k ≠ "entries" → Forall (record_ok t) l →
  ∃ l', filterM (fun r => x ← get k r; Ok (negb (is_str id x))) l = Ok l'
        ∧ ∀ r, r ∈ l' → r ∈ l.
Proof.
  intros Hk Hl.
  set (q := fun r => match get k r with
                     | Ok x => negb (is_str id x) | Throw _ => false end).
  exists (filter (fun r => q r) l).
  split.
  - apply filterM_ok. eapply Forall_impl; [exact Hl|].
    intros r (ro & c & u & -> & _). done.
  - intros r Hr. by apply list_elem_of_filter in Hr as [_ Hr].
Qed.

Lemma Forall_sub {A} (P : A → Prop) (l l' : list A) :
  (∀ x, x ∈ l' → x ∈ l) → Forall P l → Forall P l'.
Proof. rewrite !Forall_forall. auto. Qed.

(** One event that is not an import, taken at a reading not before [t],
    runs through and keeps the store in order. *)
Lemma step_store_ok (e : event) (t : Z) (db : value) :
  is_import e = false → store_ok t db →
  match event_time e with Some now => (t <= now)%Z | None => True end →
  ∃ us db', handle e = Ok us ∧ run us db = Ok db'
            ∧ store_ok (default t (event_time e)) db'.
Proof.
  intros Hi (o & invs & evs & -> & Hinv & Hev & Fi & Fe) Ht.
  destruct e as [newid now p|id now p|confirmed id|invId newid now p|id now p
                |confirmed id|evidenceId newid now p|content];
    try discriminate; cbn [handle event_time default] in *; unfold Datatypes.id.
  - eexists _, _. split; [done|]. split.
    { cbn. rewrite Hinv. cbn. done. }
    eexists _, _, evs. split; [done|]. split; [apply lookup_insert_eq|].
    split; [by rewrite lookup_insert_ne|]. split.
    + constructor.
      * eexists _, now, now. split; [done|]. split; [done|]. split; [done|]. lia.
      * eapply Forall_impl; [exact Fi|]. intros r. by apply record_ok_mono.
    + eapply Forall_impl; [exact Fe|]. intros r. by apply evidence_ok_mono.
  - eexists _, _. split; [done|]. split.
    { apply updateInvestigation_run; [done|by eapply record_ok_nonnullish]. }
    eexists _, _, evs. split; [done|]. split; [apply lookup_insert_eq|].
    split; [by rewrite lookup_insert_ne|]. split.
    + rewrite Forall_fmap. eapply Forall_impl; [exact Fi|].
      intros r. by apply merged_record_ok.
    + eapply Forall_impl; [exact Fe|]. intros r. by apply evidence_ok_mono.
  - destruct confirmed.
    2:{ eexists _, _. split; [done|]. split; [done|]. by eexists _, invs, evs. }
    destruct (filterM_records t "id" id invs) as (invs' & Hf1 & Hs1); [done|done|].
    destruct (filterM_records t "investigationId" id evs) as (evs' & Hf2 & Hs2);
      [done|eapply Forall_impl; [exact Fe|]; by intros r [? _]|].
    eexists _, _. split; [done|]. split.
    { cbn. rewrite Hinv, Hev. cbn. rewrite Hf1. cbn. rewrite Hf2. done. }
    eexists _, invs', evs'. split; [done|].
    split; [rewrite lookup_insert_ne by done; apply lookup_insert_eq|].
    split; [apply lookup_insert_eq|]. split; by eapply Forall_sub.
  - eexists _, _. split; [done|]. split.
    { cbn. rewrite Hev. cbn. done. }
    eexists _, invs, _. split; [done|]. split; [by rewrite lookup_insert_ne|].
    split; [apply lookup_insert_eq|]. split.
    + eapply Forall_impl; [exact Fi|]. intros r. by apply record_ok_mono.
    + constructor.
      * split; [|by eexists].
        eexists _, now, now. split; [done|]. split; [done|]. split; [done|]. lia.
      * eapply Forall_impl; [exact Fe|]. intros r. by apply evidence_ok_mono.
  - eexists _, _. split; [done|]. split.
    { apply updateEvidence_run; [done|].
      eapply record_ok_nonnullish, Forall_impl; [exact Fe|]. by intros r [? _]. }
    eexists _, invs, _. split; [done|]. split; [by rewrite lookup_insert_ne|].
    split; [apply lookup_insert_eq|]. split.
    + eapply Forall_impl; [exact Fi|]. intros r. by apply record_ok_mono.
    + rewrite Forall_fmap. eapply Forall_impl; [exact Fe|].
      intros r. by apply merged_evidence_ok.
  - destruct confirmed.
    2:{ eexists _, _. split; [done|]. split; [done|]. by eexists _, invs, evs. }
    destruct (filterM_records t "id" id evs) as (evs' & Hf2 & Hs2);
      [done|eapply Forall_impl; [exact Fe|]; by intros r [? _]|].
    eexists _, _. split; [done|]. split.
    { cbn. rewrite Hev. cbn. rewrite Hf2. done. }
    eexists _, invs, evs'. split; [done|].
    split; [by rewrite lookup_insert_ne|].
    split; [apply lookup_insert_eq|]. split; [done|by eapply Forall_sub].
  - eexists _, _. split; [done|]. split.
    { apply addEntry_run; [done|by eapply evidence_ok_ready]. }
    eexists _, invs, _. split; [done|]. split; [by rewrite lookup_insert_ne|].
    split; [apply lookup_insert_eq|]. split.
    + eapply Forall_impl; [exact Fi|]. intros r. by apply record_ok_mono.
    + rewrite Forall_fmap. eapply Forall_impl; [exact Fe|].
      intros r. by apply with_entry_evidence_ok.
Qed.

Lemma exec_store_ok (es : list event) (t : Z) (db : value) :
  store_ok t db → Forall (fun e => is_import e = false) es → clock_ok t es →
  ∃ db' t', exec es db = Ok db' ∧ store_ok t' db'.
Proof.
  revert t db. induction es as [|e es IH]; intros t db Hdb Hes Hclock.
  - by exists db, t.
  - apply Forall_cons in Hes as [He Hes]. cbn [clock_ok] in Hclock.
    destruct (step_store_ok e t db He Hdb) as (us & db1 & Hh & Hr & Hdb1).
    { destruct (event_time e); [apply Hclock|done]. }
    destruct (IH (default t (event_time e)) db1 Hdb1 Hes) as (db' & t' & Hx & Hdb').
    { destruct (event_time e); [apply Hclock|done]. }
    exists db', t'. split; [|done]. cbn [exec]. rewrite Hh. cbn. rewrite Hr. done.
Qed.

Lemma store_ok_timestamps (t : Z) (db : value) : store_ok t db → timestamps_ok db = true.
Proof.
  intros (o & invs & evs & -> & Hi & He & Fi & Fe).
  unfold timestamps_ok. cbn. rewrite Hi, He. cbn.
  assert (H : ∀ l, Forall (record_ok t) l → forallb ts_ok l = true).
  { intros l Hl. apply forallb_forall. intros r Hr.
    rewrite List.Forall_forall in Hl. destruct (Hl r Hr) as (ro & c & u & -> & Hc & Hu & H1 & _).
    unfold ts_ok. cbn. rewrite Hc, Hu. cbn. by apply Z.leb_le. }
  rewrite (H invs Fi), (H evs); [done|].
  eapply Forall_impl; [exact Fe|]. by intros r [? _].
Qed.

Lemma emptyDB_store_ok (t : Z) : store_ok t emptyDB.
Proof.
  by exists {[ "investigations" := VArr []; "evidence" := VArr []; "version" := VNum 1 ]},
            [], [].
Qed.

(** C5 (amended).  Starting from the empty database, every sequence of
    creations, updates, deletions and entry additions with the payloads of
    the forms, taken at clock readings that never decrease, runs through
    and leaves a store in which every investigation and every evidence
    record has a numeric [updatedAt] not below its numeric [createdAt].
    Imports are left out: nothing checks the records of an imported
    document. *)
Theorem timestamps_ordered_without_import (es : list event) (t0 : Z) :
  Forall (fun e => is_import e = false) es → clock_ok t0 es →
  ∃ db, exec es emptyDB = Ok db ∧ timestamps_ok db = true.
Proof.
  intros Hes Hclock.
  destruct (exec_store_ok es t0 emptyDB (emptyDB_store_ok t0) Hes Hclock)
    as (db & t' & Hx & Hdb).
  exists db. split; [done|]. by eapply store_ok_timestamps.
Qed.

(** ** C9: JSON text *)

Open Scope list_scope.

Lemma skip_ws_spaces (k : nat) (s : list ascii) :
  skip_ws (repeat " "%char k ++ s) = skip_ws s.
Proof. induction k as [|k IH]; [done|exact IH]. Qed.

Lemma skip_ws_indent (n : nat) (s : list ascii) : skip_ws (nl_indent n ++ s) = skip_ws s.
Proof.
  transitivity (skip_ws (repeat " "%char (2 * n) ++ s)); [reflexivity|].
  apply skip_ws_spaces.
Qed.

Lemma skip_ws_head (c : ascii) (s : list ascii) : is_ws c = false → skip_ws (c :: s) = c :: s.
Proof. intros H. cbn. by rewrite H. Qed.

Lemma parse_string_escape (c : ascii) (rest : list ascii) :
  parse_string_body (escape_char c ++ rest)
  = ('(cs, r) ← parse_string_body rest; Ok (c :: cs, r)).
Proof. destruct c as [[] [] [] [] [] [] [] []]; reflexivity. Qed.

Lemma parse_string_quoted (cs rest : list ascii) :
  parse_string_body (flat_map escape_char cs ++ dquote :: rest) = Ok (cs, rest).
Proof.
  induction cs as [|c cs IH]; [done|].
  change (flat_map escape_char (c :: cs)) with (escape_char c ++ flat_map escape_char cs).
  rewrite <- app_assoc, parse_string_escape, IH. done.
Qed.

Lemma parse_quote_string (s : string) (rest : list ascii) :
  ∃ body, quote_string s ++ rest = dquote :: body
          ∧ parse_string_body body = Ok (list_ascii_of_string s, rest).
Proof.
  exists (flat_map escape_char (list_ascii_of_string s) ++ dquote :: rest).
  split; [|apply parse_string_quoted].
  unfold quote_string. rewrite <- app_comm_cons, <- app_assoc. done.
Qed.

Lemma digit_of_show (d : Decimal.uint) (rest : list ascii) :
  token_end rest = true → read_digits (show_uint d ++ rest) = (d, rest).
Proof.
  intros H. induction d; cbn; try (by rewrite IHd).
  destruct rest as [|c rest]; [done|]. cbn in H |- *.
  unfold is_digit in H. destruct (digit_of c); [done|done].
Qed.

Lemma to_uint_head (p : positive) : ∀ d, Pos.to_uint p ≠ Decimal.D0 d.
Proof.
  intros d Hd.
  pose proof (DecimalPos.Unsigned.to_of (Pos.to_uint p)) as H.
  rewrite DecimalPos.Unsigned.of_to in H. cbn in H.
  rewrite Hd, DecimalFacts.unorm_D0 in H. unfold Decimal.unorm in H.
  destruct (Decimal.nzhead d) eqn:E; try discriminate.
  - apply (DecimalPos.Unsigned.to_uint_nonzero p). rewrite Hd. exact H.
  - by apply (DecimalFacts.nzhead_nonzero d u).
Qed.

Lemma show_uint_head (d : Decimal.uint) (rest : list ascii) :
  d ≠ Decimal.Nil →
  ∃ c s', show_uint d ++ rest = c :: s' ∧ Ascii.eqb c "-" = false
          ∧ is_digit c = true ∧ starts_number c.
Proof.
  intros Hd. destruct d; [done|..]; eexists _, _; (split; [reflexivity|]);
    repeat split; reflexivity.
Qed.

Lemma token_end_more (rest : list ascii) : token_end rest = true → more_number rest = false.
Proof.
  destruct rest as [|c rest]; [done|]. cbn. intros H.
  apply andb_true_iff in H as [_ H]. by apply negb_true_iff in H.
Qed.

Lemma read_fraction_end (rest : list ascii) :
  token_end rest = true → read_fraction rest = Some (Decimal.Nil, rest).
Proof.
  intros H. apply token_end_more in H. destruct rest as [|c rest]; [done|].
  cbn in H |- *. by destruct (Ascii.eqb c ".").
Qed.

Lemma read_exponent_end (rest : list ascii) :
  token_end rest = true → read_exponent rest = Some (0%Z, rest).
Proof.
  intros H. apply token_end_more in H. destruct rest as [|c rest]; [done|].
  cbn in H. apply orb_false_iff in H as [H HE]. apply orb_false_iff in H as [_ He].
  unfold read_exponent. by rewrite He, HE.
Qed.

Lemma parse_number_digits (d : Decimal.uint) (rest : list ascii) :
  d ≠ Decimal.Nil → (∀ u, d = Decimal.D0 u → u = Decimal.Nil) →
  token_end rest = true →
  parse_number (show_uint d ++ rest)
  = (v ← number_value false (Z.of_N (N.of_uint d)) 0; Ok (v, rest)) ∧
  parse_number ("-"%char :: show_uint d ++ rest)
  = (v ← number_value true (Z.of_N (N.of_uint d)) 0; Ok (v, rest)).
Proof.
  intros Hnil Hzero Hend.
  pose proof (digit_of_show d rest Hend) as Hrd.
  pose proof (read_fraction_end rest Hend) as Hf.
  pose proof (read_exponent_end rest Hend) as He.
  destruct (show_uint_head d rest Hnil) as (c & s' & Heq & Hc & _).
  assert (Hm : (Z.of_N (N.of_uint d) * 10 ^ Z.of_nat (Decimal.nb_digits Decimal.Nil)
                + Z.of_N (N.of_uint Decimal.Nil))%Z = Z.of_N (N.of_uint d)).
  { change (Z.of_nat (Decimal.nb_digits Decimal.Nil)) with 0%Z.
    change (Z.of_N (N.of_uint Decimal.Nil)) with 0%Z.
    rewrite Z.pow_0_r, Z.mul_1_r, Z.add_0_r. done. }
  split.
  - unfold parse_number. rewrite Heq, Hc, <- Heq, Hrd.
    destruct d as [|u|u|u|u|u|u|u|u|u|u]; [congruence|..];
      [pose proof (Hzero u eq_refl); subst u|..];
      rewrite Hf, He; cbv zeta; rewrite Hm; reflexivity.
  - unfold parse_number. change (Ascii.eqb "-" "-") with true. cbv iota beta.
    rewrite Hrd.
    destruct d as [|u|u|u|u|u|u|u|u|u|u]; [congruence|..];
      [pose proof (Hzero u eq_refl); subst u|..];
      rewrite Hf, He; cbv zeta; rewrite Hm; reflexivity.
Qed.

Lemma safe_int_opp (z : Z) : safe_int (- z) = safe_int z.
Proof. unfold safe_int. by rewrite Z.abs_opp. Qed.

Lemma overflow_above : (9007199254740992 < overflow)%Z.
Proof. vm_compute. reflexivity. Qed.

Lemma safe_int_le (z : Z) : safe_int z = true → (Z.abs z <= 9007199254740992)%Z.
Proof. intros H. apply Z.leb_le. exact H. Qed.

Lemma safe_below_overflow (z : Z) : safe_int z = true → (overflow <=? z)%Z = false.
Proof.
  intros H. apply Z.leb_gt. apply safe_int_le in H.
  pose proof overflow_above. lia.
Qed.

(** A literal without fraction and exponent denotes the integer written. *)
Lemma number_value_unit (neg : bool) (m : Z) :
  m ≠ 0%Z →
  number_value neg m 0 =
    if (overflow <=? m)%Z then Ok (VInf neg)
    else if safe_int m then Ok (VNum (if neg then (- m)%Z else m)) else Throw OutOfModel.
Proof.
  intros Hm. unfold number_value.
  destruct (Z.eqb_spec m 0) as [|_]; [done|].
  destruct (Z.leb_spec 0 0) as [_|]; [|lia].
  rewrite Z.pow_0_r, !Z.mul_1_r, Z.mod_1_r, Z.div_1_r, Z.eqb_refl.
  reflexivity.
Qed.

Lemma number_value_int (neg : bool) (p : positive) :
  safe_int (Z.pos p) = true →
  number_value neg (Z.pos p) 0 = Ok (VNum (if neg then Z.neg p else Z.pos p)).
Proof.
  intros Hsafe. rewrite number_value_unit by done.
  rewrite (safe_below_overflow _ Hsafe), Hsafe. reflexivity.
Qed.

Lemma parse_number_show (z : Z) (rest : list ascii) :
  safe_int z = true → token_end rest = true →
  parse_number (show_Z z ++ rest) = Ok (VNum z, rest).
Proof.
  intros Hsafe Hend. destruct z as [|p|p]; unfold show_Z.
  - apply (parse_number_digits (Decimal.D0 Decimal.Nil) rest); [discriminate| |exact Hend].
    intros u [= <-]; reflexivity.
  - destruct (parse_number_digits (Pos.to_uint p) rest) as [H _].
    { apply DecimalPos.Unsigned.to_uint_nonnil. }
    { intros u Hu. destruct (to_uint_head p u Hu). }
    { exact Hend. }
    rewrite H. unfold N.of_uint. rewrite DecimalPos.Unsigned.of_to.
    change (Z.of_N (N.pos p)) with (Z.pos p). by rewrite (number_value_int false p Hsafe).
  - destruct (parse_number_digits (Pos.to_uint p) rest) as [_ H].
    { apply DecimalPos.Unsigned.to_uint_nonnil. }
    { intros u Hu. destruct (to_uint_head p u Hu). }
    { exact Hend. }
    rewrite <- app_comm_cons, H. unfold N.of_uint.
    rewrite DecimalPos.Unsigned.of_to.
    change (Z.of_N (N.pos p)) with (Z.pos p).
    rewrite (number_value_int true p); [done|].
    rewrite <- (safe_int_opp (Z.pos p)). exact Hsafe.
Qed.

(** *** Induction on values *)

Lemma list_sum_cons (a : nat) (l : list nat) : list_sum (a :: l) = (a + list_sum l)%nat.
Proof. reflexivity. Qed.

Lemma size_elem (x : value) (l : list value) :
  In x l → (size x < size (VArr l))%nat.
Proof.
  intros H. change (size (VArr l)) with (S (list_sum (map (fun x => S (size x)) l))).
  induction l as [|y l IH]; [done|]. cbn [map]. rewrite list_sum_cons.
  destruct H as [->|H]; [lia|]. specialize (IH H). lia.
Qed.

Lemma size_obj_fold (o : gmap string value) :
  size (VObj o) = S (list_sum (map (fun p => S (size p.2)) (map_to_list o))).
Proof.
  change (size (VObj o)) with (S (map_fold (fun _ x acc => S (size x) + acc)%nat O o)).
  rewrite map_fold_foldr. f_equal.
  induction (map_to_list o) as [|[k x] l IH]; [done|].
  cbn [foldr map]. rewrite list_sum_cons, <- IH. done.
Qed.

Lemma size_prop (x : value) (k : string) (o : gmap string value) :
  o !! k = Some x → (size x < size (VObj o))%nat.
Proof.
  intros H. rewrite size_obj_fold. apply elem_of_map_to_list, list_elem_of_In in H.
  induction (map_to_list o) as [|[k' y] l IH]; [done|]. cbn [map]. rewrite list_sum_cons.
  destruct H as [[= -> ->]|H]; [cbn; lia|]. specialize (IH H). lia.
Qed.

Lemma value_nested_ind (P : value → Prop) :
  P VUndef → P VNull → (∀ b, P (VBool b)) → (∀ z, P (VNum z)) → (∀ s, P (VStr s)) →
  (∀ l, Forall P l → P (VArr l)) →
  (∀ o, map_Forall (fun _ x => P x) o → P (VObj o)) →
  (∀ n, P (VInf n)) →
  ∀ v, P v.
Proof.
  intros Hu Hn Hb Hz Hs Ha Ho Hi v.
  remember (size v) as n eqn:Hn'. revert v Hn'.
  induction n as [n IH] using lt_wf_ind. intros v ->.
  destruct v as [| |b|z|s|l|o|i]; auto.
  - apply Ha, List.Forall_forall. intros x Hx.
    apply (IH (size x)); [by apply size_elem|done].
  - apply Ho. intros k x Hx. apply (IH (size x)); [by eapply size_prop|done].
Qed.

Lemma is_json_obj (o : gmap string value) :
  is_json (VObj o) = true ↔ Forall (fun p => is_json p.2 = true) (map_to_list o).
Proof.
  change (is_json (VObj o)) with (map_fold (fun _ x acc => is_json x && acc) true o).
  rewrite map_fold_foldr.
  induction (map_to_list o) as [|[k x] l IH]; [done|].
  cbn. rewrite andb_true_iff, IH, Forall_cons. done.
Qed.

Lemma is_json_arr (l : list value) :
  is_json (VArr l) = true ↔ Forall (fun x => is_json x = true) l.
Proof.
  change (is_json (VArr l)) with (forallb is_json l).
  rewrite forallb_forall, List.Forall_forall. done.
Qed.

Lemma ser_obj (ind : nat) (o : gmap string value) :
  is_json (VObj o) = true →
  ser ind (VObj o) = wrap "{" "}" ind (map (member_text ind) (map_to_list o)).
Proof.
  intros H. apply is_json_obj in H.
  change (ser ind (VObj o)) with
    (wrap "{" "}" ind
       (map_fold (fun k x acc =>
                    if is_undef x then acc
                    else (quote_string k ++ ":"%char :: " "%char :: ser (S ind) x) :: acc)
                 [] o)).
  f_equal. rewrite map_fold_foldr.
  induction H as [|[k x] l Hx _ IH]; [done|].
  cbn [foldr map]. rewrite <- IH. cbn in Hx. by destruct x.
Qed.

(** *** Unfolding the parser by one call *)

Lemma parse_value_array (n : nat) (s : list ascii) :
  parse_value (S n) ("["%char :: s)
  = match skip_ws s with
    | c1 :: r1 =>
        if Ascii.eqb c1 "]" then Ok (VArr [], r1)
        else '(vs, r) ← parse_elements n (c1 :: r1); Ok (VArr vs, r)
    | [] => Throw SyntaxError
    end.
Proof. reflexivity. Qed.

Lemma parse_value_object (n : nat) (s : list ascii) :
  parse_value (S n) ("{"%char :: s)
  = match skip_ws s with
    | c1 :: r1 =>
        if Ascii.eqb c1 "}" then Ok (VObj ∅, r1)
        else '(ms, r) ← parse_members n (c1 :: r1); Ok (VObj (obj_of_members ms), r)
    | [] => Throw SyntaxError
    end.
Proof. reflexivity. Qed.

Lemma parse_value_string (n : nat) (s : list ascii) :
  parse_value (S n) (dquote :: s)
  = ('(cs, r) ← parse_string_body s; Ok (VStr (string_of_list_ascii cs), r)).
Proof. reflexivity. Qed.

Lemma parse_value_number (n : nat) (c : ascii) (s : list ascii) :
  starts_number c → Ascii.eqb c "-" || is_digit c = true →
  parse_value (S n) (c :: s) = parse_number (c :: s).
Proof.
  intros (H1 & H2 & H3 & H4 & H5 & H6 & _) H.
  cbn [parse_value]. rewrite H1, H2, H3, H4, H5, H6, H. done.
Qed.

Lemma parse_elements_eq (n : nat) (s : list ascii) :
  parse_elements (S n) s
  = ('(v, r1) ← parse_value n s;
     match skip_ws r1 with
     | c :: r2 =>
         if Ascii.eqb c "," then
           '(vs, r3) ← parse_elements n (skip_ws r2); Ok (v :: vs, r3)
         else if Ascii.eqb c "]" then Ok ([v], r2)
         else Throw SyntaxError
     | [] => Throw SyntaxError
     end).
Proof. reflexivity. Qed.

Lemma parse_members_eq (n : nat) (s0 : list ascii) :
  parse_members (S n) (dquote :: s0)
  = ('(k, r1) ← parse_string_body s0;
     match skip_ws r1 with
     | c1 :: r2 =>
         if Ascii.eqb c1 ":" then
           '(v, r3) ← parse_value n (skip_ws r2);
           match skip_ws r3 with
           | c2 :: r4 =>
               if Ascii.eqb c2 "," then
                 '(ms, r5) ← parse_members n (skip_ws r4);
                 Ok ((string_of_list_ascii k, v) :: ms, r5)
               else if Ascii.eqb c2 "}"
                    then Ok ([(string_of_list_ascii k, v)], r4)
               else Throw SyntaxError
           | [] => Throw SyntaxError
           end
         else Throw SyntaxError
     | [] => Throw SyntaxError
     end).
Proof. reflexivity. Qed.

(** *** Printed text parses back *)

Lemma ser_head (ind : nat) (v : value) :
  ∃ c s', ser ind v = c :: s' ∧ is_ws c = false ∧ Ascii.eqb c "]" = false.
Proof.
  destruct v as [| |[]|z|s|l|o|i]; try (by eexists _, _).
  - destruct z as [|p|p]; try (by eexists _, _).
    destruct (show_uint_head (Pos.to_uint p) []) as (c & s' & Heq & _ & _ & Hc).
    { apply DecimalPos.Unsigned.to_uint_nonnil. }
    rewrite app_nil_r in Heq. exists c, s'. split; [exact Heq|].
    destruct Hc as (_ & _ & _ & _ & _ & _ & ? & ?). done.
  - change (ser ind (VArr l)) with (wrap "[" "]" ind (map (ser (S ind)) l)).
    destruct (map (ser (S ind)) l); by eexists _, _.
  - change (ser ind (VObj o)) with
      (wrap "{" "}" ind
         (map_fold (fun k x acc =>
                      if is_undef x then acc
                      else (quote_string k ++ ":"%char :: " "%char :: ser (S ind) x) :: acc)
                   [] o)).
    destruct (map_fold _ _ _); by eexists _, _.
Qed.

Lemma skip_ws_ser (ind : nat) (v : value) (rest : list ascii) :
  skip_ws (ser ind v ++ rest) = ser ind v ++ rest.
Proof.
  destruct (ser_head ind v) as (c & s' & -> & Hc & _). by apply skip_ws_head.
Qed.

Lemma parse_elements_ser (ind : nat) (l : list value) (rest : list ascii) :
  l ≠ [] → Forall parses_back l →
  ∀ n, (list_sum (map (fun x => S (size x)) l) <= n)%nat →
    parse_elements n (seq_body ind "]" (map (ser (S ind)) l) ++ rest) = Ok (l, rest).
Proof.
  intros Hne Hl. induction Hl as [|x l Hx Hl IH]; [done|]. clear Hne.
  intros n Hn. cbn [map] in Hn. rewrite list_sum_cons in Hn.
  destruct n as [|n]; [lia|]. rewrite parse_elements_eq.
  destruct l as [|y l].
  - cbn [map seq_body]. rewrite <- !app_assoc.
    rewrite Hx; [|cbn in Hn; lia|reflexivity].
    cbn [mbind res_bind]. rewrite skip_ws_indent. reflexivity.
  - change (seq_body ind "]" (map (ser (S ind)) (x :: y :: l)))
      with (ser (S ind) x ++ ","%char :: nl_indent (S ind)
              ++ seq_body ind "]" (map (ser (S ind)) (y :: l))).
    rewrite <- !app_assoc. rewrite Hx; [|lia|reflexivity].
    cbn [mbind res_bind]. rewrite <- !app_comm_cons.
    change (skip_ws (","%char :: ?s)) with (","%char :: s).
    cbv iota. change (Ascii.eqb "," ",") with true. cbv iota.
    rewrite <- app_assoc, skip_ws_indent.
    assert (Hsk : ∀ r, skip_ws (seq_body ind "]" (map (ser (S ind)) (y :: l)) ++ r)
                       = seq_body ind "]" (map (ser (S ind)) (y :: l)) ++ r).
    { intros r. destruct (ser_head (S ind) y) as (c & s' & Hy & Hc & _).
      cbn [map]. destruct (map (ser (S ind)) l); cbn [seq_body];
        rewrite Hy; by apply skip_ws_head. }
    rewrite Hsk, IH; [done|done|lia].
Qed.

Lemma member_text_body (ind : nat) (k : string) (x : value) (tail : list ascii) :
  ∃ body, member_text ind (k, x) ++ tail = dquote :: body ∧
    parse_string_body body
      = Ok (list_ascii_of_string k, ":"%char :: " "%char :: ser (S ind) x ++ tail).
Proof.
  unfold member_text. cbn [fst snd].
  destruct (parse_quote_string k (":"%char :: " "%char :: ser (S ind) x ++ tail))
    as (body & Hb & Hp).
  exists body. split; [|exact Hp]. rewrite <- Hb, <- app_assoc. done.
Qed.

Lemma parse_members_ser (ind : nat) (kvs : list (string * value)) (rest : list ascii) :
  kvs ≠ [] → Forall (fun p => parses_back p.2) kvs →
  ∀ n, (list_sum (map (fun p => S (size p.2)) kvs) <= n)%nat →
    parse_members n (seq_body ind "}" (map (member_text ind) kvs) ++ rest)
    = Ok (kvs, rest).
Proof.
  intros Hne Hl. induction Hl as [|[k x] l Hx Hl IH]; [done|]. clear Hne.
  intros n Hn. cbn [map snd] in Hn. rewrite list_sum_cons in Hn.
  destruct n as [|n]; [lia|]. cbn [snd] in Hx.
  destruct l as [|[k' y] l].
  - cbn [map seq_body]. rewrite <- !app_assoc.
    destruct (member_text_body ind k x (nl_indent ind ++ ["}"%char] ++ rest))
      as (body & -> & Hp).
    rewrite parse_members_eq, Hp. cbn [mbind res_bind].
    change (skip_ws (":"%char :: ?s)) with (":"%char :: s). cbv iota.
    change (Ascii.eqb ":" ":") with true. cbv iota.
    change (skip_ws (" "%char :: ?s)) with (skip_ws s).
    rewrite skip_ws_ser. rewrite Hx; [|lia|reflexivity].
    cbn [mbind res_bind]. rewrite skip_ws_indent.
    rewrite string_of_list_ascii_of_string. reflexivity.
  - set (tail := ","%char :: nl_indent (S ind)
              ++ seq_body ind "}" (map (member_text ind) ((k', y) :: l)) ++ rest).
    assert (Heq : seq_body ind "}" (map (member_text ind) ((k, x) :: (k', y) :: l)) ++ rest
                  = member_text ind (k, x) ++ tail).
    { change (seq_body ind "}" (map (member_text ind) ((k, x) :: (k', y) :: l)))
        with (member_text ind (k, x) ++ ","%char :: nl_indent (S ind)
                ++ seq_body ind "}" (map (member_text ind) ((k', y) :: l))).
      unfold tail. rewrite <- !app_assoc, <- app_comm_cons, <- app_assoc. done. }
    destruct (member_text_body ind k x tail) as (body & Hb & Hp).
    rewrite Heq, Hb. unfold tail in *. clear tail Heq Hb.
    rewrite parse_members_eq, Hp. cbn [mbind res_bind].
    change (skip_ws (":"%char :: ?s)) with (":"%char :: s). cbv iota.
    change (Ascii.eqb ":" ":") with true. cbv iota.
    change (skip_ws (" "%char :: ?s)) with (skip_ws s).
    rewrite skip_ws_ser. rewrite Hx; [|lia|reflexivity].
    cbn [mbind res_bind].
    change (skip_ws (","%char :: ?s)) with (","%char :: s). cbv iota.
    change (Ascii.eqb "," ",") with true. cbv iota.
    rewrite skip_ws_indent.
    assert (Hsk : ∀ r, skip_ws (seq_body ind "}" (map (member_text ind) ((k', y) :: l)) ++ r)
                       = seq_body ind "}" (map (member_text ind) ((k', y) :: l)) ++ r).
    { intros r. cbn [map]. unfold member_text at 1. unfold quote_string. cbn [fst snd].
      destruct (map (member_text ind) l); reflexivity. }
    rewrite Hsk, IH; [|done|lia]. cbn [mbind res_bind].
    rewrite string_of_list_ascii_of_string. reflexivity.
Qed.

Lemma obj_of_members_to_list (o : gmap string value) :
  obj_of_members (map_to_list o) = o.
Proof.
  unfold obj_of_members.
  rewrite <- fold_left_rev_right.
  transitivity (list_to_map (rev (map_to_list o)) : gmap string value).
  - induction (rev (map_to_list o)) as [|[k x] l IH]; [done|]. cbn. by rewrite IH.
  - assert (Hp : rev (map_to_list o) ≡ₚ map_to_list o)
      by (symmetry; apply Permutation_rev).
    rewrite <- (list_to_map_to_list o) at 2. apply list_to_map_proper; [|exact Hp].
    rewrite Hp. apply NoDup_fst_map_to_list.
Qed.

Lemma parse_ser (v : value) : is_json v = true → parses_back v.
Proof.
  induction v as [| |b|z|s|l IH|o IH|i] using value_nested_ind;
    intros Hj ind n rest Hn Hend; try discriminate;
    (destruct n as [|n]; [cbn in Hn; lia|]).
  - reflexivity.
  - by destruct b.
  - change (ser ind (VNum z)) with (show_Z z).
    rewrite <- (parse_number_show z rest Hj Hend).
    destruct z as [|p|p]; [reflexivity| |reflexivity].
    unfold show_Z.
    destruct (show_uint_head (Pos.to_uint p) rest) as (c & s' & -> & _ & Hd & Hc).
    { apply DecimalPos.Unsigned.to_uint_nonnil. }
    apply parse_value_number; [done|]. rewrite Hd. apply orb_true_r.
  - change (ser ind (VStr s)) with (quote_string s).
    destruct (parse_quote_string s rest) as (body & -> & Hp).
    rewrite parse_value_string, Hp. cbn [mbind res_bind].
    by rewrite string_of_list_ascii_of_string.
  - change (ser ind (VArr l)) with (wrap "[" "]" ind (map (ser (S ind)) l)).
    apply is_json_arr in Hj.
    destruct l as [|x l]; [reflexivity|].
    change (wrap "[" "]" ind (map (ser (S ind)) (x :: l)))
      with ("["%char :: nl_indent (S ind) ++ seq_body ind "]" (map (ser (S ind)) (x :: l))).
    rewrite <- app_comm_cons, <- app_assoc, parse_value_array, skip_ws_indent.
    assert (Hhd : ∃ c1 r1, seq_body ind "]" (map (ser (S ind)) (x :: l)) ++ rest = c1 :: r1
                           ∧ is_ws c1 = false ∧ Ascii.eqb c1 "]" = false).
    { destruct (ser_head (S ind) x) as (c & s' & Hx & Hc).
      cbn [map]. destruct (map (ser (S ind)) l); cbn [seq_body]; rewrite Hx;
        by eexists _, _. }
    destruct Hhd as (c1 & r1 & Heq & Hws & Hc1).
    rewrite Heq, (skip_ws_head _ _ Hws), Hc1, <- Heq.
    rewrite parse_elements_ser; [done|done| |].
    + rewrite List.Forall_forall in IH, Hj. apply List.Forall_forall.
      intros y Hy. apply IH; auto.
    + change (size (VArr (x :: l)))
        with (S (list_sum (map (fun x => S (size x)) (x :: l)))) in Hn. lia.
  - rewrite (ser_obj ind o Hj). apply is_json_obj in Hj.
    pose proof (obj_of_members_to_list o) as Hback.
    pose proof (size_obj_fold o) as Hsize.
    assert (IH' : Forall (fun p => parses_back p.2) (map_to_list o)).
    { apply List.Forall_forall. intros [k x] Hkx.
      rewrite List.Forall_forall in Hj. cbn.
      apply (IH k x); [by apply elem_of_map_to_list, list_elem_of_In|].
      apply (Hj (k, x) Hkx). }
    destruct (map_to_list o) as [|[k x] kvs] eqn:E.
    { apply map_to_list_empty_iff in E. subst o. reflexivity. }
    change (wrap "{" "}" ind (map (member_text ind) ((k, x) :: kvs)))
      with ("{"%char :: nl_indent (S ind)
              ++ seq_body ind "}" (map (member_text ind) ((k, x) :: kvs))).
    rewrite <- app_comm_cons, <- app_assoc, parse_value_object, skip_ws_indent.
    assert (Hhd : ∃ r1, seq_body ind "}" (map (member_text ind) ((k, x) :: kvs)) ++ rest
                        = dquote :: r1).
    { cbn [map]. unfold member_text at 1. unfold quote_string. cbn [fst snd].
      destruct (map (member_text ind) kvs); by eexists. }
    destruct Hhd as (r1 & Heq).
    rewrite Heq. change (skip_ws (dquote :: r1)) with (dquote :: r1). cbv iota.
    change (Ascii.eqb dquote "}") with false. cbv iota. rewrite <- Heq.
    rewrite parse_members_ser; [|done|done|lia].
    cbn [mbind res_bind]. by rewrite Hback.
Qed.

Lemma seq_body_length (ind : nat) (close : ascii) (items : list (list ascii)) :
  (list_sum (map (fun it => S (length it)) items) <= length (seq_body ind close items))%nat.
Proof.
  induction items as [|x items IH]; [done|].
  cbn [map]. rewrite list_sum_cons.
  destruct items as [|y items].
  - cbn [seq_body map list_sum fold_right]. rewrite !length_app. cbn. lia.
  - change (seq_body ind close (x :: y :: items))
      with (x ++ ","%char :: nl_indent (S ind) ++ seq_body ind close (y :: items)).
    rewrite length_app. cbn [length]. rewrite length_app. lia.
Qed.

Lemma wrap_length (op close : ascii) (ind : nat) (items : list (list ascii)) :
  (S (list_sum (map (fun it => S (length it)) items)) <= length (wrap op close ind items))%nat.
Proof.
  destruct items as [|x items]; [cbn; lia|].
  change (wrap op close ind (x :: items))
    with (op :: nl_indent (S ind) ++ seq_body ind close (x :: items)).
  cbn [length]. rewrite length_app. pose proof (seq_body_length ind close (x :: items)). lia.
Qed.

Lemma list_sum_le {A} (f g : A → nat) (l : list A) :
  Forall (fun x => (f x <= g x)%nat) l → (list_sum (map f l) <= list_sum (map g l))%nat.
Proof.
  induction 1 as [|x l Hx _ IH]; [done|]. cbn [map]. rewrite !list_sum_cons. lia.
Qed.

Lemma size_le_length (v : value) :
  is_json v = true → ∀ ind, (size v <= length (ser ind v))%nat.
Proof.
  induction v as [| |b|z|s|l IH|o IH|i] using value_nested_ind; intros Hj ind;
    try discriminate.
  - cbn. lia.
  - destruct b; cbn; lia.
  - change (ser ind (VNum z)) with (show_Z z). change (size (VNum z)) with 1%nat.
    destruct z as [|p|p]; [cbn; lia| |cbn; lia].
    destruct (show_uint_head (Pos.to_uint p) []) as (c & s' & Heq & _).
    { apply DecimalPos.Unsigned.to_uint_nonnil. }
    rewrite app_nil_r in Heq. unfold show_Z. rewrite Heq. cbn. lia.
  - change (size (VStr s)) with 1%nat. cbn. lia.
  - change (ser ind (VArr l)) with (wrap "[" "]" ind (map (ser (S ind)) l)).
    change (size (VArr l)) with (S (list_sum (map (fun x => S (size x)) l))).
    pose proof (wrap_length "[" "]" ind (map (ser (S ind)) l)) as Hw.
    rewrite map_map in Hw.
    enough (list_sum (map (fun x => S (size x)) l)
            <= list_sum (map (fun x => S (length (ser (S ind) x))) l))%nat by lia.
    apply list_sum_le. apply is_json_arr in Hj.
    rewrite List.Forall_forall in IH, Hj. apply List.Forall_forall.
    intros x Hx. specialize (IH x Hx (Hj x Hx) (S ind)). lia.
  - rewrite (ser_obj ind o Hj), size_obj_fold. apply is_json_obj in Hj.
    pose proof (wrap_length "{" "}" ind (map (member_text ind) (map_to_list o))) as Hw.
    rewrite map_map in Hw.
    enough (list_sum (map (fun p => S (size p.2)) (map_to_list o))
            <= list_sum (map (fun p => S (length (member_text ind p))) (map_to_list o)))%nat
      by lia.
    apply list_sum_le. rewrite List.Forall_forall in Hj. apply List.Forall_forall.
    intros [k x] Hx. cbn [snd].
    assert (Hs : (size x <= length (ser (S ind) x))%nat).
    { apply (IH k x); [by apply elem_of_map_to_list, list_elem_of_In|].
      apply (Hj (k, x) Hx). }
    unfold member_text. cbn [fst snd]. rewrite length_app. cbn [length]. lia.
Qed.

(** Text printed by [JSON.stringify] parses back to the value printed. *)
Theorem JSON_parse_stringify (v : value) :
  is_json v = true →
  ∃ text, JSON_stringify v = Some text ∧ JSON_parse text = Ok v.
Proof.
  intros Hj. exists (string_of_list_ascii (ser 0 v)). split.
  - by destruct v.
  - unfold JSON_parse. rewrite list_ascii_of_string_of_list_ascii.
    pose proof (skip_ws_ser 0 v []) as Hs. rewrite app_nil_r in Hs. rewrite Hs.
    pose proof (parse_ser v Hj 0%nat (2 * length (ser 0 v) + 2)%nat []) as Hp.
    rewrite app_nil_r in Hp. rewrite Hp; [done| |done].
    pose proof (size_le_length v Hj 0%nat). lia.
Qed.

Open Scope string_scope.

(** C9 (amended).  For a database whose values are all JSON values of the
    model (no [undefined], no infinite number, numbers that are exact
    integers) and that is an object with arrays for [investigations] and
    [evidence], the text written by [exportJSON] passes the validation of
    [importJSON], and importing it puts in the store a value equal to that
    database, whatever the store held. *)
Theorem export_import_roundtrip (db cur : value) :
  is_json db = true → valid_import db →
  JSON_parse (exportJSON db) = Ok db ∧
  import_checked (exportJSON db) = Ok db ∧
  after_import (exportJSON db) cur = Ok db.
Proof.
  intros Hj Hv. destruct (JSON_parse_stringify db Hj) as (text & Hs & Hp).
  unfold exportJSON. rewrite Hs. change (default "undefined" (Some text)) with text.
  pose proof (valid_import_checked text db Hp Hv) as Hc.
  split; [done|]. split; [done|].
  unfold after_import, importJSON. rewrite Hc. done.
Qed.

(** ** Instances *)

Lemma demo_store_enc : VObj demo_store = enc_db demo.
Proof. reflexivity. Qed.

(** Deleting A from the example leaves B and the evidence that does not
    refer to A. *)
Lemma deleteInvestigation_cascade_witness :
  demo_store !! "investigations"
    = Some (VArr [enc_investigation inv_A; enc_investigation inv_B]) ∧
  demo_store !! "evidence" = Some (VArr [enc_evidence ev_E1; enc_evidence ev_E2]) ∧
  Forall nonnullish [enc_investigation inv_A; enc_investigation inv_B] ∧
  Forall nonnullish [enc_evidence ev_E1; enc_evidence ev_E2] ∧
  run (deleteInvestigation true "A") (VObj demo_store)
    = Ok (VObj {[ "investigations" := VArr [enc_investigation inv_B];
                  "evidence" := VArr [enc_evidence ev_E2];
                  "version" := VNum 1 ]}).
Proof.
  assert (H1 : demo_store !! "investigations"
               = Some (VArr [enc_investigation inv_A; enc_investigation inv_B]))
    by reflexivity.
  assert (H2 : demo_store !! "evidence"
               = Some (VArr [enc_evidence ev_E1; enc_evidence ev_E2])) by reflexivity.
  assert (H3 : Forall nonnullish [enc_investigation inv_A; enc_investigation inv_B])
    by (repeat constructor).
  assert (H4 : Forall nonnullish [enc_evidence ev_E1; enc_evidence ev_E2])
    by (repeat constructor).
  split; [exact H1|]. split; [exact H2|]. split; [exact H3|]. split; [exact H4|].
  destruct (deleteInvestigation_cascade demo_store _ _ "A" H1 H2 H3 H4) as (_ & Hrun & _).
  rewrite Hrun. vm_compute. reflexivity.
Defined.

Lemma importJSON_validates_witness :
  JSON_parse not_an_array_doc
    = Ok (VObj {[ "investigations" := VStr "not-an-array"; "evidence" := VArr [] ]}) ∧
  import_checked not_an_array_doc = Throw (Error "Missing keys").
Proof.
  assert (H : JSON_parse not_an_array_doc
              = Ok (VObj {[ "investigations" := VStr "not-an-array";
                            "evidence" := VArr [] ]}))
    by (vm_compute; reflexivity).
  split; [exact H|].
  exact (proj1 (proj2 (proj2 (importJSON_validates _ _ H)))).
Defined.

(** The payload of the investigation form, submitted for A at time 20:
    the title and the status are those of the form, [id] and [createdAt]
    are those of A, and B is as it was. *)
Lemma update_merges_fields_witness :
  demo_store !! "investigations"
    = Some (VArr [enc_investigation inv_A; enc_investigation inv_B]) ∧
  Forall nonnullish [enc_investigation inv_A; enc_investigation inv_B] ∧
  investigation_payload form_A !! "id" = None ∧
  investigation_payload form_A !! "createdAt" = None ∧
  ∃ l' ro',
    run (updateInvestigation "A" (investigation_payload form_A) 20) (VObj demo_store)
      = Ok (VObj (<["investigations" := VArr l']> demo_store)) ∧
    l' !! 0%nat = Some (VObj ro') ∧ l' !! 1%nat = Some (enc_investigation inv_B) ∧
    ro' !! "id" = Some (VStr "A") ∧ ro' !! "createdAt" = Some (VNum 1) ∧
    ro' !! "updatedAt" = Some (VNum 20) ∧ ro' !! "status" = Some (VStr "Open") ∧
    ro' !! "title" = Some (VStr "Harbour").
Proof.
  assert (H1 : demo_store !! "investigations"
               = Some (VArr [enc_investigation inv_A; enc_investigation inv_B]))
    by reflexivity.
  assert (H2 : Forall nonnullish [enc_investigation inv_A; enc_investigation inv_B])
    by (repeat constructor).
  assert (H3 : investigation_payload form_A !! "id" = None) by reflexivity.
  assert (H4 : investigation_payload form_A !! "createdAt" = None) by reflexivity.
  split; [exact H1|]. split; [exact H2|]. split; [exact H3|]. split; [exact H4|].
  destruct (proj1 update_merges_fields demo_store _ "A" (investigation_payload form_A)
              20%Z H1 H2 H3 H4) as (l' & Hrun & _ & Hother & Hmatch & _).
  destruct (Hmatch 0%nat _ eq_refl eq_refl)
    as (ro & ro' & Heq & Hl0 & Hid & Hcr & Hup & Hset & _).
  apply (f_equal (fun v => match v with VObj x => x | _ => ∅ end)) in Heq. subst ro.
  exists l', ro'. split; [exact Hrun|]. split; [exact Hl0|].
  split; [exact (Hother 1%nat _ eq_refl eq_refl)|].
  split; [exact Hid|]. split; [exact Hcr|]. split; [exact Hup|].
  split; [by apply Hset|by apply Hset].
Defined.

(** The payload of the entry form, added to E1 at time 30: the entry has
    the generated identifier and the current time. *)
Lemma addEntry_prepends_witness :
  demo_store !! "evidence" = Some (VArr [enc_evidence ev_E1; enc_evidence ev_E2]) ∧
  entries_ready "E1" [enc_evidence ev_E1; enc_evidence ev_E2] ∧
  note_fields !! "id" = None ∧ note_fields !! "timestamp" = None ∧
  ∃ entry evs' eo',
    run (addEntry "E1" "N" 30 note_fields) (VObj demo_store)
      = Ok (VObj (<["evidence" := VArr evs']> demo_store)) ∧
    get "id" entry = Ok (VStr "N") ∧ get "timestamp" entry = Ok (VNum 30) ∧
    get "body" entry = Ok (VStr "found") ∧
    evs' !! 0%nat = Some (VObj eo') ∧ evs' !! 1%nat = Some (enc_evidence ev_E2) ∧
    eo' !! "entries" = Some (VArr [entry; enc_entry entry_Y; enc_entry entry_X]) ∧
    eo' !! "updatedAt" = Some (VNum 30).
Proof.
  assert (H1 : demo_store !! "evidence"
               = Some (VArr [enc_evidence ev_E1; enc_evidence ev_E2])) by reflexivity.
  assert (H2 : entries_ready "E1" [enc_evidence ev_E1; enc_evidence ev_E2]).
  { repeat constructor; intros _; eexists; reflexivity. }
  assert (H3 : note_fields !! "id" = None) by reflexivity.
  assert (H4 : note_fields !! "timestamp" = None) by reflexivity.
  split; [exact H1|]. split; [exact H2|]. split; [exact H3|]. split; [exact H4|].
  destruct (proj2 addEntry_prepends demo_store _ "E1" "N" 30%Z note_fields H1 H2 H3 H4)
    as (entry & evs' & Hrun & Hid & Hts & Hdata & _ & _ & Hother & Hmatch & _).
  destruct (Hmatch 0%nat _ eq_refl eq_refl)
    as (eo & eo' & old & _ & Hold & Hl0 & Hen & Hup & _).
  injection Hold as <-.
  exists entry, evs', eo'. split; [exact Hrun|]. split; [exact Hid|].
  split; [exact Hts|]. split; [by apply Hdata|]. split; [exact Hl0|].
  split; [exact (Hother 1%nat _ eq_refl eq_refl)|].
  split; [exact Hen|exact Hup].
Defined.

Lemma timestamps_ordered_without_import_witness :
  Forall (fun e => is_import e = false) demo_events ∧ clock_ok 0 demo_events ∧
  ∃ db, exec demo_events emptyDB = Ok db ∧ timestamps_ok db = true.
Proof.
  assert (H1 : Forall (fun e => is_import e = false) demo_events)
    by (repeat constructor).
  assert (H2 : clock_ok 0 demo_events) by (cbn; lia).
  split; [exact H1|]. split; [exact H2|].
  exact (timestamps_ordered_without_import demo_events 0%Z H1 H2).
Defined.

(** The clock matters as well: an update stamped before the creation
    breaks the order without any import. *)
Lemma clock_set_back_breaks_timestamp_order :
  (db ← exec [CreateInvestigation "A" 10 form_A; UpdateInvestigation "A" 5 form_A] emptyDB;
   Ok (timestamps_ok db)) = Ok false.
Proof. vm_compute. reflexivity. Qed.

(** C6, as stated, fails: Z has an [updatedAt], which is zero, and is
    sorted by its [createdAt], before Y, whose [updatedAt] is greater. *)
Lemma zero_updatedAt_sorted_by_createdAt :
  filteredInvestigations "All" EmptyString (enc_db zero_db)
    = Ok (map enc_investigation [inv_Z; inv_Y]) ∧
  inv_updatedAt inv_Z = Some 0%Z ∧ inv_updatedAt inv_Y = Some 50%Z ∧
  ¬ StronglySorted (fun a b => (updated_or_created b <= updated_or_created a)%Z)
      [inv_Z; inv_Y].
Proof.
  split; [vm_compute; reflexivity|]. split; [reflexivity|]. split; [reflexivity|].
  intros H. apply StronglySorted_inv in H as [_ H].
  apply Forall_inv in H. vm_compute in H. by apply H.
Qed.

(** In the example both investigations match [narco], B by a tag in
    capitals, and B, created at 9 and never updated, comes before A,
    updated at 4. *)
Lemma filteredInvestigations_example :
  filteredInvestigations "Closed" "narco" (enc_db demo)
  = Ok [enc_investigation inv_B; enc_investigation inv_A] ∧
  filteredInvestigations "Open" EmptyString (enc_db demo) = Ok [] ∧
  filteredInvestigations "All" "ROBBERY" (enc_db demo) = Ok [enc_investigation inv_A].
Proof. repeat split; vm_compute; reflexivity. Qed.

(** C8, as stated, fails in two ways.  An attachment with an empty label
    is written with the word [link], not as an empty label followed by the
    address; and a database with two entries, one of them with a time
    stamp that is not a valid time value, gives no row at all. *)
Lemma empty_label_and_invalid_time_in_export :
  exportCSV_rows demo_iso (enc_db blank_db)
  = Ok (map (map VStr)
          [ csv_header_names;
            [ EmptyString; EmptyString; EmptyString; EmptyString; "Scan"; "Digital";
              EmptyString; "1970-01-01T00:00:00.007Z"; "K9"; "scan";
              "link:http://x/3" ] ]) ∧
  map att_label (en_attachments entry_W) = [EmptyString] ∧
  map att_url (en_attachments entry_W) = ["http://x/3"] ∧
  entry_count late_db = 2%nat ∧
  exportCSV_rows demo_iso (enc_db late_db) = Throw RangeError ∧
  exportCSV demo_iso (enc_db late_db) = Throw RangeError.
Proof. repeat split; vm_compute; reflexivity. Qed.

Lemma exportCSV_one_row_per_entry_witness :
  exportable demo ∧
  exportCSV demo_iso (enc_db demo)
  = Ok (csv_text (csv_header_names :: csv_data_rows demo_iso demo)) ∧
  length (csv_data_rows demo_iso demo) = 3%nat ∧
  ¬ exportable late_db ∧ exportCSV demo_iso (enc_db late_db) = Throw RangeError.
Proof.
  assert (H : exportable demo).
  { repeat constructor; unfold exportable_entry; cbn; lia. }
  assert (H' : ¬ exportable late_db).
  { intros Hl. apply Forall_inv in Hl. apply Forall_inv_tail, Forall_inv in Hl.
    unfold exportable_entry in Hl. cbn in Hl. lia. }
  split; [exact H|].
  destruct (exportCSV_one_row_per_entry demo_iso demo) as (Hok & _ & Hlen & _).
  split; [exact (proj2 (Hok H))|]. split; [exact Hlen|]. split; [exact H'|].
  exact (proj2 (proj1 (proj2 (exportCSV_one_row_per_entry demo_iso late_db)) H')).
Defined.

(** The rows of the example: the body [hello, world] is quoted, [plain] is
    not, and the entry of the evidence whose investigation is gone still
    has its row, with four empty columns. *)
Lemma exportCSV_example :
  csv_data_rows demo_iso demo
  = [ [ "17"; "Harbour NARCOtics"; "Closed"; "robbery"; "Knife"; "Physical"; "steel";
        "1970-01-01T00:00:00.008Z"; "K9"; "hello, world";
        "photo:http://x/1 | http://x/2:http://x/2" ];
      [ "17"; "Harbour NARCOtics"; "Closed"; "robbery"; "Knife"; "Physical"; "steel";
        "1970-01-01T00:00:00.007Z"; "Unknown"; "plain"; EmptyString ];
      [ EmptyString; EmptyString; EmptyString; EmptyString; "Tape"; "Media"; EmptyString;
        "1970-01-01T00:00:00.007Z"; "Unknown"; "plain"; EmptyString ] ] ∧
  csv_field "hello, world" = quoted "hello, world" ∧ csv_field "plain" = "plain".
Proof. repeat split; vm_compute; reflexivity. Qed.

(** C9, as stated, fails.  The document with the version [1e999] passes
    the validation of [importJSON] and puts in the store a database whose
    version is [Infinity]; the export writes [null] for it, and importing
    the exported text gives a database whose version is [null]. *)
Lemma infinite_number_exported_as_null :
  after_import overflow_doc emptyDB = Ok overflow_db ∧
  valid_import overflow_db ∧
  get "version" overflow_db = Ok (VInf false) ∧
  after_import (exportJSON overflow_db) overflow_db = Ok overflow_db_exported ∧
  get "version" overflow_db_exported = Ok VNull ∧
  overflow_db_exported ≠ overflow_db.
Proof.
  split; [vm_compute; reflexivity|]. split.
  { eexists _, _, _. split; [reflexivity|]. split; reflexivity. }
  split; [reflexivity|]. split; [vm_compute; reflexivity|]. split; [reflexivity|].
  intros H. apply (f_equal (get "version")) in H. vm_compute in H. discriminate.
Qed.

Lemma export_import_roundtrip_witness :
  is_json (enc_db demo) = true ∧ valid_import (enc_db demo) ∧
  after_import (exportJSON (enc_db demo)) emptyDB = Ok (enc_db demo).
Proof.
  assert (H1 : is_json (enc_db demo) = true) by (vm_compute; reflexivity).
  assert (H2 : valid_import (enc_db demo)).
  { eexists _, _, _. split; [reflexivity|]. split; reflexivity. }
  split; [exact H1|]. split; [exact H2|].
  exact (proj2 (proj2 (export_import_roundtrip (enc_db demo) emptyDB H1 H2))).
Defined.

(** * Further properties *)

(** ** The handlers on databases of records *)

Lemma has_id_investigation (id : string) (i : Investigation) :
  has_id id (enc_investigation i) = String.eqb (inv_id i) id.
Proof. unfold has_id, enc_investigation. by destruct (inv_updatedAt i). Qed.

Lemma has_id_evidence (id : string) (e : Evidence) :
  has_id id (enc_evidence e) = String.eqb (ev_id e) id.
Proof. reflexivity. Qed.

Lemma owned_by_evidence (id : string) (e : Evidence) :
  owned_by id (enc_evidence e) = String.eqb (ev_investigationId e) id.
Proof. reflexivity. Qed.

Lemma nonnullish_investigations (l : list Investigation) :
  Forall nonnullish (map enc_investigation l).
Proof. apply Forall_fmap, Forall_forall. by intros i _. Qed.

Lemma nonnullish_evidence (l : list Evidence) : Forall nonnullish (map enc_evidence l).
Proof. apply Forall_fmap, Forall_forall. by intros i _. Qed.

Lemma merged_investigation (id : string) (now : Z) (p : InvestigationPayload)
    (i : Investigation) :
  merged id (investigation_payload p) now (enc_investigation i)
  = enc_investigation (edit_investigation id now p i).
Proof.
  unfold merged, edit_investigation. rewrite has_id_investigation.
  destruct (String.eqb (inv_id i) id); [|done].
  unfold enc_investigation. by destruct (inv_updatedAt i).
Qed.

Lemma merged_evidence (id : string) (now : Z) (p : EvidencePayload) (e : Evidence) :
  merged id (evidence_payload p) now (enc_evidence e)
  = enc_evidence (edit_evidence id now p e).
Proof.
  unfold merged, edit_evidence. rewrite has_id_evidence.
  by destruct (String.eqb (ev_id e) id).
Qed.

Lemma with_entry_evidence (id newid : string) (now : Z) (p : EntryPayload)
    (e : Evidence) :
  with_entry id (VObj (entry_payload p ∪ {[ "id" := VStr newid; "timestamp" := VNum now ]}))
             now (enc_evidence e)
  = enc_evidence (extend_evidence id (new_entry newid now p) now e).
Proof.
  unfold with_entry, extend_evidence. rewrite has_id_evidence.
  by destruct (String.eqb (ev_id e) id).
Qed.

Lemma entries_ready_evidence (id : string) (l : list Evidence) :
  entries_ready id (map enc_evidence l).
Proof.
  apply Forall_fmap, Forall_forall. intros e _. split; [done|].
  intros _. by exists (map enc_entry (ev_entries e)).
Qed.

Lemma filter_enc {A} (enc : A → value) (q : value → bool) (l : list A) :
  filter (fun v => q v) (map enc l) = map enc (filter (fun x => q (enc x)) l).
Proof.
  induction l as [|x l IH]; [done|]. cbn [map]. rewrite !filter_cons, IH.
  by destruct (q (enc x)).
Qed.

Lemma deleteInvestigation_run (o : gmap string value) (invs evs : list value)
    (id : string) :
  o !! "investigations" = Some (VArr invs) → o !! "evidence" = Some (VArr evs) →
  Forall nonnullish invs → Forall nonnullish evs →
  run (deleteInvestigation true id) (VObj o)
  = Ok (VObj (<["evidence" := VArr (filter (fun e => negb (owned_by id e)) evs)]>
                (<["investigations" := VArr (filter (fun i => negb (has_id id i)) invs)]>
                   o))).
Proof.
  intros Hi He Fi Fe. cbn. rewrite Hi, He. cbn.
  rewrite (filterM_ok _ (fun i => negb (has_id id i)) invs).
  2:{ eapply Forall_impl; [exact Fi|]. intros i Hn. unfold has_id.
      destruct (nonnullish_get "id" i Hn) as [x ->]; done. }
  cbn. rewrite (filterM_ok _ (fun e => negb (owned_by id e)) evs).
  2:{ eapply Forall_impl; [exact Fe|]. intros e Hn. unfold owned_by.
      destruct (nonnullish_get "investigationId" e Hn) as [x ->]; done. }
  done.
Qed.

Lemma deleteEvidence_run (o : gmap string value) (evs : list value) (id : string) :
  o !! "evidence" = Some (VArr evs) → Forall nonnullish evs →
  run (deleteEvidence true id) (VObj o)
  = Ok (VObj (<["evidence" := VArr (filter (fun e => negb (has_id id e)) evs)]> o)).
Proof.
  intros He Fe. cbn. rewrite He. cbn.
  rewrite (filterM_ok _ (fun e => negb (has_id id e)) evs).
  2:{ eapply Forall_impl; [exact Fe|]. intros e Hn. unfold has_id.
      destruct (nonnullish_get "id" e Hn) as [x ->]; done. }
  done.
Qed.

(** One event other than an import, on a database of records. *)
Lemma step_records (e : event) (d : Database) :
  is_import e = false →
  ∃ us, handle e = Ok us ∧ run us (enc_db d) = Ok (enc_db (apply_event e d)).
Proof.
  intros He. destruct e as [newid now p|id now p|[] id|invId newid now p|id now p|[] id
                           |eid newid now p|content]; try discriminate;
    eexists; (split; [reflexivity|]); cbn [apply_event]; unfold enc_db at 1.
  - reflexivity.
  - erewrite updateInvestigation_run;
      [|reflexivity|apply nonnullish_investigations].
    rewrite <- list_fmap_compose.
    erewrite (list_fmap_ext _ (enc_investigation ∘ edit_investigation id now p));
      [|intros; apply merged_investigation].
    by rewrite list_fmap_compose.
  - erewrite deleteInvestigation_run;
      [|reflexivity|reflexivity|apply nonnullish_investigations|apply nonnullish_evidence].
    rewrite (filter_enc enc_investigation (fun i => negb (has_id id i))).
    rewrite (filter_enc enc_evidence (fun e => negb (owned_by id e))).
    erewrite (list_filter_iff _ (fun i => negb (String.eqb (inv_id i) id)));
      [|intros i; by rewrite has_id_investigation].
    reflexivity.
  - reflexivity.
  - reflexivity.
  - erewrite updateEvidence_run; [|reflexivity|apply nonnullish_evidence].
    rewrite <- list_fmap_compose.
    erewrite (list_fmap_ext _ (enc_evidence ∘ edit_evidence id now p));
      [|intros; apply merged_evidence].
    by rewrite list_fmap_compose.
  - erewrite deleteEvidence_run; [|reflexivity|apply nonnullish_evidence].
    rewrite (filter_enc enc_evidence (fun e => negb (has_id id e))).
    reflexivity.
  - reflexivity.
  - erewrite addEntry_run; [|reflexivity|apply entries_ready_evidence].
    rewrite <- list_fmap_compose.
    erewrite (list_fmap_ext _ (enc_evidence ∘ extend_evidence eid (new_entry newid now p) now));
      [|intros; apply with_entry_evidence].
    by rewrite list_fmap_compose.
Qed.

Lemma exec_records (es : list event) (d : Database) :
  Forall (fun e => is_import e = false) es →
  exec es (enc_db d) = Ok (enc_db (apply_events es d)).
Proof.
  intros Hes. revert d. induction Hes as [|e es He _ IH]; intros d; [done|].
  destruct (step_records e d He) as (us & Hus & Hrun).
  cbn [exec]. rewrite Hus. cbn. rewrite Hrun. cbn. apply IH.
Qed.

(** X1.  Starting from a database of records of the shapes of lines 23-26,
    every sequence of creations, updates, deletions and entry additions
    with the payloads of the forms runs through and yields a database of
    such records: the one that [apply_events] describes.  In particular
    every handler keeps [version] and the collection it does not work
    on. *)
Theorem handlers_keep_record_shapes (es : list event) (d : Database) :
  Forall (fun e => is_import e = false) es →
  exec es (enc_db d) = Ok (enc_db (apply_events es d)) ∧
  db_version (apply_events es d) = db_version d.
Proof.
  intros Hes. split; [by apply exec_records|].
  clear Hes. revert d. induction es as [|e es IH]; intros d; [done|].
  cbn. fold (apply_events es (apply_event e d)). rewrite IH.
  destruct e as [| |[]| | |[]| |]; reflexivity.
Qed.

(** ** Identifiers and references *)

Lemma ids_of_spec (d : Database) (x : string) :
  x ∈ ids_of d ↔
    (∃ i, i ∈ db_investigations d ∧ inv_id i = x) ∨
    (∃ e, e ∈ db_evidence d ∧ ev_id e = x) ∨
    (∃ e n, e ∈ db_evidence d ∧ n ∈ ev_entries e ∧ en_id n = x).
Proof.
  unfold ids_of. rewrite !elem_of_app, !list_elem_of_fmap.
  rewrite list_elem_of_In, in_flat_map.
  setoid_rewrite <- list_elem_of_In. setoid_rewrite list_elem_of_fmap.
  split.
  - intros [(i & -> & H)|[(e & -> & H)|(e & H & n & -> & H')]]; eauto 8.
  - intros [(i & H & <-)|[(e & H & <-)|(e & n & H & H' & <-)]]; eauto 8.
Qed.

Lemma edit_investigation_id (id : string) (now : Z) (p : InvestigationPayload)
    (l : list Investigation) :
  map inv_id (map (edit_investigation id now p) l) = map inv_id l.
Proof.
  rewrite map_map. apply map_ext. intros i. unfold edit_investigation.
  by destruct (String.eqb (inv_id i) id).
Qed.

Lemma edit_evidence_id (id : string) (now : Z) (p : EvidencePayload) (l : list Evidence) :
  map ev_id (map (edit_evidence id now p) l) = map ev_id l.
Proof.
  rewrite map_map. apply map_ext. intros e. unfold edit_evidence.
  by destruct (String.eqb (ev_id e) id).
Qed.

Lemma extend_evidence_id (id : string) (en : Entry) (now : Z) (l : list Evidence) :
  map ev_id (map (extend_evidence id en now) l) = map ev_id l.
Proof.
  rewrite map_map. apply map_ext. intros e. unfold extend_evidence.
  by destruct (String.eqb (ev_id e) id).
Qed.

Lemma NoDup_map_filter {A B} (f : A → B) (q : A → bool) (l : list A) :
  NoDup (map f l) → NoDup (map f (filter (fun x => q x) l)).
Proof.
  intros H. eapply sublist_NoDup; [exact H|].
  apply fmap_sublist, sublist_filter.
Qed.

Lemma Forall_filter_keep {A} (P : A → Prop) (q : A → bool) (l : list A) :
  Forall P l → Forall P (filter (fun x => q x) l).
Proof.
  rewrite !Forall_forall. intros H x Hx. apply list_elem_of_filter in Hx. apply H, Hx.
Qed.

(** One event keeps the identifiers distinct and among the used ones. *)
Lemma step_unique_ids (e : event) (es : list event) (used : list string) (d : Database) :
  unique_ids d → (∀ x, x ∈ ids_of d → x ∈ used) → fresh_ids used (e :: es) →
  ∃ used', unique_ids (apply_event e d) ∧
           (∀ x, x ∈ ids_of (apply_event e d) → x ∈ used') ∧ fresh_ids used' es.
Proof.
  intros (Hi & He & Hn) Hused Hfresh.
  assert (Hin : ∀ i, i ∈ db_investigations d → inv_id i ∈ used).
  { intros i H. apply Hused, ids_of_spec. eauto. }
  assert (Hev : ∀ e, e ∈ db_evidence d → ev_id e ∈ used).
  { intros e' H. apply Hused, ids_of_spec. eauto. }
  assert (Hen : ∀ e n, e ∈ db_evidence d → n ∈ ev_entries e → en_id n ∈ used).
  { intros e' n H1 H2. apply Hused, ids_of_spec. right. right. eauto. }
  destruct e as [newid now p|id now p|[] id|invId newid now p|id now p|[] id
                |eid newid now p|content]; cbn [fresh_ids] in Hfresh.
  - destruct Hfresh as [Hnew Hfresh]. exists (newid :: used).
    split; [|split; [|done]].
    + split; [|done]. cbn. apply NoDup_cons. split; [|done].
      intros H. apply list_elem_of_fmap in H as (i & -> & H). by apply Hnew, Hin.
    + intros x Hx. apply ids_of_spec in Hx. cbn in Hx.
      destruct Hx as [(i & H & <-)|Hx].
      * apply elem_of_cons in H as [->|H]; [left|right; by apply Hin].
      * right. apply Hused, ids_of_spec. by right.
  - exists used. split; [|split; [|done]].
    + split; [|done]. cbn. by rewrite edit_investigation_id.
    + intros x Hx. apply Hused. apply ids_of_spec in Hx. apply ids_of_spec.
      destruct Hx as [(i & H & <-)|Hx]; [|by right].
      left. cbn in H. apply list_elem_of_fmap in H as (j & -> & H).
      exists j. split; [done|]. unfold edit_investigation.
      by destruct (String.eqb (inv_id j) id).
  - exists used. split; [|split; [|done]].
    + split; [|split]; cbn.
      * by apply (NoDup_map_filter inv_id (fun i => negb (String.eqb (inv_id i) id))).
      * by apply (NoDup_map_filter ev_id
                    (fun e => negb (String.eqb (ev_investigationId e) id))).
      * by apply (Forall_filter_keep _
                    (fun e => negb (String.eqb (ev_investigationId e) id))).
    + intros x Hx. apply Hused. apply ids_of_spec in Hx. apply ids_of_spec.
      cbn in Hx. setoid_rewrite list_elem_of_filter in Hx.
      destruct Hx as [(i & [_ H] & <-)|[(e & [_ H] & <-)|(e & n & [_ H] & H' & <-)]];
        eauto 8.
  - exists used. done.
  - destruct Hfresh as [Hnew Hfresh]. exists (newid :: used).
    split; [|split; [|done]].
    + split; [done|]. split; cbn.
      * apply NoDup_cons. split; [|done].
        intros H. apply list_elem_of_fmap in H as (i & -> & H). by apply Hnew, Hev.
      * constructor; [constructor|done].
    + intros x Hx. apply ids_of_spec in Hx. cbn in Hx.
      destruct Hx as [Hx|[(e & H & <-)|(e & n & H & H' & <-)]].
      * right. apply Hused, ids_of_spec. by left.
      * apply elem_of_cons in H as [->|H]; [left|right; by apply Hev].
      * apply elem_of_cons in H as [->|H]; [by apply elem_of_nil in H'|].
        right. by eapply Hen.
  - exists used. split; [|split; [|done]].
    + split; [done|]. split; cbn; [by rewrite edit_evidence_id|].
      apply Forall_fmap. eapply Forall_impl; [exact Hn|]. intros e H. cbn.
      unfold edit_evidence. by destruct (String.eqb (ev_id e) id).
    + intros x Hx. apply Hused. apply ids_of_spec in Hx. apply ids_of_spec.
      cbn in Hx. setoid_rewrite list_elem_of_fmap in Hx.
      destruct Hx as [Hx|[(e & (j & -> & H) & <-)|(e & n & (j & -> & H) & H' & <-)]].
      * by left.
      * right. left. exists j. split; [done|]. unfold edit_evidence.
        by destruct (String.eqb (ev_id j) id).
      * right. right. exists j, n. split; [done|]. split; [|done].
        unfold edit_evidence in H'. by destruct (String.eqb (ev_id j) id).
  - exists used. split; [|split; [|done]].
    + split; [done|]. split; cbn.
      * by apply (NoDup_map_filter ev_id (fun e => negb (String.eqb (ev_id e) id))).
      * by apply (Forall_filter_keep _ (fun e => negb (String.eqb (ev_id e) id))).
    + intros x Hx. apply Hused. apply ids_of_spec in Hx. apply ids_of_spec.
      cbn in Hx. setoid_rewrite list_elem_of_filter in Hx.
      destruct Hx as [(i & H & <-)|[(e & [_ H] & <-)|(e & n & [_ H] & H' & <-)]];
        eauto 8.
  - exists used. done.
  - destruct Hfresh as [Hnew Hfresh]. exists (newid :: used).
    split; [|split; [|done]].
    + split; [done|]. split; cbn; [by rewrite extend_evidence_id|].
      apply Forall_fmap. rewrite Forall_forall in Hn |- *. intros e H. cbn.
      unfold extend_evidence. destruct (String.eqb (ev_id e) eid); [|by apply Hn].
      cbn. apply NoDup_cons. split; [|by apply Hn].
      intros H'. apply list_elem_of_fmap in H' as (n & -> & H'). by eapply Hnew, Hen.
    + intros x Hx. apply ids_of_spec in Hx.
      cbn in Hx. setoid_rewrite list_elem_of_fmap in Hx.
      destruct Hx as [Hx|[(e & (j & -> & H) & <-)|(e & n & (j & -> & H) & H' & <-)]].
      * right. apply Hused, ids_of_spec. by left.
      * right. apply Hused, ids_of_spec. right. left. exists j. split; [done|].
        unfold extend_evidence. by destruct (String.eqb (ev_id j) eid).
      * unfold extend_evidence in H'. destruct (String.eqb (ev_id j) eid).
        -- cbn in H'. apply elem_of_cons in H' as [->|H']; [left|right; by eapply Hen].
        -- right. by eapply Hen.
  - exists used. done.
Qed.

Lemma apply_events_unique_ids (es : list event) (used : list string) (d : Database) :
  unique_ids d → (∀ x, x ∈ ids_of d → x ∈ used) → fresh_ids used es →
  unique_ids (apply_events es d).
Proof.
  revert used d. induction es as [|e es IH]; intros used d Hd Hused Hfresh; [done|].
  destruct (step_unique_ids e es used d Hd Hused Hfresh) as (used' & H1 & H2 & H3).
  cbn. by apply (IH used').
Qed.

(** X2.  Identifiers stay distinct.  Let the investigations of a database of
    records have pairwise distinct ids, and so the evidence records, and so
    the entries of each thread.  After any sequence of creations, updates,
    deletions and entry additions in which every generated identifier is
    new (none of [used], which holds the ids of the database, and none
    generated before), this is still so. *)
Theorem ids_stay_unique (es : list event) (used : list string) (d : Database) :
  Forall (fun e => is_import e = false) es →
  unique_ids d → (∀ x, x ∈ ids_of d → x ∈ used) → fresh_ids used es →
  exec es (enc_db d) = Ok (enc_db (apply_events es d)) ∧
  unique_ids (apply_events es d).
Proof.
  intros Hes Hd Hused Hfresh. split; [by apply exec_records|].
  by apply (apply_events_unique_ids es used).
Qed.

Lemma step_no_orphans (e : event) (d : Database) :
  no_orphans d →
  match e with CreateEvidence invId _ _ _ => resolves d invId | _ => True end →
  no_orphans (apply_event e d).
Proof.
  unfold no_orphans, resolves. rewrite !Forall_forall. intros Hd Hpre.
  destruct e as [newid now p|id now p|[] id|invId newid now p|id now p|[] id
                |eid newid now p|content]; cbn; try done.
  - intros e He. destruct (Hd e He) as (i & Hi & Hid). exists i. split; [by right|done].
  - intros e He. destruct (Hd e He) as (i & Hi & Hid).
    exists (edit_investigation id now p i). split.
    + apply in_map_iff. eauto.
    + unfold edit_investigation. by destruct (String.eqb (inv_id i) id).
  - intros e He. apply list_elem_of_filter in He as [Hne He].
    destruct (Hd e He) as (i & Hi & Hid). exists i. split; [|done].
    apply list_elem_of_In, list_elem_of_filter. split; [|by apply list_elem_of_In].
    by rewrite Hid.
  - intros e He. apply elem_of_cons in He as [->|He]; [done|by apply Hd].
  - intros e He. apply list_elem_of_fmap in He as (j & -> & He).
    unfold edit_evidence. destruct (String.eqb (ev_id j) id); cbn; by apply Hd.
  - intros e He. apply list_elem_of_filter in He as [_ He]. by apply Hd.
  - intros e He. apply list_elem_of_fmap in He as (j & -> & He).
    unfold extend_evidence. destruct (String.eqb (ev_id j) eid); cbn; by apply Hd.
Qed.

Lemma apply_events_no_orphans (es : list event) (d : Database) :
  no_orphans d → parents_known d es → no_orphans (apply_events es d).
Proof.
  revert d. induction es as [|e es IH]; intros d Hd Hes; [done|].
  destruct Hes as [He Hes]. cbn. apply IH; [|done]. by apply step_no_orphans.
Qed.

(** X3.  Evidence does not outlive its investigation.  In a database of
    records where every evidence record refers to an investigation that is
    there, this is still so after any sequence of creations, updates,
    deletions and entry additions, provided evidence is only created for
    an investigation that is there at that moment: it is the cascade of
    [deleteInvestigation] that keeps it so. *)
Theorem evidence_never_orphaned (es : list event) (d : Database) :
  Forall (fun e => is_import e = false) es →
  no_orphans d → parents_known d es →
  exec es (enc_db d) = Ok (enc_db (apply_events es d)) ∧
  no_orphans (apply_events es d).
Proof.
  intros Hes Hd Hp. split; [by apply exec_records|by apply apply_events_no_orphans].
Qed.

Lemma thread_ordered_mono (t t' : Z) (e : Evidence) :
  (t <= t')%Z → thread_ordered t e → thread_ordered t' e.
Proof.
  intros Ht [H1 H2]. split; [done|]. eapply Forall_impl; [exact H2|]. cbn. intros; lia.
Qed.

Lemma step_threads_ordered (e : event) (t : Z) (d : Database) :
  threads_ordered t d → (t <= default t (event_time e))%Z →
  threads_ordered (default t (event_time e)) (apply_event e d).
Proof.
  unfold threads_ordered. intros Hd Ht.
  assert (Hmono : Forall (thread_ordered (default t (event_time e))) (db_evidence d)).
  { eapply Forall_impl; [exact Hd|]. intros ev. by apply thread_ordered_mono. }
  destruct e as [newid now p|id now p|[] id|invId newid now p|id now p|[] id
                |eid newid now p|content]; cbn in *; try done.
  - by apply (Forall_filter_keep _ (fun e => negb (String.eqb (ev_investigationId e) id))).
  - constructor; [|done]. split; constructor.
  - apply Forall_fmap. eapply Forall_impl; [exact Hmono|]. intros ev Hev. cbn.
    unfold edit_evidence. by destruct (String.eqb (ev_id ev) id).
  - by apply (Forall_filter_keep _ (fun e => negb (String.eqb (ev_id e) id))).
  - apply Forall_fmap. rewrite Forall_forall in Hd |- *. intros ev Hev. cbn.
    unfold extend_evidence. destruct (String.eqb (ev_id ev) eid).
    + destruct (Hd ev Hev) as [H1 H2]. split; cbn.
      * constructor; [done|]. eapply Forall_impl; [exact H2|]. cbn. intros; lia.
      * constructor; [cbn; lia|]. eapply Forall_impl; [exact H2|]. cbn. intros; lia.
    + apply (thread_ordered_mono t); [done|]. by apply Hd.
Qed.

Lemma apply_events_threads_ordered (es : list event) (t : Z) (d : Database) :
  threads_ordered t d → clock_ok t es → ∃ t', threads_ordered t' (apply_events es d).
Proof.
  revert t d. induction es as [|e es IH]; intros t d Hd Hclock; [by exists t|].
  cbn [clock_ok] in Hclock. cbn.
  destruct (event_time e) as [now|] eqn:E.
  - destruct Hclock as [Hle Hclock]. apply (IH now); [|done].
    pose proof (step_threads_ordered e t d Hd) as H. rewrite E in H. by apply H.
  - apply (IH t); [|done].
    pose proof (step_threads_ordered e t d Hd) as H. rewrite E in H. apply H. cbn. lia.
Qed.

(** X4.  A thread reads newest first.  In a database of records where the
    entries of every thread are in order of time, newest first, and none
    is later than the clock, this is still so after any sequence of
    creations, updates, deletions and entry additions made at clock
    readings that never decrease: [addEntry] puts the entry in front, and
    nothing else touches a thread. *)
Theorem threads_stay_newest_first (es : list event) (t : Z) (d : Database) :
  Forall (fun e => is_import e = false) es →
  threads_ordered t d → clock_ok t es →
  exec es (enc_db d) = Ok (enc_db (apply_events es d)) ∧
  Forall (fun e => StronglySorted (fun a b => (en_timestamp b <= en_timestamp a)%Z)
                                  (ev_entries e))
         (db_evidence (apply_events es d)).
Proof.
  intros Hes Hd Hclock. split; [by apply exec_records|].
  destruct (apply_events_threads_ordered es t d Hd Hclock) as [t' H].
  eapply Forall_impl; [exact H|]. by intros e [He _].
Qed.

(** ** Persistence: [saveDB] and [loadDB] *)

Open Scope list_scope.

Lemma commas_cons (x y : list ascii) (items : list (list ascii)) :
  commas (x :: y :: items) = x ++ ","%char :: commas (y :: items).
Proof. reflexivity. Qed.

Lemma ser_compact_obj (o : gmap string value) :
  is_json (VObj o) = true →
  ser_compact (VObj o) = "{"%char :: commas (map member_compact (map_to_list o)) ++ ["}"%char].
Proof.
  intros H. apply is_json_obj in H.
  change (ser_compact (VObj o)) with
    ("{"%char ::
     commas (map_fold (fun k x acc =>
                         if is_undef x then acc
                         else (quote_string k ++ ":"%char :: ser_compact x) :: acc)
                      [] o) ++ ["}"%char]).
  do 3 f_equal. rewrite map_fold_foldr.
  induction H as [|[k x] l Hx _ IH]; [done|].
  cbn [foldr map]. rewrite <- IH. cbn in Hx. by destruct x.
Qed.

Lemma ser_compact_head (v : value) :
  ∃ c s', ser_compact v = c :: s' ∧ is_ws c = false ∧ Ascii.eqb c "]" = false.
Proof.
  destruct v as [| |[]|z|s|l|o|i]; try (by eexists _, _).
  destruct z as [|p|p]; try (by eexists _, _).
  destruct (show_uint_head (Pos.to_uint p) []) as (c & s' & Heq & _ & _ & Hc).
  { apply DecimalPos.Unsigned.to_uint_nonnil. }
  rewrite app_nil_r in Heq. exists c, s'. split; [exact Heq|].
  destruct Hc as (_ & _ & _ & _ & _ & _ & ? & ?). done.
Qed.

Lemma skip_ws_ser_compact (v : value) (rest : list ascii) :
  skip_ws (ser_compact v ++ rest) = ser_compact v ++ rest.
Proof.
  destruct (ser_compact_head v) as (c & s' & -> & Hc & _). by apply skip_ws_head.
Qed.

Lemma commas_head (x : value) (l : list value) (rest : list ascii) :
  ∃ c r, commas (map ser_compact (x :: l)) ++ rest = c :: r
         ∧ is_ws c = false ∧ Ascii.eqb c "]" = false.
Proof.
  destruct (ser_compact_head x) as (c & s' & Hx & Hc).
  cbn [map]. destruct (map ser_compact l); cbn [commas]; rewrite Hx; by eexists _, _.
Qed.

Lemma parse_elements_compact (l : list value) (rest : list ascii) :
  l ≠ [] → Forall parses_back_compact l →
  ∀ n, (list_sum (map (fun x => S (size x)) l) <= n)%nat →
    parse_elements n (commas (map ser_compact l) ++ "]"%char :: rest) = Ok (l, rest).
Proof.
  intros Hne Hl. induction Hl as [|x l Hx Hl IH]; [done|]. clear Hne.
  intros n Hn. cbn [map] in Hn. rewrite list_sum_cons in Hn.
  destruct n as [|n]; [lia|]. rewrite parse_elements_eq.
  destruct l as [|y l].
  - cbn [map commas]. rewrite Hx; [|cbn in Hn; lia|reflexivity]. reflexivity.
  - cbn [map]. rewrite commas_cons, <- app_assoc, <- app_comm_cons.
    rewrite Hx; [|lia|reflexivity].
    cbn [mbind res_bind].
    change (skip_ws (","%char :: ?s)) with (","%char :: s).
    cbv iota. change (Ascii.eqb "," ",") with true. cbv iota.
    destruct (commas_head y l ("]"%char :: rest)) as (c & r & Heq & Hc & _).
    change (ser_compact y :: map ser_compact l) with (map ser_compact (y :: l)).
    rewrite Heq, (skip_ws_head _ _ Hc), <- Heq.
    rewrite IH; [done|done|lia].
Qed.

Lemma member_compact_body (k : string) (x : value) (tail : list ascii) :
  ∃ body, member_compact (k, x) ++ tail = dquote :: body ∧
    parse_string_body body
      = Ok (list_ascii_of_string k, ":"%char :: ser_compact x ++ tail).
Proof.
  unfold member_compact. cbn [fst snd].
  destruct (parse_quote_string k (":"%char :: ser_compact x ++ tail)) as (body & Hb & Hp).
  exists body. split; [|exact Hp]. rewrite <- Hb, <- app_assoc. done.
Qed.

Lemma parse_members_compact (kvs : list (string * value)) (rest : list ascii) :
  kvs ≠ [] → Forall (fun p => parses_back_compact p.2) kvs →
  ∀ n, (list_sum (map (fun p => S (size p.2)) kvs) <= n)%nat →
    parse_members n (commas (map member_compact kvs) ++ "}"%char :: rest) = Ok (kvs, rest).
Proof.
  intros Hne Hl. induction Hl as [|[k x] l Hx Hl IH]; [done|]. clear Hne.
  intros n Hn. cbn [map snd] in Hn. rewrite list_sum_cons in Hn.
  destruct n as [|n]; [lia|]. cbn [snd] in Hx.
  destruct l as [|[k' y] l].
  - cbn [map commas].
    destruct (member_compact_body k x ("}"%char :: rest)) as (body & -> & Hp).
    rewrite parse_members_eq, Hp. cbn [mbind res_bind].
    change (skip_ws (":"%char :: ?s)) with (":"%char :: s). cbv iota.
    change (Ascii.eqb ":" ":") with true. cbv iota.
    rewrite skip_ws_ser_compact. rewrite Hx; [|lia|reflexivity].
    cbn [mbind res_bind].
    rewrite string_of_list_ascii_of_string. reflexivity.
  - cbn [map]. rewrite commas_cons, <- app_assoc, <- app_comm_cons.
    set (tail := ","%char :: commas (member_compact (k', y) :: map member_compact l)
                   ++ "}"%char :: rest).
    destruct (member_compact_body k x tail) as (body & -> & Hp).
    rewrite parse_members_eq, Hp. cbn [mbind res_bind].
    change (skip_ws (":"%char :: ?s)) with (":"%char :: s). cbv iota.
    change (Ascii.eqb ":" ":") with true. cbv iota.
    rewrite skip_ws_ser_compact. rewrite Hx; [|lia|reflexivity].
    cbn [mbind res_bind]. unfold tail.
    change (skip_ws (","%char :: ?s)) with (","%char :: s). cbv iota.
    change (Ascii.eqb "," ",") with true. cbv iota.
    assert (Hsk : ∀ r, skip_ws (commas (member_compact (k', y) :: map member_compact l) ++ r)
                       = commas (member_compact (k', y) :: map member_compact l) ++ r).
    { intros r. unfold member_compact at 1. unfold quote_string. cbn [fst snd].
      destruct (map member_compact l); reflexivity. }
    rewrite Hsk.
    change (member_compact (k', y) :: map member_compact l)
      with (map member_compact ((k', y) :: l)).
    rewrite IH; [|done|lia]. cbn [mbind res_bind].
    rewrite string_of_list_ascii_of_string. reflexivity.
Qed.

Lemma parse_ser_compact (v : value) : is_json v = true → parses_back_compact v.
Proof.
  induction v as [| |b|z|s|l IH|o IH|i] using value_nested_ind;
    intros Hj n rest Hn Hend; try discriminate;
    (destruct n as [|n]; [cbn in Hn; lia|]).
  - reflexivity.
  - by destruct b.
  - change (ser_compact (VNum z)) with (show_Z z).
    rewrite <- (parse_number_show z rest Hj Hend).
    destruct z as [|p|p]; [reflexivity| |reflexivity].
    unfold show_Z.
    destruct (show_uint_head (Pos.to_uint p) rest) as (c & s' & -> & _ & Hd & Hc).
    { apply DecimalPos.Unsigned.to_uint_nonnil. }
    apply parse_value_number; [done|]. rewrite Hd. apply orb_true_r.
  - change (ser_compact (VStr s)) with (quote_string s).
    destruct (parse_quote_string s rest) as (body & -> & Hp).
    rewrite parse_value_string, Hp. cbn [mbind res_bind].
    by rewrite string_of_list_ascii_of_string.
  - change (ser_compact (VArr l)) with ("["%char :: commas (map ser_compact l) ++ ["]"%char]).
    apply is_json_arr in Hj.
    destruct l as [|x l]; [reflexivity|].
    rewrite <- app_comm_cons, <- app_assoc, parse_value_array.
    change (["]"%char] ++ rest) with ("]"%char :: rest).
    destruct (commas_head x l ("]"%char :: rest)) as (c1 & r1 & Heq & Hws & Hc1).
    rewrite Heq, (skip_ws_head _ _ Hws), Hc1, <- Heq.
    rewrite parse_elements_compact; [done|done| |].
    + rewrite List.Forall_forall in IH, Hj. apply List.Forall_forall.
      intros y Hy. apply IH; auto.
    + change (size (VArr (x :: l)))
        with (S (list_sum (map (fun x => S (size x)) (x :: l)))) in Hn. lia.
  - rewrite (ser_compact_obj o Hj). apply is_json_obj in Hj.
    pose proof (obj_of_members_to_list o) as Hback.
    pose proof (size_obj_fold o) as Hsize.
    assert (IH' : Forall (fun p => parses_back_compact p.2) (map_to_list o)).
    { apply List.Forall_forall. intros [k x] Hkx.
      rewrite List.Forall_forall in Hj. cbn.
      apply (IH k x); [by apply elem_of_map_to_list, list_elem_of_In|].
      apply (Hj (k, x) Hkx). }
    destruct (map_to_list o) as [|[k x] kvs] eqn:E.
    { apply map_to_list_empty_iff in E. subst o. reflexivity. }
    rewrite <- app_comm_cons, <- app_assoc, parse_value_object.
    change (["}"%char] ++ rest) with ("}"%char :: rest).
    assert (Hhd : ∃ r1, commas (map member_compact ((k, x) :: kvs)) ++ "}"%char :: rest
                        = dquote :: r1).
    { cbn [map]. unfold member_compact at 1. unfold quote_string. cbn [fst snd].
      destruct (map member_compact kvs); by eexists. }
    destruct Hhd as (r1 & Heq).
    rewrite Heq. change (skip_ws (dquote :: r1)) with (dquote :: r1). cbv iota.
    change (Ascii.eqb dquote "}") with false. cbv iota. rewrite <- Heq.
    rewrite parse_members_compact; [|done|done|lia].
    cbn [mbind res_bind]. by rewrite Hback.
Qed.

Lemma commas_length (items : list (list ascii)) :
  (list_sum (map (fun it => S (length it)) items) <= S (length (commas items)))%nat.
Proof.
  induction items as [|x items IH]; [cbn; lia|].
  cbn [map]. rewrite list_sum_cons.
  destruct items as [|y items].
  - cbn. lia.
  - rewrite commas_cons, length_app. cbn [length]. lia.
Qed.

Lemma size_le_length_compact (v : value) :
  is_json v = true → (size v <= length (ser_compact v))%nat.
Proof.
  induction v as [| |b|z|s|l IH|o IH|i] using value_nested_ind; intros Hj;
    try discriminate.
  - cbn. lia.
  - destruct b; cbn; lia.
  - change (ser_compact (VNum z)) with (show_Z z). change (size (VNum z)) with 1%nat.
    destruct z as [|p|p]; [cbn; lia| |cbn; lia].
    destruct (show_uint_head (Pos.to_uint p) []) as (c & s' & Heq & _).
    { apply DecimalPos.Unsigned.to_uint_nonnil. }
    rewrite app_nil_r in Heq. unfold show_Z. rewrite Heq. cbn. lia.
  - change (size (VStr s)) with 1%nat. cbn. lia.
  - change (ser_compact (VArr l)) with ("["%char :: commas (map ser_compact l) ++ ["]"%char]).
    change (size (VArr l)) with (S (list_sum (map (fun x => S (size x)) l))).
    pose proof (commas_length (map ser_compact l)) as Hw.
    rewrite map_map in Hw. cbn [length]. rewrite length_app. cbn [length].
    enough (list_sum (map (fun x => S (size x)) l)
            <= list_sum (map (fun x => S (length (ser_compact x))) l))%nat by lia.
    apply list_sum_le. apply is_json_arr in Hj.
    rewrite List.Forall_forall in IH, Hj. apply List.Forall_forall.
    intros x Hx. specialize (IH x Hx (Hj x Hx)). lia.
  - rewrite (ser_compact_obj o Hj), size_obj_fold. apply is_json_obj in Hj.
    pose proof (commas_length (map member_compact (map_to_list o))) as Hw.
    rewrite map_map in Hw. cbn [length]. rewrite length_app. cbn [length].
    enough (list_sum (map (fun p => S (size p.2)) (map_to_list o))
            <= list_sum (map (fun p => S (length (member_compact p))) (map_to_list o)))%nat
      by lia.
    apply list_sum_le. rewrite List.Forall_forall in Hj. apply List.Forall_forall.
    intros [k x] Hx. cbn [snd].
    assert (Hs : (size x <= length (ser_compact x))%nat).
    { apply (IH k x); [by apply elem_of_map_to_list, list_elem_of_In|].
      apply (Hj (k, x) Hx). }
    unfold member_compact. cbn [fst snd]. rewrite length_app. cbn [length]. lia.
Qed.

Lemma JSON_parse_saveDB (db : value) : is_json db = true → JSON_parse (saveDB db) = Ok db.
Proof.
  intros Hj. assert (Hs : saveDB db = string_of_list_ascii (ser_compact db))
    by (by destruct db).
  rewrite Hs. unfold JSON_parse. rewrite list_ascii_of_string_of_list_ascii.
  pose proof (skip_ws_ser_compact db []) as Hk. rewrite app_nil_r in Hk. rewrite Hk.
  pose proof (parse_ser_compact db Hj (2 * length (ser_compact db) + 2)%nat []) as Hp.
  rewrite app_nil_r in Hp. rewrite Hp; [done| |done].
  pose proof (size_le_length_compact db Hj). lia.
Qed.

Lemma saveDB_nonempty (db : value) : String.eqb (saveDB db) EmptyString = false.
Proof.
  destruct db as [| |b|z|s|l|o|i]; try reflexivity.
  - by destruct b.
  - destruct (ser_compact_head (VNum z)) as (c & s' & H & _).
    unfold saveDB. by rewrite H.
Qed.

Lemma loadDB_saveDB (db : value) : is_json db = true → loadDB (Some (saveDB db)) = Ok db.
Proof.
  intros Hj. unfold loadDB. rewrite saveDB_nonempty. by rewrite (JSON_parse_saveDB db Hj).
Qed.

Open Scope string_scope.

Lemma is_json_members (ms : list (string * value)) :
  Forall (fun p => is_json (as_saved p.2) = true) ms →
  map_Forall (fun _ x => is_json (as_saved x) = true) (obj_of_members ms).
Proof.
  intros H. unfold obj_of_members.
  assert (H0 : map_Forall (fun (_ : string) x => is_json (as_saved x) = true)
                 (∅ : gmap string value)) by apply map_Forall_empty.
  revert H0. generalize (∅ : gmap string value).
  induction H as [|[k x] l Hx _ IH]; intros o Ho; [done|].
  cbn [fold_left]. apply IH. by apply map_Forall_insert_2.
Qed.

Lemma is_json_as_saved_obj (o : gmap string value) :
  map_Forall (fun _ x => is_json (as_saved x) = true) o →
  is_json (as_saved (VObj o)) = true.
Proof.
  intros H. change (as_saved (VObj o)) with (VObj (as_saved <$> o)).
  apply is_json_obj.
  assert (Hm : map_Forall (fun _ x => is_json x = true) (as_saved <$> o))
    by (by apply map_Forall_fmap).
  apply map_Forall_to_list in Hm. eapply Forall_impl; [exact Hm|]. by intros [k x].
Qed.

Lemma is_json_as_saved_arr (l : list value) :
  Forall (fun x => is_json (as_saved x) = true) l → is_json (as_saved (VArr l)) = true.
Proof.
  intros H. change (as_saved (VArr l)) with (VArr (map as_saved l)).
  apply is_json_arr. by apply Forall_fmap.
Qed.

Lemma number_value_json (neg : bool) (m k : Z) (v : value) :
  number_value neg m k = Ok v → is_json (as_saved v) = true.
Proof.
  unfold number_value. destruct (m =? 0)%Z.
  { destruct neg; [discriminate|]. by intros [= <-]. }
  destruct (_ <=? _)%Z; [by intros [= <-]|].
  destruct (_ =? 0)%Z; [|discriminate]. cbn [andb].
  destruct (safe_int _) eqn:E; [|discriminate]. intros [= <-].
  destruct neg; [|exact E]. exact (eq_trans (safe_int_opp _) E).
Qed.

Lemma parse_number_json (s r : list ascii) (v : value) :
  parse_number s = Ok (v, r) → is_json (as_saved v) = true.
Proof.
  assert (Htail : ∀ neg d r0,
    match read_fraction r0 with
    | Some (f, r1) =>
        match read_exponent r1 with
        | Some (e, r2) =>
            let digits := Z.of_nat (Decimal.nb_digits f) in
            let m := (Z.of_N (N.of_uint d) * 10 ^ digits + Z.of_N (N.of_uint f))%Z in
            x ← number_value neg m (e - digits)%Z; Ok (x, r2)
        | None => Throw SyntaxError
        end
    | None => Throw SyntaxError
    end = Ok (v, r) → is_json (as_saved v) = true).
  { intros neg d r0. destruct (read_fraction r0) as [[f r1]|]; [|discriminate].
    destruct (read_exponent r1) as [[e r2]|]; [|discriminate]. cbv zeta.
    destruct (number_value _ _ _) as [x|] eqn:E; [|discriminate].
    intros [= <- _]. by eapply number_value_json. }
  unfold parse_number.
  destruct (match s with
            | [] => (false, s)
            | c :: s' => if Ascii.eqb c "-" then (true, s') else (false, s)
            end) as [neg s1].
  destruct (read_digits s1) as [d r0].
  destruct d as [|u|u|u|u|u|u|u|u|u|u]; [discriminate|..]; try apply Htail.
  destruct u; try discriminate; apply Htail.
Qed.

(** Whatever the parser returns is a JSON value once its infinite numbers
    are replaced by [null]. *)
Lemma parse_json (n : nat) :
  (∀ s v r, parse_value n s = Ok (v, r) → is_json (as_saved v) = true) ∧
  (∀ s vs r, parse_elements n s = Ok (vs, r) →
     Forall (fun x => is_json (as_saved x) = true) vs) ∧
  (∀ s ms r, parse_members n s = Ok (ms, r) →
     Forall (fun p => is_json (as_saved p.2) = true) ms).
Proof.
  induction n as [|n (IHv & IHe & IHm)]; [by repeat split|].
  split; [|split].
  - intros s v r H. destruct s as [|c s]; [discriminate|]. cbn [parse_value] in H.
    destruct (Ascii.eqb c "{").
    { destruct (skip_ws s) as [|c1 r1]; [discriminate|].
      destruct (Ascii.eqb c1 "}"); [by injection H as <- _|].
      destruct (parse_members n (c1 :: r1)) as [[ms r']|] eqn:E; [|discriminate].
      cbn in H. injection H as <- _.
      apply is_json_as_saved_obj, is_json_members. by eapply IHm. }
    destruct (Ascii.eqb c "[").
    { destruct (skip_ws s) as [|c1 r1]; [discriminate|].
      destruct (Ascii.eqb c1 "]"); [by injection H as <- _|].
      destruct (parse_elements n (c1 :: r1)) as [[vs r']|] eqn:E; [|discriminate].
      cbn in H. injection H as <- _. apply is_json_as_saved_arr. by eapply IHe. }
    destruct (Ascii.eqb c dquote).
    { destruct (parse_string_body s) as [[cs r']|]; [|discriminate].
      cbn in H. by injection H as <- _. }
    unfold expect in H.
    destruct (Ascii.eqb c "t"); [case_decide; [by injection H as <- _|discriminate]|].
    destruct (Ascii.eqb c "f"); [case_decide; [by injection H as <- _|discriminate]|].
    destruct (Ascii.eqb c "n"); [case_decide; [by injection H as <- _|discriminate]|].
    destruct (Ascii.eqb c "-" || is_digit c); [|discriminate].
    by eapply parse_number_json.
  - intros s vs r H. rewrite parse_elements_eq in H.
    destruct (parse_value n s) as [[v r1]|] eqn:E; [|discriminate]. cbn in H.
    apply IHv in E.
    destruct (skip_ws r1) as [|c r2]; [discriminate|].
    destruct (Ascii.eqb c ",").
    { destruct (parse_elements n (skip_ws r2)) as [[vs' r3]|] eqn:E'; [|discriminate].
      cbn in H. injection H as <- _. constructor; [done|by eapply IHe]. }
    destruct (Ascii.eqb c "]"); [|discriminate].
    injection H as <- _. by constructor.
  - intros s ms r H. destruct s as [|c s0]; [discriminate|].
    cbn [parse_members] in H.
    destruct (Ascii.eqb c dquote); [|discriminate].
    destruct (parse_string_body s0) as [[k r1]|]; [|discriminate]. cbn in H.
    destruct (skip_ws r1) as [|c1 r2]; [discriminate|].
    destruct (Ascii.eqb c1 ":"); [|discriminate].
    destruct (parse_value n (skip_ws r2)) as [[v r3]|] eqn:E; [|discriminate]. cbn in H.
    apply IHv in E.
    destruct (skip_ws r3) as [|c2 r4]; [discriminate|].
    destruct (Ascii.eqb c2 ",").
    { destruct (parse_members n (skip_ws r4)) as [[ms' r5]|] eqn:E'; [|discriminate].
      cbn in H. injection H as <- _. constructor; [done|by eapply IHm]. }
    destruct (Ascii.eqb c2 "}"); [|discriminate].
    injection H as <- _. by constructor.
Qed.

Lemma JSON_parse_json (text : string) (v : value) :
  JSON_parse text = Ok v → is_json (as_saved v) = true.
Proof.
  unfold JSON_parse.
  destruct (parse_value _ _) as [[v' r]|] eqn:E; [|discriminate]. cbn.
  destruct (skip_ws r); [|discriminate]. intros [= <-].
  by eapply (proj1 (parse_json _)).
Qed.

Lemma loadDB_json (slot : option string) (db : value) :
  loadDB slot = Ok db → is_json (as_saved db) = true.
Proof.
  unfold loadDB. destruct slot as [raw|]; [|by intros [= <-]].
  destruct (String.eqb raw EmptyString); [by intros [= <-]|].
  destruct (JSON_parse raw) as [v|e] eqn:E.
  - intros [= <-]. by eapply JSON_parse_json.
  - destruct e; try discriminate; by intros [= <-].
Qed.

(** An infinite number is written as [null] is written: the text saved for
    a value is the text saved for the value without its infinite numbers. *)
Lemma ser_compact_as_saved (v : value) : ser_compact (as_saved v) = ser_compact v.
Proof.
  induction v as [| |b|z|s|l IH|o IH|i] using value_nested_ind; try reflexivity.
  - change (as_saved (VArr l)) with (VArr (map as_saved l)).
    change (ser_compact (VArr (map as_saved l)))
      with ("["%char :: commas (map ser_compact (map as_saved l)) ++ ["]"%char])%list.
    change (ser_compact (VArr l)) with ("["%char :: commas (map ser_compact l) ++ ["]"%char])%list.
    do 3 f_equal. rewrite map_map. apply map_ext_in. intros x Hx.
    rewrite List.Forall_forall in IH. by apply IH.
  - change (as_saved (VObj o)) with (VObj (as_saved <$> o)).
    set (F := fun (sv : value → list ascii) (k : string) (x : value) (acc : list (list ascii)) =>
                if is_undef x then acc
                else (quote_string k ++ ":"%char :: sv x)%list :: acc).
    change (ser_compact (VObj (as_saved <$> o)))
      with ("{"%char :: commas (map_fold (F ser_compact) [] (as_saved <$> o)) ++ ["}"%char])%list.
    change (ser_compact (VObj o))
      with ("{"%char :: commas (map_fold (F ser_compact) [] o) ++ ["}"%char])%list.
    do 3 f_equal. rewrite map_fold_fmap, !map_fold_foldr.
    apply map_Forall_to_list in IH.
    induction IH as [|[k x] kvs Hx _ IHl]; [done|].
    cbn [foldr]. rewrite IHl. unfold F, compose. cbn [uncurry fst snd] in Hx |- *.
    rewrite Hx. by destruct x.
Qed.

Lemma saveDB_as_saved (v : value) : saveDB (as_saved v) = saveDB v.
Proof.
  destruct v as [| |b|z|s|l|o|i]; try reflexivity; unfold saveDB;
    [change (as_saved (VArr l)) with (VArr (map as_saved l))
    |change (as_saved (VObj o)) with (VObj (as_saved <$> o))]; cbv iota;
    f_equal; apply (ser_compact_as_saved (VArr l)) || apply (ser_compact_as_saved (VObj o)).
Qed.

Lemma as_saved_json (v : value) : is_json v = true → as_saved v = v.
Proof.
  induction v as [| |b|z|s|l IH|o IH|i] using value_nested_ind; intros Hj;
    try reflexivity; try discriminate.
  - change (as_saved (VArr l)) with (VArr (map as_saved l)). f_equal.
    apply is_json_arr in Hj. rewrite <- (map_id l) at 2. apply map_ext_in.
    intros x Hx. rewrite List.Forall_forall in IH, Hj. by apply IH; [|apply Hj].
  - change (as_saved (VObj o)) with (VObj (as_saved <$> o)). f_equal.
    apply is_json_obj in Hj. apply map_eq. intros k. rewrite lookup_fmap.
    destruct (o !! k) as [x|] eqn:E; [|done]. cbn. f_equal.
    apply (IH k x E). rewrite List.Forall_forall in Hj.
    apply (Hj (k, x)). by apply list_elem_of_In, elem_of_map_to_list.
Qed.

(** Loading what was saved gives the value without its infinite numbers. *)
Lemma loadDB_saveDB_as_saved (db : value) :
  is_json (as_saved db) = true → loadDB (Some (saveDB db)) = Ok (as_saved db).
Proof. intros Hj. rewrite <- saveDB_as_saved. by apply loadDB_saveDB. Qed.

Lemma after_import_json (content : string) (cur db : value) :
  is_json cur = true → after_import content cur = Ok db → is_json (as_saved db) = true.
Proof.
  intros Hcur H. unfold after_import, importJSON in H.
  destruct (import_checked content) as [v|e] eqn:E.
  - cbn in H. injection H as <-. unfold import_checked in E.
    destruct (JSON_parse content) as [w|e] eqn:Ep; [|discriminate]. cbn in E.
    apply JSON_parse_json in Ep.
    destruct (negb (truthy w) || negb (typeof_object w)); [discriminate|].
    destruct (get "investigations" w) as [a|]; [|discriminate]. cbn in E.
    destruct (negb (isArray a)); [discriminate|].
    destruct (get "evidence" w) as [b|]; [|discriminate]. cbn in E.
    destruct (negb (isArray b)); [discriminate|]. by injection E as <-.
  - destruct e; cbn in H; try discriminate; injection H as <-;
      by rewrite (as_saved_json cur Hcur).
Qed.

(** X5.  What [saveDB] writes, [loadDB] reads back.  For every database whose
    values are JSON values of the model (no [undefined], numbers that are
    exact integers), the text that [saveDB] stores is not empty and parses,
    and [loadDB] returns from it a value equal to the database saved:
    reloading the page loses nothing.  So it is for a database of records
    with such numbers. *)
Theorem saveDB_loadDB_roundtrip (db : value) :
  is_json db = true →
  saveDB db ≠ EmptyString ∧
  JSON_parse (saveDB db) = Ok db ∧
  loadDB (Some (saveDB db)) = Ok db.
Proof.
  intros Hj. split; [|split].
  - intros H. pose proof (saveDB_nonempty db) as Hn. rewrite H in Hn. done.
  - by apply JSON_parse_saveDB.
  - by apply loadDB_saveDB.
Qed.

(** X6.  The first save settles what was loaded or imported.  Whatever
    value of the model [loadDB] returns (its numbers are exact integers or
    infinite), the text that [saveDB] writes for it denotes that value with
    [null] in the place of every infinite number (a stored [1e999] is loaded
    as [Infinity] and saved as [null]): the next load returns this value,
    which is a JSON value of the model, and from then on saving and loading
    returns it unchanged.  So it is for the store after an import, accepted
    or refused, when the store before it held a JSON value.  A value without
    infinite numbers is not altered at all. *)
Theorem first_save_settles_the_store :
  (∀ slot db, loadDB slot = Ok db →
     loadDB (Some (saveDB db)) = Ok (as_saved db) ∧
     is_json (as_saved db) = true ∧
     loadDB (Some (saveDB (as_saved db))) = Ok (as_saved db)) ∧
  (∀ content cur db, is_json cur = true → after_import content cur = Ok db →
     loadDB (Some (saveDB db)) = Ok (as_saved db) ∧
     is_json (as_saved db) = true ∧
     loadDB (Some (saveDB (as_saved db))) = Ok (as_saved db)) ∧
  (∀ db, is_json db = true → as_saved db = db).
Proof.
  split; [|split].
  - intros slot db H. apply loadDB_json in H.
    split; [by apply loadDB_saveDB_as_saved|]. split; [done|by apply loadDB_saveDB].
  - intros content cur db Hcur H. pose proof (after_import_json _ _ _ Hcur H) as Hj.
    split; [by apply loadDB_saveDB_as_saved|]. split; [done|by apply loadDB_saveDB].
  - apply as_saved_json.
Qed.

(** ** Derived views and the selection *)

Lemma existsb_undef_evidence (l : list Evidence) :
  existsb is_undef (map enc_evidence l) = false.
Proof. induction l as [|e l IH]; [done|exact IH]. Qed.

Lemma js_or_number (u : Z) : js_or (VNum u) (VNum 0) = VNum u.
Proof. unfold js_or. cbn. by destruct (Z.eqb_spec u 0) as [->|]. Qed.

Lemma compare_evidence_records (x y : Evidence) :
  compare_evidence (enc_evidence x) (enc_evidence y)
  = Ok (ev_updatedAt y - ev_updatedAt x)%Z.
Proof.
  unfold compare_evidence.
  change (get "updatedAt" (enc_evidence y)) with (@Ok value (VNum (ev_updatedAt y))).
  change (get "updatedAt" (enc_evidence x)) with (@Ok value (VNum (ev_updatedAt x))).
  cbn [mbind res_bind]. by rewrite !js_or_number.
Qed.

Lemma evidenceForSelected_run (s : string) (d : Database) :
  evidenceForSelected (VStr s) (enc_db d)
  = Ok (map enc_evidence
          (sort_desc ev_updatedAt
             (filter (fun e => String.eqb (ev_investigationId e) s) (db_evidence d)))).
Proof.
  unfold evidenceForSelected.
  change (get "evidence" (enc_db d))
    with (@Ok value (VArr (map enc_evidence (db_evidence d)))).
  cbn [mbind res_bind method_arr].
  rewrite (filterM_map _ _ (fun e => String.eqb (ev_investigationId e) s)).
  2:{ by intros e _. }
  cbn [mbind res_bind]. unfold Array_sort. rewrite existsb_undef_evidence.
  apply sortM_map. intros x y _ _. apply compare_evidence_records.
Qed.

Lemma evidenceForSelected_null (d : Database) :
  evidenceForSelected VNull (enc_db d) = Ok [].
Proof.
  unfold evidenceForSelected.
  change (get "evidence" (enc_db d))
    with (@Ok value (VArr (map enc_evidence (db_evidence d)))).
  cbn [mbind res_bind method_arr].
  rewrite (filterM_map _ _ (fun e => false)); [|by intros e _].
  cbn [mbind res_bind].
  replace (filter (fun _ : Evidence => false) (db_evidence d)) with (@nil Evidence);
    [done|].
  induction (db_evidence d) as [|e l IH]; [done|]. by rewrite filter_cons.
Qed.

(** X7.  The evidence list of the selected investigation (line 319).  For a
    database of records and a selected id, the list holds exactly the
    evidence records whose [investigationId] is that id, each as often as
    the database has it, ordered by decreasing [updatedAt], records with
    equal [updatedAt] keeping the order of the database; with nothing
    selected ([null]) the list is empty. *)
Theorem evidenceForSelected_selects_and_sorts (s : string) (d : Database) :
  ∃ l,
    evidenceForSelected (VStr s) (enc_db d) = Ok (map enc_evidence l) ∧
    l ≡ₚ filter (fun e => String.eqb (ev_investigationId e) s) (db_evidence d) ∧
    (∀ e, In e l ↔ In e (db_evidence d) ∧ ev_investigationId e = s) ∧
    StronglySorted (fun a b => (ev_updatedAt b <= ev_updatedAt a)%Z) l ∧
    (∀ k, filter (fun e => ev_updatedAt e = k) l
          = filter (fun e => ev_updatedAt e = k)
              (filter (fun e => String.eqb (ev_investigationId e) s) (db_evidence d))) ∧
    evidenceForSelected VNull (enc_db d) = Ok [].
Proof.
  set (own := filter (fun e => String.eqb (ev_investigationId e) s) (db_evidence d)).
  exists (sort_desc ev_updatedAt own).
  split; [apply evidenceForSelected_run|].
  split; [apply sort_desc_perm|]. split; [|split; [|split]].
  - intros e. rewrite <- !list_elem_of_In, (sort_desc_perm ev_updatedAt own). unfold own.
    rewrite list_elem_of_filter, Is_true_true, String.eqb_eq. tauto.
  - apply sort_desc_sorted.
  - intros k. apply sort_desc_stable.
  - apply evidenceForSelected_null.
Qed.

Lemma find_by_id {A} (enc : A → value) (id_of : A → string) (s : string) (l : list A) :
  (∀ x, get "id" (enc x) = Ok (VStr (id_of x))) →
  findM (fun i => iid ← get "id" i; strict_eq iid (VStr s)) (map enc l)
  = Ok (from_option enc VUndef (List.find (fun x => String.eqb (id_of x) s) l)).
Proof.
  intros Hid. induction l as [|x l IH]; [done|].
  cbn [map findM List.find]. rewrite Hid. cbn [mbind res_bind strict_eq].
  destruct (String.eqb (id_of x) s); [done|exact IH].
Qed.

Lemma find_by_null {A} (enc : A → value) (id_of : A → string) (l : list A) :
  (∀ x, get "id" (enc x) = Ok (VStr (id_of x))) →
  findM (fun i => iid ← get "id" i; strict_eq iid VNull) (map enc l) = Ok VUndef.
Proof.
  intros Hid. induction l as [|x l IH]; [done|].
  cbn [map findM]. rewrite Hid. cbn [mbind res_bind strict_eq]. exact IH.
Qed.

Lemma get_id_investigation (i : Investigation) :
  get "id" (enc_investigation i) = Ok (VStr (inv_id i)).
Proof. apply get_investigation. Qed.

Lemma selectedInvestigation_run (s : string) (d : Database) :
  selectedInvestigation (VStr s) (enc_db d)
  = Ok (from_option enc_investigation VNull
          (List.find (fun i => String.eqb (inv_id i) s) (db_investigations d))).
Proof.
  unfold selectedInvestigation.
  change (get "investigations" (enc_db d))
    with (@Ok value (VArr (map enc_investigation (db_investigations d)))).
  cbn [mbind res_bind method_arr].
  rewrite (find_by_id enc_investigation inv_id) by apply get_id_investigation.
  cbn [mbind res_bind]. by destruct (List.find _ _).
Qed.

Lemma activeEvidenceObj_run (s : string) (d : Database) :
  activeEvidenceObj (VStr s) (enc_db d)
  = Ok (from_option enc_evidence VNull
          (List.find (fun e => String.eqb (ev_id e) s) (db_evidence d))).
Proof.
  unfold activeEvidenceObj.
  change (get "evidence" (enc_db d))
    with (@Ok value (VArr (map enc_evidence (db_evidence d)))).
  cbn [mbind res_bind method_arr].
  rewrite (find_by_id enc_evidence ev_id) by done.
  cbn [mbind res_bind]. by destruct (List.find _ _).
Qed.

Lemma insert_desc_front {A} (key : A → Z) (x : A) (l : list A) :
  Forall (fun y => (key y <= key x)%Z) l → insert_desc key x l = x :: l.
Proof.
  intros H. destruct H as [|y l Hy _]; [done|]. cbn.
  destruct (Z.leb_spec (key y - key x) 0); [done|lia].
Qed.

(** X9.  A new investigation is the selected one.  [createInvestigation] with
    the payload of the form puts the new record in front, runs through,
    and sets [selected] to its id; the selected investigation of the next
    render is the new record, whatever ids the database held. *)
Theorem new_investigation_is_selected
    (d : Database) (newid : string) (now : Z) (p : InvestigationPayload) (s : Selection) :
  let d' := apply_event (CreateInvestigation newid now p) d in
  run (createInvestigation newid now (investigation_payload p)) (enc_db d) = Ok (enc_db d') ∧
  db_investigations d' = new_investigation newid now p :: db_investigations d ∧
  db_evidence d' = db_evidence d ∧
  ∃ s', createInvestigation_selection newid now (investigation_payload p) s = Ok s' ∧
        selected s' = VStr newid ∧ activeEvidence s' = activeEvidence s ∧
        selectedInvestigation (selected s') (enc_db d')
        = Ok (enc_investigation (new_investigation newid now p)).
Proof.
  intros d'. split; [reflexivity|]. split; [reflexivity|]. split; [reflexivity|].
  exists {| selected := VStr newid; activeEvidence := activeEvidence s |}.
  split; [reflexivity|]. split; [reflexivity|]. split; [reflexivity|].
  cbn [selected]. rewrite selectedInvestigation_run. cbn. by rewrite String.eqb_refl.
Qed.

(** X10.  A new evidence record is the active one.  [createEvidence] with the
    payload of the form puts the new record, with an empty thread, in
    front and sets [activeEvidence] to its id; the active evidence of the
    next render is the new record, and it comes first in the evidence list
    of its investigation when no record of that list was updated after
    [now]. *)
Theorem new_evidence_is_active_and_first
    (d : Database) (invId newid : string) (now : Z) (p : EvidencePayload) (s : Selection) :
  let d' := apply_event (CreateEvidence invId newid now p) d in
  let ev := new_evidence invId newid now p in
  run (createEvidence invId newid now (evidence_payload p)) (enc_db d) = Ok (enc_db d') ∧
  db_evidence d' = ev :: db_evidence d ∧ ev_entries ev = [] ∧
  db_investigations d' = db_investigations d ∧
  (∃ s', createEvidence_selection invId newid now (evidence_payload p) s = Ok s' ∧
         activeEvidence s' = VStr newid ∧ selected s' = selected s ∧
         activeEvidenceObj (activeEvidence s') (enc_db d') = Ok (enc_evidence ev)) ∧
  ((∀ e, In e (db_evidence d) → ev_investigationId e = invId → (ev_updatedAt e <= now)%Z) →
   evidenceForSelected (VStr invId) (enc_db d')
   = Ok (map enc_evidence
           (ev :: sort_desc ev_updatedAt
                    (filter (fun e => String.eqb (ev_investigationId e) invId)
                            (db_evidence d))))).
Proof.
  intros d' ev. split; [reflexivity|]. split; [reflexivity|]. split; [reflexivity|].
  split; [reflexivity|]. split.
  - exists {| selected := selected s; activeEvidence := VStr newid |}.
    split; [reflexivity|]. split; [reflexivity|]. split; [reflexivity|].
    cbn [activeEvidence]. rewrite activeEvidenceObj_run. cbn. by rewrite String.eqb_refl.
  - intros Hnow. rewrite evidenceForSelected_run. do 2 f_equal.
    cbn [d' apply_event with_evidence db_evidence]. rewrite filter_cons.
    rewrite decide_True by (cbn; by rewrite String.eqb_refl).
    cbn [sort_desc]. apply insert_desc_front.
    apply Forall_forall. intros e He.
    rewrite (sort_desc_perm ev_updatedAt) in He.
    apply list_elem_of_filter in He as [Ho He].
    apply Hnow; [by apply list_elem_of_In|]. apply Is_true_true in Ho.
    by apply String.eqb_eq.
Qed.

Lemma find_none_filter {A} (q : A → bool) (l : list A) :
  List.find q (filter (fun x => negb (q x)) l) = None.
Proof.
  induction l as [|x l IH]; [done|]. rewrite filter_cons.
  destruct (q x) eqn:E; cbn [negb]; [exact IH|].
  rewrite decide_True by done. cbn [List.find]. by rewrite E.
Qed.

Lemma filter_both_empty {A} (q : A → bool) (l : list A) :
  filter (fun x => q x) (filter (fun x => negb (q x)) l) = [].
Proof.
  induction l as [|x l IH]; [done|]. rewrite filter_cons.
  destruct (q x) eqn:E; cbn [negb]; [exact IH|].
  rewrite decide_True by done. rewrite filter_cons, E. exact IH.
Qed.

(** X11.  Nothing of a deleted investigation is shown.  After a confirmed
    [deleteInvestigation(id)] on a database of records, no investigation
    is found for [id], the evidence list for [id] is empty, and [selected]
    is not [id] any more; a declined deletion changes neither the database
    nor the selection. *)
Theorem deleted_investigation_is_not_shown (d : Database) (id : string) (s : Selection) :
  let d' := apply_event (DeleteInvestigation true id) d in
  run (deleteInvestigation true id) (enc_db d) = Ok (enc_db d') ∧
  selectedInvestigation (VStr id) (enc_db d') = Ok VNull ∧
  evidenceForSelected (VStr id) (enc_db d') = Ok [] ∧
  (∃ s', deleteInvestigation_selection true id (enc_db d) s = Ok s' ∧
         selected s' ≠ VStr id ∧
         (selected s ≠ VStr id → selected s' = selected s)) ∧
  run (deleteInvestigation false id) (enc_db d) = Ok (enc_db d) ∧
  deleteInvestigation_selection false id (enc_db d) s = Ok s.
Proof.
  intros d'. split; [|split; [|split; [|split; [|split]]]]; try reflexivity.
  - destruct (step_records (DeleteInvestigation true id) d eq_refl) as (us & [= <-] & H).
    exact H.
  - rewrite selectedInvestigation_run.
    cbn [d' apply_event with_evidence with_investigations db_investigations].
    by rewrite (find_none_filter (fun i => String.eqb (inv_id i) id)).
  - rewrite evidenceForSelected_run.
    cbn [d' apply_event with_evidence with_investigations db_evidence].
    by rewrite (filter_both_empty (fun e => String.eqb (ev_investigationId e) id)).
  - unfold deleteInvestigation_selection. cbn [negb].
    assert (Hsel : (if is_str id (selected s) then VNull else selected s) ≠ VStr id
                   ∧ (selected s ≠ VStr id →
                      (if is_str id (selected s) then VNull else selected s) = selected s)).
    { destruct (is_str id (selected s)) eqn:E; [split; [done|]|split; [|done]].
      - intros H. apply is_str_spec in E. done.
      - intros H. apply is_str_spec in H. congruence. }
    destruct (truthy (activeEvidence s)); [|by eexists].
    change (get "evidence" (enc_db d))
      with (@Ok value (VArr (map enc_evidence (db_evidence d)))).
    cbn [mbind res_bind method_arr].
    destruct (findM _ _) as [r|err] eqn:E; cbn [mbind res_bind]; [by eexists|].
    exfalso. clear -E. induction (db_evidence d) as [|e l IH]; [done|].
    cbn [map findM] in E.
    change (get "investigationId" (enc_evidence e))
      with (@Ok value (VStr (ev_investigationId e))) in E.
    cbn [mbind res_bind] in E. destruct (is_str id _); [done|auto].
Qed.

Lemma find_owner (id : string) (l : list Evidence) :
  findM (fun e => x ← get "investigationId" e; Ok (is_str id x)) (map enc_evidence l)
  = Ok (from_option enc_evidence VUndef
          (List.find (fun e => String.eqb (ev_investigationId e) id) l)).
Proof.
  induction l as [|e l IH]; [done|]. cbn [map findM List.find].
  change (get "investigationId" (enc_evidence e))
    with (@Ok value (VStr (ev_investigationId e))).
  cbn [mbind res_bind is_str].
  destruct (String.eqb (ev_investigationId e) id); [done|exact IH].
Qed.

Lemma filter_all {A} (q : A → bool) (l : list A) :
  List.find q l = None → filter (fun x => negb (q x)) l = l.
Proof.
  induction l as [|x l IH]; [done|]. cbn [List.find]. rewrite filter_cons.
  destruct (q x) eqn:E; [done|]. intros H. rewrite decide_True by done. by rewrite IH.
Qed.

(** X12.  The selection keeps pointing into the database.  Let [selected] be
    [null] or the id of an investigation of the database, and
    [activeEvidence] be [null] or the id of one of its evidence records.
    After any event other than an import this is still so for the new
    database and the selection the handler leaves, provided the id
    generated for a new evidence record is not empty: a deletion clears
    the cell that pointed to what it removed. *)
Theorem handlers_keep_selection_valid (e : event) (d : Database) (s : Selection) :
  is_import e = false →
  match e with CreateEvidence _ newid _ _ => newid ≠ EmptyString | _ => True end →
  selection_ok d s →
  ∃ us s', handle e = Ok us ∧ run us (enc_db d) = Ok (enc_db (apply_event e d)) ∧
           handle_selection e (enc_db d) s = Ok s' ∧
           selection_ok (apply_event e d) s'.
Proof.
  intros He Hnew [Hsel Hact].
  destruct (step_records e d He) as (us & Hus & Hrun).
  exists us. rewrite Hus, Hrun.
  destruct e as [newid now p|id now p|[] id|invId newid now p|id now p|[] id
                |eid newid now p|content]; try discriminate; cbn [handle_selection].
  - exists {| selected := VStr newid; activeEvidence := activeEvidence s |}.
    repeat (split; [reflexivity|]). split; [|exact Hact].
    right. exists (new_investigation newid now p). split; [by left|done].
  - exists s. repeat (split; [reflexivity|]). split; [|exact Hact].
    destruct Hsel as [Hsel|(i & Hi & Hsel)]; [by left|right].
    exists (edit_investigation id now p i). split; [apply in_map_iff; eauto|].
    rewrite Hsel. unfold edit_investigation. by destruct (String.eqb (inv_id i) id).
  - unfold deleteInvestigation_selection. cbn [negb].
    change (get "evidence" (enc_db d))
      with (@Ok value (VArr (map enc_evidence (db_evidence d)))).
    cbn [mbind res_bind method_arr]. rewrite find_owner. cbn [mbind res_bind].
    assert (Hsel' : (if is_str id (selected s) then VNull else selected s) = VNull ∨
              ∃ i, In i (filter (fun i => negb (String.eqb (inv_id i) id))
                                (db_investigations d))
                   ∧ (if is_str id (selected s) then VNull else selected s)
                     = VStr (inv_id i)).
    { destruct Hsel as [->|(i & Hi & ->)]; [by left|]. cbn [is_str].
      destruct (String.eqb (inv_id i) id) eqn:E; [by left|right].
      exists i. split; [|done]. apply list_elem_of_In, list_elem_of_filter.
      split; [by rewrite E|by apply list_elem_of_In]. }
    destruct (truthy (activeEvidence s)) eqn:Ht.
    + eexists. repeat (split; [reflexivity|]). split; [exact Hsel'|].
      cbn [activeEvidence apply_event with_evidence with_investigations db_evidence].
      destruct (List.find _ (db_evidence d)) as [o|] eqn:Ef; [by left|].
      cbn [from_option truthy]. rewrite (filter_all _ _ Ef). exact Hact.
    + eexists. repeat (split; [reflexivity|]). split; [exact Hsel'|].
      cbn [activeEvidence]. destruct Hact as [Hact|(e & He' & Ha & Hne)]; [by left|].
      rewrite Ha in Ht. cbn in Ht. apply negb_false_iff, String.eqb_eq in Ht. done.
  - exists s. repeat (split; [reflexivity|]). done.
  - exists {| selected := selected s; activeEvidence := VStr newid |}.
    repeat (split; [reflexivity|]). split; [exact Hsel|].
    right. exists (new_evidence invId newid now p). split; [by left|done].
  - exists s. repeat (split; [reflexivity|]). split; [exact Hsel|].
    destruct Hact as [Hact|(e & He' & Ha & Hne)]; [by left|right].
    exists (edit_evidence id now p e). split; [apply in_map_iff; eauto|].
    rewrite Ha. unfold edit_evidence. by destruct (String.eqb (ev_id e) id).
  - eexists. repeat (split; [reflexivity|]). split; [exact Hsel|].
    cbn [deleteEvidence_selection negb activeEvidence].
    destruct Hact as [->|(e & He' & -> & Hne)]; [by left|]. cbn [is_str].
    destruct (String.eqb (ev_id e) id) eqn:E; [by left|right].
    exists e. split; [|done]. apply list_elem_of_In, list_elem_of_filter.
    split; [by rewrite E|by apply list_elem_of_In].
  - exists s. repeat (split; [reflexivity|]). done.
  - exists s. repeat (split; [reflexivity|]). split; [exact Hsel|].
    destruct Hact as [Hact|(e & He' & Ha & Hne)]; [by left|right].
    exists (extend_evidence eid (new_entry newid now p) now e).
    split; [apply in_map_iff; eauto|].
    rewrite Ha. unfold extend_evidence. by destruct (String.eqb (ev_id e) eid).
Qed.

Lemma method_arr_not_array (v : value) :
  (∀ l, v ≠ VArr l) → method_arr v = Throw TypeError.
Proof. intros H. destruct v; try done. by destruct (H l). Qed.

Lemma get_collection_throws (k : string) (db : value) :
  String.eqb k "entries" = false →
  (∀ l, get k db ≠ Ok (VArr l)) →
  (a ← get k db; method_arr a) = Throw TypeError.
Proof.
  intros Hk H. destruct (get k db) as [v|e] eqn:E.
  - cbn. apply method_arr_not_array. intros l ->. by apply (H l).
  - destruct db; cbn in E; try discriminate; try (by injection E as <-).
    by rewrite Hk in E.
Qed.

(** X13.  The views need the two arrays.  When [db.investigations] is not an
    array (the value that [loadDB] returned is [null], a number, a text, an
    array, or an object without such a property), computing the selected
    investigation, the first thing a render does with it, throws a
    [TypeError], and so does the filtered list; when [db.evidence] is not
    an array, the evidence list and the active evidence throw it. *)
Theorem views_throw_without_arrays (sel : value) (statusFilter query : string) (db : value) :
  ((∀ l, get "investigations" db ≠ Ok (VArr l)) →
     selectedInvestigation sel db = Throw TypeError ∧
     filteredInvestigations statusFilter query db = Throw TypeError) ∧
  ((∀ l, get "evidence" db ≠ Ok (VArr l)) →
     evidenceForSelected sel db = Throw TypeError ∧
     activeEvidenceObj sel db = Throw TypeError).
Proof.
  split; intros H.
  - pose proof (get_collection_throws "investigations" db eq_refl H) as Ht.
    split.
    + unfold selectedInvestigation.
      destruct (get "investigations" db) as [v|e]; cbn in Ht |- *;
        [|by injection Ht as ->].
      by rewrite Ht.
    + unfold filteredInvestigations.
      destruct (get "investigations" db) as [v|e]; cbn in Ht |- *;
        [|by injection Ht as ->].
      by rewrite Ht.
  - pose proof (get_collection_throws "evidence" db eq_refl H) as Ht.
    split.
    + unfold evidenceForSelected.
      destruct (get "evidence" db) as [v|e]; cbn in Ht |- *;
        [|by injection Ht as ->].
      by rewrite Ht.
    + unfold activeEvidenceObj.
      destruct (get "evidence" db) as [v|e]; cbn in Ht |- *;
        [|by injection Ht as ->].
      by rewrite Ht.
Qed.

(** X8.  Equal keys keep the order of the database.  In the filtered list,
    investigations with one sort key ([updatedAt], or [createdAt] when
    that is absent or zero) come in the order in which the database holds
    them: the sort is stable.  As [createInvestigation] puts a new record
    in front, of two such records the one created later comes first. *)
Theorem filteredInvestigations_keeps_database_order
    (statusFilter query : string) (d : Database) :
  ∃ l,
    filteredInvestigations statusFilter query (enc_db d) = Ok (map enc_investigation l) ∧
    ∀ k, filter (fun i => updated_key i = k) l
         = filter (fun i => updated_key i = k)
             (filter (fun i => selectedb statusFilter query i) (db_investigations d)).
Proof.
  eexists. split; [apply filteredInvestigations_run|].
  intros k. apply sort_desc_stable.
Qed.

Lemma find_none_iff {A} (q : A → bool) (l : list A) :
  List.find q l = None ↔ ∀ x, In x l → q x = false.
Proof.
  split.
  - intros H x Hx. by eapply find_none in H.
  - intros H. induction l as [|x l IH]; [done|]. cbn.
    rewrite (H x) by (by left). apply IH. intros y Hy. apply H. by right.
Qed.

(** X26.  Looking a record up by id.  On a database of records the
    selected investigation and the active evidence are computed without
    error for every selection ([null] or an id): the result is the first
    record of the database with that id, and [null], never [undefined],
    when there is none, as it is when nothing is selected or the id is
    left over from before an import. *)
Theorem lookups_by_id_return_first_or_null (s : string) (d : Database) :
  selectedInvestigation (VStr s) (enc_db d)
  = Ok (from_option enc_investigation VNull
          (List.find (fun i => String.eqb (inv_id i) s) (db_investigations d))) ∧
  activeEvidenceObj (VStr s) (enc_db d)
  = Ok (from_option enc_evidence VNull
          (List.find (fun e => String.eqb (ev_id e) s) (db_evidence d))) ∧
  selectedInvestigation VNull (enc_db d) = Ok VNull ∧
  activeEvidenceObj VNull (enc_db d) = Ok VNull ∧
  (selectedInvestigation (VStr s) (enc_db d) = Ok VNull ↔
     ∀ i, In i (db_investigations d) → inv_id i ≠ s) ∧
  (activeEvidenceObj (VStr s) (enc_db d) = Ok VNull ↔
     ∀ e, In e (db_evidence d) → ev_id e ≠ s).
Proof.
  split; [apply selectedInvestigation_run|]. split; [apply activeEvidenceObj_run|].
  split; [|split; [|split]].
  - unfold selectedInvestigation.
    change (get "investigations" (enc_db d))
      with (@Ok value (VArr (map enc_investigation (db_investigations d)))).
    cbn [mbind res_bind method_arr].
    by rewrite (find_by_null enc_investigation inv_id) by apply get_id_investigation.
  - unfold activeEvidenceObj.
    change (get "evidence" (enc_db d))
      with (@Ok value (VArr (map enc_evidence (db_evidence d)))).
    cbn [mbind res_bind method_arr].
    by rewrite (find_by_null enc_evidence ev_id).
  - rewrite selectedInvestigation_run.
    destruct (List.find _ _) as [i|] eqn:E; cbn [from_option].
    + split.
      * unfold enc_investigation. by destruct (inv_updatedAt i).
      * intros H. apply find_some in E as [Hi E]. apply String.eqb_eq in E.
        by destruct (H i Hi).
    + split; [|done]. intros _ i Hi. rewrite find_none_iff in E.
      specialize (E i Hi). by apply String.eqb_neq in E.
  - rewrite activeEvidenceObj_run.
    destruct (List.find _ _) as [e|] eqn:E; cbn [from_option].
    + split; [done|].
      intros H. apply find_some in E as [He E]. apply String.eqb_eq in E.
      by destruct (H e He).
    + split; [|done]. intros _ e He. rewrite find_none_iff in E.
      specialize (E e He). by apply String.eqb_neq in E.
Qed.

(** ** How the operations compose *)

Lemma createInvestigation_run (o : gmap string value) (invs : list value)
    (newid : string) (now : Z) (data : gmap string value) :
  o !! "investigations" = Some (VArr invs) →
  run (createInvestigation newid now data) (VObj o)
  = Ok (VObj (<["investigations" :=
                  VArr (VObj (data ∪ {[ "id" := VStr newid; "createdAt" := VNum now;
                                        "updatedAt" := VNum now ]}) :: invs)]> o)).
Proof. intros Ho. cbn. rewrite Ho. done. Qed.

Lemma createEvidence_run (o : gmap string value) (evs : list value)
    (invId newid : string) (now : Z) (data : gmap string value) :
  o !! "evidence" = Some (VArr evs) →
  run (createEvidence invId newid now data) (VObj o)
  = Ok (VObj (<["evidence" :=
                  VArr (VObj (data ∪ {[ "id" := VStr newid;
                                        "investigationId" := VStr invId;
                                        "createdAt" := VNum now; "updatedAt" := VNum now;
                                        "entries" := VArr [] ]}) :: evs)]> o)).
Proof. intros Ho. cbn. rewrite Ho. done. Qed.

Lemma filter_none {A} (q : A → bool) (l : list A) :
  (∀ x, x ∈ l → q x = false) → filter (fun x => negb (q x)) l = l.
Proof.
  intros H. induction l as [|x l IH]; [done|]. rewrite filter_cons.
  rewrite (H x) by left. rewrite decide_True by done.
  rewrite IH; [done|]. intros y Hy. apply H. by right.
Qed.

Lemma filter_twice {A} (q : A → bool) (l : list A) :
  filter (fun x => q x) (filter (fun x => q x) l) = filter (fun x => q x) l.
Proof.
  induction l as [|x l IH]; [done|]. rewrite filter_cons.
  destruct (q x) eqn:E.
  - rewrite decide_True by done. rewrite filter_cons, E.
    rewrite decide_True by done. by rewrite IH.
  - rewrite decide_False by (cbn; tauto). exact IH.
Qed.

Lemma Forall_filter_bool {A} (P : A → Prop) (q : A → bool) (l : list A) :
  Forall P l → Forall P (filter (fun x => q x) l).
Proof.
  rewrite !Forall_forall. intros H x Hx. apply list_elem_of_filter in Hx. apply H, Hx.
Qed.

Lemma has_id_new (newid : string) (data base : gmap string value) :
  data !! "id" = None → base !! "id" = Some (VStr newid) →
  has_id newid (VObj (data ∪ base)) = true.
Proof.
  intros Hd Hb. unfold has_id. cbn [get]. rewrite lookup_union_r, Hb by done.
  cbn [default is_str]. apply String.eqb_refl.
Qed.

(** X14.  Creating a record and deleting it at once restores the database.  On
    a database whose records are readable, [createInvestigation] with
    fields that carry no [id], followed by a confirmed
    [deleteInvestigation] of the generated id, leaves the database exactly
    as it was, provided the id is new: no investigation has it and no
    evidence refers to it.  So it is for [createEvidence] followed by
    [deleteEvidence]. *)
Theorem create_then_delete_restores :
  (∀ (o : gmap string value) (invs evs : list value) (newid : string) (now : Z)
     (data : gmap string value),
     o !! "investigations" = Some (VArr invs) → o !! "evidence" = Some (VArr evs) →
     Forall nonnullish invs → Forall nonnullish evs →
     data !! "id" = None →
     (∀ i, i ∈ invs → has_id newid i = false) →
     (∀ e, e ∈ evs → owned_by newid e = false) →
     run (createInvestigation newid now data ++ deleteInvestigation true newid) (VObj o)
     = Ok (VObj o)) ∧
  (∀ (o : gmap string value) (evs : list value) (invId newid : string) (now : Z)
     (data : gmap string value),
     o !! "evidence" = Some (VArr evs) → Forall nonnullish evs →
     data !! "id" = None →
     (∀ e, e ∈ evs → has_id newid e = false) →
     run (createEvidence invId newid now data ++ deleteEvidence true newid) (VObj o)
     = Ok (VObj o)).
Proof.
  split.
  - intros o invs evs newid now data Hi He Fi Fe Hid Hfi Hfe.
    rewrite run_app, (createInvestigation_run o invs) by done. cbn [mbind res_bind].
    set (inv := VObj (data ∪ _)).
    assert (Hinv : has_id newid inv = true).
    { by apply has_id_new. }
    rewrite (deleteInvestigation_run _ (inv :: invs) evs).
    2:{ apply lookup_insert_eq. }
    2:{ by rewrite lookup_insert_ne. }
    2:{ by constructor. }
    2:{ done. }
    rewrite filter_cons, Hinv. rewrite decide_False by (cbn; tauto).
    rewrite (filter_none (has_id newid)) by done.
    rewrite (filter_none (owned_by newid)) by done.
    rewrite insert_insert_eq. rewrite (insert_id o "investigations") by done.
    by rewrite insert_id.
  - intros o evs invId newid now data He Fe Hid Hfe.
    rewrite run_app, (createEvidence_run o evs) by done. cbn [mbind res_bind].
    set (ev := VObj (data ∪ _)).
    assert (Hev : has_id newid ev = true).
    { by apply has_id_new. }
    rewrite (deleteEvidence_run _ (ev :: evs)).
    2:{ apply lookup_insert_eq. }
    2:{ by constructor. }
    rewrite filter_cons, Hev. rewrite decide_False by (cbn; tauto).
    rewrite (filter_none (has_id newid)) by done.
    rewrite insert_insert_eq. by rewrite insert_id.
Qed.

(** X15.  Deleting twice is deleting once.  On a database whose records are
    readable, a second confirmed [deleteInvestigation] of the same id
    changes nothing more, and so for [deleteEvidence]. *)
Theorem delete_is_idempotent :
  (∀ (o : gmap string value) (invs evs : list value) (id : string),
     o !! "investigations" = Some (VArr invs) → o !! "evidence" = Some (VArr evs) →
     Forall nonnullish invs → Forall nonnullish evs →
     run (deleteInvestigation true id ++ deleteInvestigation true id) (VObj o)
     = run (deleteInvestigation true id) (VObj o)) ∧
  (∀ (o : gmap string value) (evs : list value) (id : string),
     o !! "evidence" = Some (VArr evs) → Forall nonnullish evs →
     run (deleteEvidence true id ++ deleteEvidence true id) (VObj o)
     = run (deleteEvidence true id) (VObj o)).
Proof.
  split.
  - intros o invs evs id Hi He Fi Fe.
    rewrite run_app, (deleteInvestigation_run o invs evs) by done. cbn [mbind res_bind].
    erewrite deleteInvestigation_run.
    2:{ rewrite lookup_insert_ne by done. apply lookup_insert_eq. }
    2:{ apply lookup_insert_eq. }
    2:{ by apply (Forall_filter_bool _ (fun i => negb (has_id id i))). }
    2:{ by apply (Forall_filter_bool _ (fun e => negb (owned_by id e))). }
    rewrite (filter_twice (fun i => negb (has_id id i))).
    rewrite (filter_twice (fun e => negb (owned_by id e))).
    do 2 f_equal. apply map_eq. intros k.
    destruct (decide (k = "evidence")) as [->|]; [by rewrite !lookup_insert_eq|].
    rewrite !(lookup_insert_ne _ "evidence") by done.
    destruct (decide (k = "investigations")) as [->|]; [by rewrite !lookup_insert_eq|].
    by rewrite !lookup_insert_ne.
  - intros o evs id He Fe.
    rewrite run_app, (deleteEvidence_run o evs) by done. cbn [mbind res_bind].
    erewrite deleteEvidence_run.
    2:{ apply lookup_insert_eq. }
    2:{ by apply (Forall_filter_bool _ (fun e => negb (has_id id e))). }
    rewrite (filter_twice (fun e => negb (has_id id e))).
    by rewrite insert_insert_eq.
Qed.

Lemma merged_nonnullish (id : string) (data : gmap string value) (now : Z) (l : list value) :
  Forall nonnullish l → Forall nonnullish (map (merged id data now) l).
Proof.
  intros H. apply Forall_fmap. eapply Forall_impl; [exact H|].
  intros r Hr. cbn. unfold merged. destruct (has_id id r); [|done]. by destruct r.
Qed.

Lemma merged_twice (id : string) (d1 d2 : gmap string value) (now1 now2 : Z) (r : value) :
  d1 !! "id" = None →
  merged id d2 now2 (merged id d1 now1 r) = merged id (d2 ∪ d1) now2 r.
Proof.
  intros Hid. unfold merged at 2 3. destruct (has_id id r) eqn:E.
  - destruct (has_id_obj _ _ E) as (ro & -> & Hro).
    unfold merged.
    assert (H1 : has_id id (VObj (<["updatedAt" := VNum now1]> (d1 ∪ ro))) = true).
    { unfold has_id. cbn [get]. rewrite lookup_insert_ne by done.
      rewrite lookup_union_r, Hro by done. cbn [default is_str]. apply String.eqb_refl. }
    rewrite H1. f_equal. apply map_eq. intros k.
    destruct (decide (k = "updatedAt")) as [->|Hk]; [by rewrite !lookup_insert_eq|].
    rewrite !(lookup_insert_ne _ "updatedAt") by done.
    rewrite !lookup_union. rewrite (lookup_insert_ne _ "updatedAt") by done.
    rewrite lookup_union. by destruct (d2 !! k), (d1 !! k), (ro !! k).
  - unfold merged. by rewrite E.
Qed.

(** X16.  Two updates of one record amount to one.  On a database whose records
    are readable, [updateInvestigation(id, d1)] followed by
    [updateInvestigation(id, d2)] gives what the single update with the
    fields of [d2] laid over those of [d1] gives at the later time,
    provided [d1] does not change the id: per field the last writer wins.
    So it is for [updateEvidence]. *)
Theorem updates_compose :
  (∀ (o : gmap string value) (l : list value) (id : string)
     (d1 d2 : gmap string value) (now1 now2 : Z),
     o !! "investigations" = Some (VArr l) → Forall nonnullish l → d1 !! "id" = None →
     run (updateInvestigation id d1 now1 ++ updateInvestigation id d2 now2) (VObj o)
     = run (updateInvestigation id (d2 ∪ d1) now2) (VObj o)) ∧
  (∀ (o : gmap string value) (l : list value) (id : string)
     (d1 d2 : gmap string value) (now1 now2 : Z),
     o !! "evidence" = Some (VArr l) → Forall nonnullish l → d1 !! "id" = None →
     run (updateEvidence id d1 now1 ++ updateEvidence id d2 now2) (VObj o)
     = run (updateEvidence id (d2 ∪ d1) now2) (VObj o)).
Proof.
  split; intros o l id d1 d2 now1 now2 Ho Hl Hid; rewrite run_app.
  - rewrite !(updateInvestigation_run o l) by done. cbn [mbind res_bind].
    rewrite (updateInvestigation_run _ (map (merged id d1 now1) l));
      [|apply lookup_insert_eq|by apply merged_nonnullish].
    rewrite insert_insert_eq, map_map. do 4 f_equal.
    apply map_ext. intros r. by apply merged_twice.
  - rewrite !(updateEvidence_run o l) by done. cbn [mbind res_bind].
    rewrite (updateEvidence_run _ (map (merged id d1 now1) l));
      [|apply lookup_insert_eq|by apply merged_nonnullish].
    rewrite insert_insert_eq, map_map. do 4 f_equal.
    apply map_ext. intros r. by apply merged_twice.
Qed.

(** X17.  [deleteEvidence].  On a database whose evidence records are readable,
    a confirmed [deleteEvidence(id)] makes one [setDb] call, which keeps,
    in order and unchanged, the evidence records whose [id] is not [id]
    and every other property of the database, the investigations among
    them; a record goes with its whole thread.  When no record has the id
    the database is unchanged, and a declined deletion makes no call. *)
Theorem deleteEvidence_removes_one_thread
    (o : gmap string value) (evs : list value) (id : string) :
  o !! "evidence" = Some (VArr evs) → Forall nonnullish evs →
  let evs' := filter (fun e => negb (has_id id e)) evs in
  length (deleteEvidence true id) = 1%nat ∧
  run (deleteEvidence true id) (VObj o) = Ok (VObj (<["evidence" := VArr evs']> o)) ∧
  (∀ e, e ∈ evs' ↔ e ∈ evs ∧ has_id id e = false) ∧
  (∀ k, k ≠ "evidence" → (<["evidence" := VArr evs']> o) !! k = o !! k) ∧
  ((∀ e, e ∈ evs → has_id id e = false) →
     run (deleteEvidence true id) (VObj o) = Ok (VObj o)) ∧
  deleteEvidence false id = [].
Proof.
  intros He Fe evs'. split; [reflexivity|]. split; [by apply deleteEvidence_run|].
  split; [|split; [|split; [|reflexivity]]].
  - intros e. unfold evs'. rewrite list_elem_of_filter.
    destruct (has_id id e); cbn; intuition congruence.
  - intros k Hk. by rewrite lookup_insert_ne.
  - intros Hnone. rewrite (deleteEvidence_run o evs) by done.
    rewrite (filter_none (has_id id)) by done. by rewrite insert_id.
Qed.

(** ** The CSV export after an operation, and when it fails *)

Lemma find_filter {A} (p q : A → bool) (l : list A) :
  (∀ x, p x = true → q x = true) →
  List.find p (filter (fun x => q x) l) = List.find p l.
Proof.
  intros H. induction l as [|x l IH]; [done|]. rewrite filter_cons. cbn [List.find].
  destruct (p x) eqn:Ep.
  - rewrite (H x Ep). rewrite decide_True by done. cbn [List.find]. by rewrite Ep.
  - destruct (q x).
    + rewrite decide_True by done. cbn [List.find]. by rewrite Ep.
    + rewrite decide_False by (cbn; tauto). exact IH.
Qed.

Lemma flat_map_ext_in {A B} (f g : A → list B) (l : list A) :
  (∀ x, In x l → f x = g x) → flat_map f l = flat_map g l.
Proof.
  intros H. induction l as [|x l IH]; [done|]. cbn.
  rewrite (H x) by (by left). rewrite IH; [done|]. intros y Hy. apply H. by right.
Qed.

(** X18.  Deleting an investigation takes its rows, and only those, out of the
    export.  After a confirmed [deleteInvestigation(id)] on a database of
    records with valid time stamps, the CSV export has, in the same
    order, the rows of the evidence records that do not refer to [id],
    each exactly as it was before, investigation columns included. *)
Theorem deleteInvestigation_removes_its_rows (iso : Z → string) (d : Database) (id : string) :
  exportable d →
  let d' := apply_event (DeleteInvestigation true id) d in
  run (deleteInvestigation true id) (enc_db d) = Ok (enc_db d') ∧
  exportCSV iso (enc_db d') = Ok (csv_text (csv_header_names :: csv_data_rows iso d')) ∧
  csv_data_rows iso d'
  = flat_map (fun ev => map (csv_row iso (parent_of d ev) ev) (ev_entries ev))
      (filter (fun ev => negb (String.eqb (ev_investigationId ev) id)) (db_evidence d)).
Proof.
  intros Hd d'.
  assert (Hd' : exportable d').
  { unfold exportable, d'. cbn.
    by apply (Forall_filter_bool _ (fun e => negb (String.eqb (ev_investigationId e) id))). }
  split; [|split].
  - destruct (step_records (DeleteInvestigation true id) d eq_refl) as (us & [= <-] & H).
    exact H.
  - by apply exportCSV_run.
  - unfold csv_data_rows, d'.
    cbn [apply_event with_evidence with_investigations db_evidence db_investigations].
    apply flat_map_ext_in. intros ev Hev.
    apply list_elem_of_In, list_elem_of_filter in Hev as [Hne _].
    f_equal. f_equal. unfold parent_of. cbn [db_investigations].
    apply (find_filter _ (fun i => negb (String.eqb (inv_id i) id))).
    intros i Hi. apply String.eqb_eq in Hi. rewrite Hi.
    by destruct (String.eqb (ev_investigationId ev) id).
Qed.

(** X19.  An added entry is one more row, on top of the rows of its thread.
    After [addEntry(evidenceId, payload)] at a valid time on a database of
    records with valid time stamps, the CSV export has the rows it had,
    and before the rows of each evidence record with that id the row of
    the new entry. *)
Theorem addEntry_adds_one_row
    (iso : Z → string) (d : Database) (eid newid : string) (now : Z) (p : EntryPayload) :
  exportable d → (Z.abs now <= 8640000000000000)%Z →
  let d' := apply_event (AddEntry eid newid now p) d in
  let en := new_entry newid now p in
  run (addEntry eid newid now (entry_payload p)) (enc_db d) = Ok (enc_db d') ∧
  exportCSV iso (enc_db d') = Ok (csv_text (csv_header_names :: csv_data_rows iso d')) ∧
  csv_data_rows iso d'
  = flat_map (fun ev =>
                (if String.eqb (ev_id ev) eid
                 then [csv_row iso (parent_of d ev) ev en] else [])
                ++ map (csv_row iso (parent_of d ev) ev) (ev_entries ev))%list
      (db_evidence d) ∧
  length (csv_data_rows iso d')
  = (length (csv_data_rows iso d)
     + length (filter (fun ev => String.eqb (ev_id ev) eid) (db_evidence d)))%nat.
Proof.
  intros Hd Hnow d' en.
  assert (Hrows : csv_data_rows iso d'
    = flat_map (fun ev =>
                  (if String.eqb (ev_id ev) eid
                   then [csv_row iso (parent_of d ev) ev en] else [])
                  ++ map (csv_row iso (parent_of d ev) ev) (ev_entries ev))%list
        (db_evidence d)).
  { unfold csv_data_rows, d'. cbn [apply_event with_evidence db_evidence].
    rewrite !flat_map_concat_map, map_map. f_equal. apply map_ext. intros ev.
    unfold extend_evidence. destruct (String.eqb (ev_id ev) eid); reflexivity. }
  assert (Hd' : exportable d').
  { unfold exportable, d'. cbn. apply Forall_fmap.
    eapply Forall_impl; [exact Hd|]. intros ev Hev. cbn. unfold extend_evidence.
    destruct (String.eqb (ev_id ev) eid); [|done]. by constructor. }
  split; [|split; [|split]].
  - destruct (step_records (AddEntry eid newid now p) d eq_refl) as (us & [= <-] & H).
    exact H.
  - by apply exportCSV_run.
  - exact Hrows.
  - rewrite Hrows. clear. unfold csv_data_rows.
    induction (db_evidence d) as [|ev evs IH]; [done|].
    cbn [flat_map]. rewrite !length_app, IH, filter_cons.
    destruct (String.eqb (ev_id ev) eid).
    + rewrite decide_True by done. cbn [length]. lia.
    + rewrite decide_False by (cbn; tauto). cbn [length]. lia.
Qed.

(** X20.  The export is all or nothing.  When some entry of a database of
    records has a time stamp that is not a valid time value (beyond
    8.64e15 milliseconds from the epoch), [toISOString] throws a
    [RangeError] while the rows are collected: [exportCSV] throws it and
    builds no text at all. *)
Theorem exportCSV_fails_on_invalid_time (iso : Z → string) (d : Database) :
  Exists (fun ev => Exists (fun en => ¬ exportable_entry en) (ev_entries ev))
         (db_evidence d) →
  exportCSV_rows iso (enc_db d) = Throw RangeError ∧
  exportCSV iso (enc_db d) = Throw RangeError.
Proof.
  intros Hbad. pose proof (exportCSV_rows_invalid iso d Hbad) as Hrows.
  split; [exact Hrows|]. unfold exportCSV. by rewrite Hrows.
Qed.

(** ** The CSV text determines the table *)

Lemma append_cons (c : ascii) (a b : string) : String c a ++ b = String c (a ++ b).
Proof. reflexivity. Qed.

Lemma append_nil (b : string) : EmptyString ++ b = b.
Proof. reflexivity. Qed.

Lemma string_app_assoc (a b c : string) : (a ++ b) ++ c = a ++ b ++ c.
Proof. induction a as [|x a IH]; [done|]. rewrite !append_cons. by f_equal. Qed.

Lemma append_nil_r (a : string) : a ++ EmptyString = a.
Proof. induction a as [|x a IH]; [done|]. rewrite append_cons. by f_equal. Qed.

Ltac app_norm H := rewrite ?append_cons, ?append_nil in H.

Lemma needsQuotes_head (c : ascii) (s : string) :
  needsQuotes (String c s) = false →
  c ≠ dquote ∧ c ≠ ","%char ∧ c ≠ newline ∧ needsQuotes s = false.
Proof.
  cbn. rewrite !orb_false_iff. intros [[[H1 H2] H3] H4].
  apply Ascii.eqb_neq in H1, H2, H3. done.
Qed.

Lemma plain_field_inj (f1 f2 t1 t2 : string) :
  needsQuotes f1 = false → needsQuotes f2 = false → field_end t1 → field_end t2 →
  f1 ++ t1 = f2 ++ t2 → f1 = f2 ∧ t1 = t2.
Proof.
  revert f2. induction f1 as [|c f1 IH]; intros [|c' f2] H1 H2 E1 E2 H; app_norm H.
  - done.
  - subst t1. apply needsQuotes_head in H2 as (_ & ? & ? & _). cbn in E1. tauto.
  - subst t2. apply needsQuotes_head in H1 as (_ & ? & ? & _). cbn in E2. tauto.
  - injection H as -> H. apply needsQuotes_head in H1 as (_ & _ & _ & H1).
    apply needsQuotes_head in H2 as (_ & _ & _ & H2).
    destruct (IH f2 H1 H2 E1 E2 H) as [-> ->]. done.
Qed.

Lemma quoted_field_inj (f1 f2 t1 t2 : string) :
  field_end t1 → field_end t2 →
  doubleQuotes f1 ++ String dquote t1 = doubleQuotes f2 ++ String dquote t2 →
  f1 = f2 ∧ t1 = t2.
Proof.
  assert (Hq : ∀ t, field_end (String dquote t) → False).
  { intros t [H|H]; discriminate. }
  revert f2. induction f1 as [|c f1 IH]; intros [|c' f2] E1 E2 H;
    cbn [doubleQuotes] in H.
  - app_norm H. by injection H as ->.
  - destruct (Ascii.eqb_spec c' dquote) as [->|Hc]; app_norm H.
    + injection H as ->. destruct (Hq _ E1).
    + injection H as H _. congruence.
  - destruct (Ascii.eqb_spec c dquote) as [->|Hc]; app_norm H.
    + injection H as <-. destruct (Hq _ E2).
    + injection H as H _. congruence.
  - destruct (Ascii.eqb_spec c dquote) as [->|Hc],
             (Ascii.eqb_spec c' dquote) as [->|Hc']; app_norm H.
    + injection H as H. destruct (IH f2 E1 E2 H) as [-> ->]. done.
    + injection H as H _. congruence.
    + injection H as H _. congruence.
    + injection H as -> H. destruct (IH f2 E1 E2 H) as [-> ->]. done.
Qed.

Lemma csv_field_inj (f1 f2 t1 t2 : string) :
  field_end t1 → field_end t2 →
  csv_field f1 ++ t1 = csv_field f2 ++ t2 → f1 = f2 ∧ t1 = t2.
Proof.
  intros E1 E2. unfold csv_field, quoted.
  destruct (needsQuotes f1) eqn:N1, (needsQuotes f2) eqn:N2; rewrite ?append_cons.
  - rewrite !string_app_assoc, !append_cons, !append_nil. intros [= H].
    by apply quoted_field_inj.
  - intros H. exfalso. destruct f2 as [|c f2]; app_norm H.
    + subst t2. destruct E2 as [?|?]; discriminate.
    + injection H as <- _. apply needsQuotes_head in N2 as (? & _). done.
  - intros H. exfalso. destruct f1 as [|c f1]; app_norm H.
    + subst t1. destruct E1 as [?|?]; discriminate.
    + injection H as -> _. apply needsQuotes_head in N1 as (? & _). done.
  - by apply plain_field_inj.
Qed.

Lemma line_end_field_end (t : string) : line_end t → field_end t.
Proof. destruct t; [done|]. cbn. auto. Qed.

Lemma csv_line_inj (r1 r2 : list string) (t1 t2 : string) :
  r1 ≠ [] → r2 ≠ [] → line_end t1 → line_end t2 →
  String.concat "," (map csv_field r1) ++ t1 = String.concat "," (map csv_field r2) ++ t2 →
  r1 = r2 ∧ t1 = t2.
Proof.
  revert r2. induction r1 as [|f r1 IH]; intros [|g r2] H1 H2 E1 E2 H; try done.
  clear H1 H2. destruct r1 as [|f' r1], r2 as [|g' r2]; cbn [map String.concat] in H.
  - apply csv_field_inj in H as [-> ->]; [done|by apply line_end_field_end..].
  - rewrite string_app_assoc in H.
    apply csv_field_inj in H as [_ ->];
      [|by apply line_end_field_end|cbn; by left]. cbn in E1. discriminate.
  - rewrite string_app_assoc in H.
    apply csv_field_inj in H as [_ <-];
      [|cbn; by left|by apply line_end_field_end]. cbn in E2. discriminate.
  - rewrite !string_app_assoc in H.
    apply csv_field_inj in H as [-> H]; [|cbn; by left..].
    app_norm H. injection H as H.
    destruct (IH (g' :: r2)) as [Hr ->]; [done|done|done|done|exact H|].
    by rewrite Hr.
Qed.

Lemma csv_text_inj (rows1 rows2 : list (list string)) :
  rows1 ≠ [] → rows2 ≠ [] →
  Forall (fun r => r ≠ []) rows1 → Forall (fun r => r ≠ []) rows2 →
  csv_text rows1 = csv_text rows2 → rows1 = rows2.
Proof.
  unfold csv_text. revert rows2.
  induction rows1 as [|r1 rows1 IH]; intros rows2 H1 H2 F1 F2 H; [done|]. clear H1.
  destruct rows2 as [|r2 rows2]; [done|]. clear H2.
  apply Forall_cons in F1 as [Hr1 F1]. apply Forall_cons in F2 as [Hr2 F2].
  destruct rows1 as [|r1' rows1], rows2 as [|r2' rows2]; cbn [map String.concat] in H.
  - rewrite <- (append_nil_r (String.concat _ (map csv_field r1))) in H.
    rewrite <- (append_nil_r (String.concat _ (map csv_field r2))) in H.
    apply csv_line_inj in H as [-> _]; done.
  - rewrite <- (append_nil_r (String.concat _ (map csv_field r1))) in H.
    apply csv_line_inj in H as [_ H]; done.
  - rewrite <- (append_nil_r (String.concat _ (map csv_field r2))) in H.
    apply csv_line_inj in H as [_ H]; done.
  - apply csv_line_inj in H as [-> H]; [|done..].
    app_norm H. injection H as H.
    rewrite (IH (r2' :: rows2)); done.
Qed.

(** X21.  The export can be read back.  Two tables whose rows all have at least
    one field, and which have at least one row, have the same CSV text
    only if they are the same table: with the quoting of [csvSafe], no
    comma, quote or line feed inside a field can be taken for a separator.
    So two databases of records with valid time stamps whose exports are
    the same text have the same rows. *)
Theorem csv_text_determines_rows :
  (∀ rows1 rows2 : list (list string),
     rows1 ≠ [] → rows2 ≠ [] →
     Forall (fun r => r ≠ []) rows1 → Forall (fun r => r ≠ []) rows2 →
     csv_text rows1 = csv_text rows2 → rows1 = rows2) ∧
  (∀ (iso : Z → string) (d1 d2 : Database),
     exportable d1 → exportable d2 →
     exportCSV iso (enc_db d1) = exportCSV iso (enc_db d2) →
     csv_data_rows iso d1 = csv_data_rows iso d2).
Proof.
  split; [exact csv_text_inj|].
  intros iso d1 d2 H1 H2. rewrite !exportCSV_run by done. intros [= H].
  assert (Hrows : ∀ d, Forall (fun r : list string => r ≠ [])
                         (csv_header_names :: csv_data_rows iso d)).
  { intros d. constructor; [done|]. unfold csv_data_rows.
    apply Forall_forall. intros r Hr. apply list_elem_of_In, in_flat_map in Hr.
    destruct Hr as (ev & _ & Hr). apply in_map_iff in Hr as (en & <- & _). done. }
  apply csv_text_inj in H; [by injection H| | |apply Hrows..]; done.
Qed.

(** ** The forms *)

Lemma trimEnd_cons (c : ascii) (s : string) :
  is_space c = false → ∃ r, trimEnd (String c s) = String c r.
Proof. intros Hc. cbn. destruct (trimEnd s); [rewrite Hc|]; eauto. Qed.

Lemma trimEnd_step (c : ascii) (s : string) :
  trimEnd (String c s)
  = match trimEnd s with
    | EmptyString => if is_space c then EmptyString else String c EmptyString
    | r => String c r
    end.
Proof. reflexivity. Qed.

Lemma trimEnd_idem (s : string) : trimEnd (trimEnd s) = trimEnd s.
Proof.
  induction s as [|c s IH]; [done|]. rewrite trimEnd_step.
  destruct (trimEnd s) as [|x r] eqn:E.
  - destruct (is_space c) eqn:Hc; [done|]. cbn. by rewrite Hc.
  - by rewrite trimEnd_step, IH.
Qed.

Lemma trimStart_head (s : string) :
  trimStart s = EmptyString ∨ ∃ c r, trimStart s = String c r ∧ is_space c = false.
Proof.
  induction s as [|c s IH]; [by left|]. cbn.
  destruct (is_space c) eqn:Hc; [exact IH|right; eauto].
Qed.

Lemma trimStart_fixed (c : ascii) (r : string) :
  is_space c = false → trimStart (String c r) = String c r.
Proof. intros Hc. cbn. by rewrite Hc. Qed.

Lemma trim_head (s : string) :
  trim s = EmptyString ∨ ∃ c r, trim s = String c r ∧ is_space c = false.
Proof.
  unfold trim. destruct (trimStart_head s) as [->|(c & r & -> & Hc)]; [by left|].
  right. destruct (trimEnd_cons c r Hc) as [r' ->]. eauto.
Qed.

Lemma trim_idem (s : string) : trim (trim s) = trim s.
Proof.
  destruct (trim_head s) as [H|(c & r & H & Hc)].
  - by rewrite H.
  - unfold trim at 1. rewrite H, (trimStart_fixed c r Hc), <- H.
    unfold trim. apply trimEnd_idem.
Qed.

Lemma trim_space (c : ascii) (s : string) : is_space c = true → trim (String c s) = trim s.
Proof. intros Hc. unfold trim. cbn [trimStart]. by rewrite Hc. Qed.

Lemma occurs_trimStart (c : ascii) (s : string) :
  occurs c s = false → occurs c (trimStart s) = false.
Proof.
  induction s as [|x s IH]; [done|]. cbn. intros H.
  apply orb_false_iff in H as [H1 H2]. destruct (is_space x); [auto|].
  cbn. by rewrite H1, H2.
Qed.

Lemma occurs_trimEnd (c : ascii) (s : string) :
  occurs c s = false → occurs c (trimEnd s) = false.
Proof.
  induction s as [|x s IH]; [done|]. cbn [occurs]. intros H.
  apply orb_false_iff in H as [H1 H2]. rewrite trimEnd_step. specialize (IH H2).
  destruct (trimEnd s) as [|y r].
  - destruct (is_space x); [done|]. cbn. by rewrite H1.
  - cbn [occurs] in *. by rewrite H1, IH.
Qed.

Lemma occurs_trim (c : ascii) (s : string) : occurs c s = false → occurs c (trim s) = false.
Proof. intros H. by apply occurs_trimEnd, occurs_trimStart. Qed.

Lemma split_comma_cons (s : string) : ∃ x r, split_comma s = x :: r.
Proof.
  induction s as [|c s (x & r & IH)]; [by eexists _, _|]. cbn.
  destruct (Ascii.eqb c ","); [by eexists _, _|]. rewrite IH. by eexists _, _.
Qed.

Lemma split_comma_pieces (s : string) :
  Forall (fun t => occurs ","%char t = false) (split_comma s).
Proof.
  induction s as [|c s IH]; [by repeat constructor|]. cbn.
  destruct (Ascii.eqb c ",") eqn:Hc; [by constructor|].
  destruct (split_comma s) as [|x r]; [constructor; [cbn; by rewrite Hc|done]|].
  apply Forall_cons in IH as [Hx Hr]. constructor; [|done]. cbn. by rewrite Hc.
Qed.

Lemma split_comma_app (t rest : string) :
  occurs ","%char t = false →
  split_comma (t ++ String ","%char rest) = t :: split_comma rest.
Proof.
  induction t as [|c t IH]; intros H.
  - reflexivity.
  - cbn [occurs] in H. apply orb_false_iff in H as [Hc Ht].
    change (String c t ++ String ","%char rest) with (String c (t ++ String ","%char rest)).
    cbn [split_comma]. rewrite Hc, IH by done. done.
Qed.

Lemma split_comma_plain (t : string) :
  occurs ","%char t = false → split_comma t = [t].
Proof.
  induction t as [|c t IH]; intros H; [done|].
  cbn [occurs] in H. apply orb_false_iff in H as [Hc Ht].
  cbn [split_comma]. rewrite Hc, IH by done. done.
Qed.

Lemma clean_tags_clean (tags : string) : Forall clean_tag (clean_tags tags).
Proof.
  unfold clean_tags. apply Forall_forall. intros t Ht.
  apply list_elem_of_filter in Ht as [Hne Ht].
  apply list_elem_of_fmap in Ht as (x & -> & Hx).
  split; [done|]. split; [apply trim_idem|].
  apply occurs_trim. pose proof (split_comma_pieces tags) as H.
  rewrite Forall_forall in H. by apply H.
Qed.

Lemma occurs_app (c : ascii) (a b : string) :
  occurs c (a ++ b) = occurs c a || occurs c b.
Proof.
  induction a as [|x a IH]; [done|].
  change (String x a ++ b) with (String x (a ++ b)). cbn [occurs].
  by rewrite IH, orb_assoc.
Qed.

(** The texts of clean tags, joined by a comma and a space, split back
    into the tags. *)
Lemma split_joined (pre : string) (l : list string) :
  l ≠ [] → Forall clean_tag l →
  pre = EmptyString ∨ pre = " " →
  map trim (split_comma (pre ++ String.concat ", " l)) = l.
Proof.
  revert pre. induction l as [|x l IH]; intros pre Hne Hl Hpre; [done|]. clear Hne.
  apply Forall_cons in Hl as [(Hx1 & Hx2 & Hx3) Hl].
  assert (Hpx : occurs ","%char (pre ++ x) = false).
  { rewrite occurs_app, Hx3. by destruct Hpre as [->| ->]. }
  assert (Htx : trim (pre ++ x) = x).
  { destruct Hpre as [->| ->]; [exact Hx2|].
    change (" " ++ x) with (String " "%char x). by rewrite trim_space. }
  destruct l as [|y l].
  - cbn [String.concat]. rewrite split_comma_plain by done. cbn [map]. by rewrite Htx.
  - change (String.concat ", " (x :: y :: l))
      with (x ++ ", " ++ String.concat ", " (y :: l)).
    change (pre ++ x ++ ", " ++ String.concat ", " (y :: l))
      with (pre ++ x ++ String ","%char (" " ++ String.concat ", " (y :: l))).
    rewrite <- string_app_assoc, split_comma_app by done.
    cbn [map]. rewrite Htx. f_equal. apply IH; [done|done|by right].
Qed.

Lemma clean_tags_joined (l : list string) :
  Forall clean_tag l → clean_tags (String.concat ", " l) = l.
Proof.
  intros Hl. unfold clean_tags. destruct l as [|x l].
  - cbn [String.concat split_comma map]. rewrite filter_cons.
    by rewrite decide_False by (intros H; by apply H).
  - change (String.concat ", " (x :: l)) with (EmptyString ++ String.concat ", " (x :: l)).
    rewrite split_joined; [|done|done|by left].
    generalize (x :: l) Hl. clear. intros l Hl.
    induction Hl as [|y l Hy _ IH]; [done|].
    rewrite filter_cons, IH. rewrite decide_True; [done|]. apply Hy.
Qed.

(** X22.  The payloads of the two record forms.  With texts in its cells,
    [InvestigationForm] hands over the title, case number and description
    trimmed, the status as it is, and the tags obtained by splitting the
    tag text at commas, trimming the pieces and dropping the empty ones;
    [EvidenceForm] does the same with title, type, summary and tags.
    Trimming twice is trimming once, and every tag handed over is not
    empty, has no comma and no white space at either end.  When the
    title, case number or description cell does not hold a text, as
    after opening a record in which it is a number, submitting throws a
    [TypeError]. *)
Theorem form_payloads_are_normalised :
  (∀ title caseNumber description status tags : string,
     InvestigationForm_submit
       {| if_title := VStr title; if_caseNumber := VStr caseNumber;
          if_description := VStr description; if_status := VStr status;
          if_tags := tags |}
     = Ok (investigation_payload
             (investigation_form_payload title caseNumber description status tags))) ∧
  (∀ title type summary tags : string,
     EvidenceForm_submit
       {| ef_title := VStr title; ef_type := VStr type; ef_summary := VStr summary;
          ef_tags := tags |}
     = Ok (evidence_payload (evidence_form_payload title type summary tags))) ∧
  (∀ s, trim (trim s) = trim s) ∧
  (∀ tags, Forall clean_tag (clean_tags tags)) ∧
  (∀ st, (∀ s, if_title st ≠ VStr s) ∨ (∀ s, if_caseNumber st ≠ VStr s)
         ∨ (∀ s, if_description st ≠ VStr s) →
         InvestigationForm_submit st = Throw TypeError).
Proof.
  split; [reflexivity|]. split; [reflexivity|]. split; [exact trim_idem|].
  split; [exact clean_tags_clean|].
  intros [t c d s tags] H. unfold InvestigationForm_submit. cbn in *.
  destruct H as [H|[H|H]].
  - destruct t; try done. by destruct (H s0).
  - destruct c; try (by destruct t). by destruct (H s0).
  - destruct d; try (by destruct t, c). by destruct (H s0).
Qed.

Lemma InvestigationForm_init_record (i : Investigation) :
  inv_status i ≠ EmptyString →
  InvestigationForm_init (enc_investigation i)
  = Ok {| if_title := VStr (inv_title i); if_caseNumber := VStr (inv_caseNumber i);
          if_description := VStr (inv_description i); if_status := VStr (inv_status i);
          if_tags := String.concat ", " (inv_tags i) |}.
Proof.
  intros Hs. unfold InvestigationForm_init.
  destruct (get_investigation i) as (H1 & H2 & H3 & H4 & H5 & _).
  assert (Ho : ∀ k, opt_get k (enc_investigation i) = get k (enc_investigation i)).
  { intros k. unfold enc_investigation. by destruct (inv_updatedAt i). }
  rewrite !Ho, H1, H2, H3, H4, H5. cbn [mbind res_bind].
  change (js_or (VArr (map VStr (inv_tags i))) (VArr [])) with (VArr (map VStr (inv_tags i))).
  cbn [method_arr mbind res_bind]. rewrite join_values_strings. cbn [mbind res_bind].
  f_equal. f_equal; unfold js_or; cbn.
  - by destruct (String.eqb_spec (inv_title i) EmptyString) as [->|].
  - by destruct (String.eqb_spec (inv_caseNumber i) EmptyString) as [->|].
  - by destruct (String.eqb_spec (inv_description i) EmptyString) as [->|].
  - by destruct (String.eqb_spec (inv_status i) EmptyString).
Qed.

Lemma EvidenceForm_init_record (e : Evidence) :
  ev_type e ≠ EmptyString →
  EvidenceForm_init (enc_evidence e)
  = Ok {| ef_title := VStr (ev_title e); ef_type := VStr (ev_type e);
          ef_summary := VStr (ev_summary e);
          ef_tags := String.concat ", " (ev_tags e) |}.
Proof.
  intros Hs. unfold EvidenceForm_init.
  change (opt_get "title" (enc_evidence e)) with (@Ok value (VStr (ev_title e))).
  change (opt_get "type" (enc_evidence e)) with (@Ok value (VStr (ev_type e))).
  change (opt_get "summary" (enc_evidence e)) with (@Ok value (VStr (ev_summary e))).
  change (opt_get "tags" (enc_evidence e)) with (@Ok value (VArr (map VStr (ev_tags e)))).
  cbn [mbind res_bind].
  change (js_or (VArr (map VStr (ev_tags e))) (VArr [])) with (VArr (map VStr (ev_tags e))).
  cbn [method_arr mbind res_bind]. rewrite join_values_strings. cbn [mbind res_bind].
  f_equal. f_equal; unfold js_or; cbn.
  - by destruct (String.eqb_spec (ev_title e) EmptyString) as [->|].
  - by destruct (String.eqb_spec (ev_type e) EmptyString).
  - by destruct (String.eqb_spec (ev_summary e) EmptyString) as [->|].
Qed.

(** X23.  An edit without changes hands the record's fields back.  Open the
    edit form on an investigation whose fields are as the form produces
    them (texts trimmed, status not empty, tags clean) and submit without
    typing: the payload is exactly the fields the record has, so the
    update changes [updatedAt] only.  So it is for [EvidenceForm].  Every
    payload of a form with a status, or type, that is not empty is of
    this kind. *)
Theorem unchanged_edit_returns_the_fields :
  (∀ i, clean_investigation_fields (investigation_fields i) →
     ∃ st, InvestigationForm_init (enc_investigation i) = Ok st ∧
           InvestigationForm_submit st
           = Ok (investigation_payload (investigation_fields i))) ∧
  (∀ e, clean_evidence_fields (evidence_fields e) →
     ∃ st, EvidenceForm_init (enc_evidence e) = Ok st ∧
           EvidenceForm_submit st = Ok (evidence_payload (evidence_fields e))) ∧
  (∀ title caseNumber description status tags, status ≠ EmptyString →
     clean_investigation_fields
       (investigation_form_payload title caseNumber description status tags)) ∧
  (∀ title type summary tags, type ≠ EmptyString →
     clean_evidence_fields (evidence_form_payload title type summary tags)).
Proof.
  split; [|split; [|split]].
  - intros i (H1 & H2 & H3 & H4 & H5).
    cbn [investigation_fields ip_title ip_caseNumber ip_description ip_status ip_tags] in *.
    eexists. split; [by apply InvestigationForm_init_record|].
    unfold InvestigationForm_submit. cbn [if_title if_caseNumber if_description
      if_status if_tags trim_value mbind res_bind].
    by rewrite H1, H2, H3, clean_tags_joined.
  - intros e (H1 & H2 & H3 & H4).
    cbn [evidence_fields ep_title ep_type ep_summary ep_tags] in *.
    eexists. split; [by apply EvidenceForm_init_record|].
    unfold EvidenceForm_submit. cbn [ef_title ef_type ef_summary ef_tags trim_value
      mbind res_bind].
    by rewrite H1, H2, clean_tags_joined.
  - intros title caseNumber description status tags Hs. repeat split; cbn;
      try apply trim_idem; [done|apply clean_tags_clean].
  - intros title type summary tags Hs. repeat split; cbn;
      try apply trim_idem; [done|apply clean_tags_clean].
Qed.

Lemma submitted_row (a : Attachment) :
  (l ← get "label" (enc_attachment a) ≫= trim_value;
   label ← (if String.eqb l EmptyString
            then get "url" (enc_attachment a) ≫= trim_value else Ok l);
   u ← get "url" (enc_attachment a) ≫= trim_value;
   Ok (VObj {[ "label" := VStr label; "url" := VStr u ]}))
  = Ok (enc_attachment (submitted_attachment a)).
Proof.
  change (get "label" (enc_attachment a)) with (@Ok value (VStr (att_label a))).
  change (get "url" (enc_attachment a)) with (@Ok value (VStr (att_url a))).
  cbn [mbind res_bind trim_value]. unfold submitted_attachment.
  by destruct (String.eqb (trim (att_label a)) EmptyString).
Qed.

Lemma EntryForm_submit_rows (author body : string) (rows : list Attachment) :
  EntryForm_submit {| nf_author := author; nf_body := body;
                      nf_attachments := map enc_attachment rows |}
  = Ok (entry_payload (entry_form_payload author body rows)).
Proof.
  unfold EntryForm_submit. cbn [nf_author nf_body nf_attachments].
  rewrite (mapM_map enc_attachment _ (fun a => enc_attachment (submitted_attachment a))).
  2:{ apply Forall_forall. intros a _. apply submitted_row. }
  cbn [mbind res_bind]. rewrite <- (map_map submitted_attachment enc_attachment).
  rewrite (filterM_map enc_attachment _
             (fun a => negb (String.eqb (att_url a) EmptyString))).
  2:{ by intros a _. }
  cbn [mbind res_bind]. unfold entry_payload, entry_form_payload.
  cbn [np_author np_body np_attachments].
  assert (Hf : filter (fun a : Attachment => negb (String.eqb (att_url a) EmptyString))
                      (map submitted_attachment rows)
               = filter (fun a => att_url a ≠ EmptyString) (map submitted_attachment rows)).
  { apply list_filter_iff. intros a.
    destruct (String.eqb_spec (att_url a) EmptyString); cbn; intuition congruence. }
  by rewrite Hf.
Qed.

(** X24.  The payload of the entry form.  With its rows holding texts,
    [EntryForm] hands over the author trimmed, or [Unknown] when that is
    empty, the body trimmed, and of the attachment rows those whose
    trimmed address is not empty, each with its trimmed label, or the
    address when the label is empty.  So the author is never empty, an
    attachment handed over has an address and a label, and the CSV export
    writes it [label:url]; rows without an address, the blank row the form
    starts with among them, are left out whatever their label. *)
Theorem entry_form_payload_is_complete :
  (∀ (author body : string) (rows : list Attachment),
     EntryForm_submit {| nf_author := author; nf_body := body;
                         nf_attachments := map enc_attachment rows |}
     = Ok (entry_payload (entry_form_payload author body rows))) ∧
  (∀ (author body : string) (rows : list Attachment),
     let p := entry_form_payload author body rows in
     np_author p ≠ EmptyString ∧
     Forall (fun a => att_url a ≠ EmptyString ∧ att_label a ≠ EmptyString ∧
                      attachment_text a = att_label a ++ ":" ++ att_url a)
            (np_attachments p) ∧
     (Forall (fun a => trim (att_url a) = EmptyString) rows → np_attachments p = [])) ∧
  (∀ author body : string,
     EntryForm_submit {| nf_author := author; nf_body := body;
                         nf_attachments := nf_attachments EntryForm_init |}
     = Ok (entry_payload (entry_form_payload author body []))).
Proof.
  split; [exact EntryForm_submit_rows|]. split.
  - intros author body rows p. split; [|split].
    + unfold p. cbn. by destruct (String.eqb_spec (trim author) EmptyString).
    + unfold p. cbn [entry_form_payload np_attachments].
      apply Forall_forall. intros a Ha. apply list_elem_of_filter in Ha as [Hu Ha].
      apply list_elem_of_fmap in Ha as (r & -> & _).
      assert (Hl : att_label (submitted_attachment r) ≠ EmptyString).
      { cbn in Hu |- *.
        by destruct (String.eqb_spec (trim (att_label r)) EmptyString). }
      split; [done|]. split; [done|]. unfold attachment_text.
      by destruct (String.eqb_spec (att_label (submitted_attachment r)) EmptyString).
    + intros Hblank. unfold p. cbn [entry_form_payload np_attachments].
      induction Hblank as [|a rows Ha _ IH]; [done|].
      cbn [map]. rewrite filter_cons. rewrite decide_False; [exact IH|].
      cbn. intros H. by apply H.
  - intros author body.
    exact (EntryForm_submit_rows author body
             [ {| att_label := EmptyString; att_url := EmptyString |} ]).
Qed.

Lemma map_indexed_update (n i : nat) (field v : string) (os : list (gmap string value)) :
  map_indexed n (fun att idx =>
                   if (idx =? i)%nat
                   then o ← spread_obj att; Ok (VObj (<[field := VStr v]> o))
                   else Ok att) (map VObj os)
  = Ok (map VObj (if decide (n ≤ i)%nat
                  then alter (insert field (VStr v)) (i - n)%nat os else os)).
Proof.
  revert n. induction os as [|o os IH]; intros n.
  - cbn. by destruct (decide _).
  - cbn [map map_indexed]. rewrite IH. destruct (Nat.eqb_spec n i) as [->|Hne].
    + cbn [spread_obj mbind res_bind].
      destruct (decide (S i ≤ i)%nat); [lia|]. destruct (decide (i ≤ i)%nat); [|lia].
      by rewrite Nat.sub_diag.
    + cbn [mbind res_bind].
      destruct (decide (n ≤ i)%nat) as [Hle|Hgt], (decide (S n ≤ i)%nat); try lia; [|done].
      replace (i - n)%nat with (S (i - S n))%nat by lia. done.
Qed.

Lemma filter_indexed_remove {A} (n i : nat) (l : list A) :
  filter_indexed n (fun _ idx => negb (idx =? i)%nat) l
  = if decide (n ≤ i)%nat then delete (i - n)%nat l else l.
Proof.
  revert n. induction l as [|x l IH]; intros n.
  - cbn. by destruct (decide _).
  - cbn [filter_indexed]. rewrite IH. destruct (Nat.eqb_spec n i) as [->|Hne].
    + cbn [negb].
      destruct (decide (S i ≤ i)%nat); [lia|]. destruct (decide (i ≤ i)%nat); [|lia].
      by rewrite Nat.sub_diag.
    + cbn [negb].
      destruct (decide (n ≤ i)%nat) as [Hle|Hgt], (decide (S n ≤ i)%nat); try lia; [|done].
      replace (i - n)%nat with (S (i - S n))%nat by lia. done.
Qed.

(** X25.  Editing the attachment rows.  [updateAttachment(i, field, v)] sets
    [field] of row [i] to [v] and leaves every other row, the number of
    rows and the other field as they were; [removeAttachment(i)] takes out
    row [i] and keeps the others in order; with an index that is not a
    row, both leave the rows as they are.  A row added by [addAttachment]
    comes last and is blank: removing it at once gives the rows back, and
    as long as nothing is typed into it the form submits what it would
    have submitted without it. *)
Theorem attachment_rows_edit_by_index :
  (∀ (i : nat) (field v : string) (os : list (gmap string value)),
     updateAttachment i field v (map VObj os)
     = Ok (map VObj (alter (insert field (VStr v)) i os)) ∧
     ((length os <= i)%nat → updateAttachment i field v (map VObj os) = Ok (map VObj os))) ∧
  (∀ (i : nat) (rows : list value),
     removeAttachment i rows = delete i rows ∧
     ((length rows <= i)%nat → removeAttachment i rows = rows)) ∧
  (∀ rows : list value,
     addAttachment rows = (rows ++ [blank_attachment])%list ∧
     removeAttachment (length rows) (addAttachment rows) = rows) ∧
  (∀ (author body : string) (rows : list Attachment),
     EntryForm_submit {| nf_author := author; nf_body := body;
                         nf_attachments := addAttachment (map enc_attachment rows) |}
     = EntryForm_submit {| nf_author := author; nf_body := body;
                           nf_attachments := map enc_attachment rows |}).
Proof.
  split; [|split; [|split]].
  - intros i field v os. unfold updateAttachment. rewrite map_indexed_update.
    rewrite decide_True by lia. rewrite Nat.sub_0_r. split; [done|].
    intros Hi. do 2 f_equal. revert i Hi.
    induction os as [|o os IH]; intros i Hi; [by destruct i|].
    destruct i as [|i]; [cbn in Hi; lia|]. cbn. rewrite IH; [done|]. cbn in Hi. lia.
  - intros i rows. unfold removeAttachment. rewrite filter_indexed_remove.
    rewrite decide_True by lia. rewrite Nat.sub_0_r. split; [done|].
    intros Hi. revert i Hi. induction rows as [|x rows IH]; intros i Hi; [by destruct i|].
    destruct i as [|i]; [cbn in Hi; lia|]. cbn. rewrite IH; [done|]. cbn in Hi. lia.
  - intros rows. split; [done|]. unfold removeAttachment, addAttachment.
    rewrite filter_indexed_remove, decide_True by lia. rewrite Nat.sub_0_r.
    induction rows as [|x rows IH]; [done|].
    change (x :: delete (length rows) (rows ++ [blank_attachment])%list = x :: rows).
    by f_equal.
  - intros author body rows. unfold addAttachment.
    change [blank_attachment]
      with (map enc_attachment [ {| att_label := EmptyString; att_url := EmptyString |} ]).
    rewrite <- map_app, !EntryForm_submit_rows. do 2 f_equal.
    unfold entry_form_payload. f_equal.
    rewrite map_app, filter_app. cbn [map]. rewrite filter_cons.
    rewrite decide_False; [by rewrite app_nil_r|]. cbn. intros H. by apply H.
Qed.

(** ** Instances, continued *)

Ltac not_in_list :=
  let H := fresh in
  intros H; repeat (apply elem_of_cons in H as [H|H]; [discriminate H|]);
  by apply elem_of_nil in H.

Lemma handlers_keep_record_shapes_witness :
  Forall (fun e => is_import e = false) demo_events ∧
  exec demo_events (enc_db empty_database)
  = Ok (enc_db (apply_events demo_events empty_database)).
Proof.
  assert (H : Forall (fun e => is_import e = false) demo_events) by (repeat constructor).
  split; [exact H|].
  exact (proj1 (handlers_keep_record_shapes demo_events empty_database H)).
Defined.

Lemma ids_stay_unique_witness :
  Forall (fun e => is_import e = false) demo_events ∧
  unique_ids empty_database ∧ (∀ x, x ∈ ids_of empty_database → x ∈ @nil string) ∧
  fresh_ids [] demo_events ∧
  unique_ids (apply_events demo_events empty_database).
Proof.
  assert (H1 : Forall (fun e => is_import e = false) demo_events) by (repeat constructor).
  assert (H2 : unique_ids empty_database) by (repeat constructor).
  assert (H3 : ∀ x, x ∈ ids_of empty_database → x ∈ @nil string) by (intros x Hx; exact Hx).
  assert (H4 : fresh_ids [] demo_events).
  { cbn. split; [not_in_list|]. split; [not_in_list|]. split; [not_in_list|exact I]. }
  split; [exact H1|]. split; [exact H2|]. split; [exact H3|]. split; [exact H4|].
  exact (proj2 (ids_stay_unique demo_events [] empty_database H1 H2 H3 H4)).
Defined.

Lemma evidence_never_orphaned_witness :
  Forall (fun e => is_import e = false) demo_events ∧
  no_orphans empty_database ∧ parents_known empty_database demo_events ∧
  no_orphans (apply_events demo_events empty_database).
Proof.
  assert (H1 : Forall (fun e => is_import e = false) demo_events) by (repeat constructor).
  assert (H2 : no_orphans empty_database) by constructor.
  assert (H3 : parents_known empty_database demo_events).
  { cbn. split; [exact I|]. split.
    - eexists. split; [left; reflexivity|reflexivity].
    - repeat split. }
  split; [exact H1|]. split; [exact H2|]. split; [exact H3|].
  exact (proj2 (evidence_never_orphaned demo_events empty_database H1 H2 H3)).
Defined.

Lemma threads_stay_newest_first_witness :
  Forall (fun e => is_import e = false) demo_events ∧
  threads_ordered 0 empty_database ∧ clock_ok 0 demo_events ∧
  exec demo_events (enc_db empty_database)
  = Ok (enc_db (apply_events demo_events empty_database)).
Proof.
  assert (H1 : Forall (fun e => is_import e = false) demo_events) by (repeat constructor).
  assert (H2 : threads_ordered 0 empty_database) by constructor.
  assert (H3 : clock_ok 0 demo_events) by (cbn; lia).
  split; [exact H1|]. split; [exact H2|]. split; [exact H3|].
  exact (proj1 (threads_stay_newest_first demo_events 0%Z empty_database H1 H2 H3)).
Defined.

Lemma saveDB_loadDB_roundtrip_witness :
  is_json (enc_db demo) = true ∧ loadDB (Some (saveDB (enc_db demo))) = Ok (enc_db demo).
Proof.
  assert (H : is_json (enc_db demo) = true) by (vm_compute; reflexivity).
  split; [exact H|].
  exact (proj2 (proj2 (saveDB_loadDB_roundtrip (enc_db demo) H))).
Defined.

Lemma first_save_settles_the_store_witness :
  loadDB (Some overflow_doc) = Ok overflow_db ∧
  loadDB (Some (saveDB overflow_db)) = Ok overflow_db_exported ∧
  loadDB (Some (saveDB overflow_db_exported)) = Ok overflow_db_exported ∧
  is_json emptyDB = true ∧ after_import overflow_doc emptyDB = Ok overflow_db ∧
  is_json overflow_db_exported = true ∧ as_saved overflow_db_exported = overflow_db_exported.
Proof.
  assert (H1 : loadDB (Some overflow_doc) = Ok overflow_db) by (vm_compute; reflexivity).
  assert (H2 : is_json emptyDB = true) by (vm_compute; reflexivity).
  assert (H3 : after_import overflow_doc emptyDB = Ok overflow_db)
    by (vm_compute; reflexivity).
  assert (H4 : is_json overflow_db_exported = true) by (vm_compute; reflexivity).
  assert (H5 : as_saved overflow_db = overflow_db_exported) by (vm_compute; reflexivity).
  rewrite <- H5 at 1 2 3.
  split; [exact H1|].
  split; [exact (proj1 (proj1 first_save_settles_the_store _ _ H1))|].
  split; [exact (proj2 (proj2 (proj1 (proj2 first_save_settles_the_store) _ _ _ H2 H3)))|].
  split; [exact H2|]. split; [exact H3|]. split; [exact H4|].
  exact (proj2 (proj2 first_save_settles_the_store) _ H4).
Defined.

Lemma new_evidence_is_active_and_first_witness :
  (∀ e, In e (db_evidence demo) → ev_investigationId e = "A" → (ev_updatedAt e <= 9)%Z) ∧
  evidenceForSelected (VStr "A")
    (enc_db (apply_event (CreateEvidence "A" "E9" 9 form_E) demo))
  = Ok (map enc_evidence [new_evidence "A" "E9" 9 form_E; ev_E1]).
Proof.
  assert (H : ∀ e, In e (db_evidence demo) → ev_investigationId e = "A" →
                   (ev_updatedAt e <= 9)%Z).
  { intros e [<-|[<-|[]]] _; cbn; lia. }
  split; [exact H|].
  exact (proj2 (proj2 (proj2 (proj2 (proj2
           (new_evidence_is_active_and_first demo "A" "E9" 9%Z form_E demo_selection)))))
           H).
Defined.

Lemma deleted_investigation_is_not_shown_witness :
  selectedInvestigation (VStr "A")
    (enc_db (apply_event (DeleteInvestigation true "A") demo)) = Ok VNull ∧
  evidenceForSelected (VStr "A")
    (enc_db (apply_event (DeleteInvestigation true "A") demo)) = Ok [].
Proof.
  pose proof (deleted_investigation_is_not_shown demo "A" demo_selection) as (_ & H1 & H2 & _).
  split; [exact H1|exact H2].
Defined.

Lemma handlers_keep_selection_valid_witness :
  is_import (DeleteInvestigation true "A") = false ∧
  selection_ok demo demo_selection ∧
  ∃ s', handle_selection (DeleteInvestigation true "A") (enc_db demo) demo_selection = Ok s'
        ∧ selection_ok (apply_event (DeleteInvestigation true "A") demo) s'.
Proof.
  assert (H1 : is_import (DeleteInvestigation true "A") = false) by reflexivity.
  assert (H2 : selection_ok demo demo_selection).
  { split; right.
    - exists inv_A. split; [left; reflexivity|reflexivity].
    - exists ev_E1. split; [left; reflexivity|]. split; [reflexivity|discriminate]. }
  split; [exact H1|]. split; [exact H2|].
  destruct (handlers_keep_selection_valid (DeleteInvestigation true "A") demo demo_selection
              H1 I H2) as (us & s' & _ & _ & Hs & Hok).
  exists s'. split; [exact Hs|exact Hok].
Defined.

Lemma demo_store_readable :
  demo_store !! "investigations"
    = Some (VArr [enc_investigation inv_A; enc_investigation inv_B]) ∧
  demo_store !! "evidence" = Some (VArr [enc_evidence ev_E1; enc_evidence ev_E2]) ∧
  Forall nonnullish [enc_investigation inv_A; enc_investigation inv_B] ∧
  Forall nonnullish [enc_evidence ev_E1; enc_evidence ev_E2].
Proof. repeat split; repeat constructor. Qed.

Lemma create_then_delete_restores_witness :
  (∀ i, i ∈ [enc_investigation inv_A; enc_investigation inv_B] → has_id "N" i = false) ∧
  (∀ e, e ∈ [enc_evidence ev_E1; enc_evidence ev_E2] → owned_by "N" e = false) ∧
  run (createInvestigation "N" 30 closing_fields ++ deleteInvestigation true "N")
      (VObj demo_store) = Ok (VObj demo_store).
Proof.
  destruct demo_store_readable as (H1 & H2 & H3 & H4).
  assert (H5 : ∀ i, i ∈ [enc_investigation inv_A; enc_investigation inv_B] →
                    has_id "N" i = false).
  { intros i Hi. repeat (apply elem_of_cons in Hi as [->|Hi]; [reflexivity|]).
    by apply elem_of_nil in Hi. }
  assert (H6 : ∀ e, e ∈ [enc_evidence ev_E1; enc_evidence ev_E2] → owned_by "N" e = false).
  { intros e He. repeat (apply elem_of_cons in He as [->|He]; [reflexivity|]).
    by apply elem_of_nil in He. }
  split; [exact H5|]. split; [exact H6|].
  exact (proj1 create_then_delete_restores demo_store _ _ "N" 30%Z closing_fields
           H1 H2 H3 H4 eq_refl H5 H6).
Defined.

Lemma delete_is_idempotent_witness :
  run (deleteInvestigation true "A" ++ deleteInvestigation true "A") (VObj demo_store)
  = run (deleteInvestigation true "A") (VObj demo_store).
Proof.
  destruct demo_store_readable as (H1 & H2 & H3 & H4).
  exact (proj1 delete_is_idempotent demo_store _ _ "A" H1 H2 H3 H4).
Defined.

Lemma updates_compose_witness :
  closing_fields !! "id" = None ∧
  run (updateInvestigation "A" closing_fields 20 ++ updateInvestigation "A" renamed_fields 30)
      (VObj demo_store)
  = run (updateInvestigation "A" (renamed_fields ∪ closing_fields) 30) (VObj demo_store).
Proof.
  destruct demo_store_readable as (H1 & _ & H3 & _).
  split; [reflexivity|].
  exact (proj1 updates_compose demo_store _ "A" closing_fields renamed_fields 20%Z 30%Z
           H1 H3 eq_refl).
Defined.

Lemma deleteEvidence_removes_one_thread_witness :
  run (deleteEvidence true "E1") (VObj demo_store)
  = Ok (VObj (<["evidence" :=
                  VArr (filter (fun e => negb (has_id "E1" e))
                               [enc_evidence ev_E1; enc_evidence ev_E2])]> demo_store)).
Proof.
  destruct demo_store_readable as (_ & H2 & _ & H4).
  exact (proj1 (proj2 (deleteEvidence_removes_one_thread demo_store _ "E1" H2 H4))).
Defined.

Lemma views_throw_without_arrays_witness :
  (∀ l, get "investigations" VNull ≠ Ok (VArr l)) ∧
  selectedInvestigation VNull VNull = Throw TypeError ∧
  (∀ l, get "evidence" (VNum 42) ≠ Ok (VArr l)) ∧
  evidenceForSelected VNull (VNum 42) = Throw TypeError.
Proof.
  assert (H1 : ∀ l, get "investigations" VNull ≠ Ok (VArr l)) by (intros l; discriminate).
  assert (H2 : ∀ l, get "evidence" (VNum 42) ≠ Ok (VArr l)) by (intros l; discriminate).
  split; [exact H1|].
  split; [exact (proj1 (proj1 (views_throw_without_arrays VNull "All" EmptyString VNull) H1))|].
  split; [exact H2|].
  exact (proj1 (proj2 (views_throw_without_arrays VNull "All" EmptyString (VNum 42)) H2)).
Defined.

Lemma deleteInvestigation_removes_its_rows_witness :
  exportable demo ∧
  csv_data_rows demo_iso (apply_event (DeleteInvestigation true "A") demo)
  = flat_map (fun ev => map (csv_row demo_iso (parent_of demo ev) ev) (ev_entries ev))
      (filter (fun ev => negb (String.eqb (ev_investigationId ev) "A")) (db_evidence demo)).
Proof.
  assert (H : exportable demo) by (repeat constructor; unfold exportable_entry; cbn; lia).
  split; [exact H|].
  exact (proj2 (proj2 (deleteInvestigation_removes_its_rows demo_iso demo "A" H))).
Defined.

Lemma addEntry_adds_one_row_witness :
  exportable demo ∧ (Z.abs 30 <= 8640000000000000)%Z ∧
  length (csv_data_rows demo_iso (apply_event (AddEntry "E1" "N" 30 form_N) demo))
  = (length (csv_data_rows demo_iso demo)
     + length (filter (fun ev => String.eqb (ev_id ev) "E1") (db_evidence demo)))%nat.
Proof.
  assert (H : exportable demo) by (repeat constructor; unfold exportable_entry; cbn; lia).
  assert (H' : (Z.abs 30 <= 8640000000000000)%Z) by lia.
  split; [exact H|]. split; [exact H'|].
  exact (proj2 (proj2 (proj2
           (addEntry_adds_one_row demo_iso demo "E1" "N" 30%Z form_N H H')))).
Defined.

Lemma exportCSV_fails_on_invalid_time_witness :
  Exists (fun ev => Exists (fun en => ¬ exportable_entry en) (ev_entries ev))
         (db_evidence late_db) ∧
  exportCSV demo_iso (enc_db late_db) = Throw RangeError.
Proof.
  assert (H : Exists (fun ev => Exists (fun en => ¬ exportable_entry en) (ev_entries ev))
                     (db_evidence late_db)).
  { apply Exists_cons_hd, Exists_cons_tl, Exists_cons_hd.
    unfold exportable_entry. cbn. lia. }
  split; [exact H|].
  exact (proj2 (exportCSV_fails_on_invalid_time demo_iso late_db H)).
Defined.

Lemma csv_text_determines_rows_witness :
  exportable demo ∧ exportable blank_db ∧
  (exportCSV demo_iso (enc_db demo) = exportCSV demo_iso (enc_db blank_db) →
   csv_data_rows demo_iso demo = csv_data_rows demo_iso blank_db).
Proof.
  assert (H1 : exportable demo) by (repeat constructor; unfold exportable_entry; cbn; lia).
  assert (H2 : exportable blank_db)
    by (repeat constructor; unfold exportable_entry; cbn; lia).
  split; [exact H1|]. split; [exact H2|].
  exact (proj2 csv_text_determines_rows demo_iso demo blank_db H1 H2).
Defined.

Lemma form_payloads_are_normalised_witness :
  (∀ s, VNum 5 ≠ VStr s) ∧
  InvestigationForm_submit
    {| if_title := VNum 5; if_caseNumber := VStr EmptyString;
       if_description := VStr EmptyString; if_status := VStr "Open";
       if_tags := EmptyString |} = Throw TypeError.
Proof.
  assert (H : ∀ s, VNum 5 ≠ VStr s) by (intros s; discriminate).
  split; [exact H|].
  exact (proj2 (proj2 (proj2 (proj2 form_payloads_are_normalised)))
           {| if_title := VNum 5; if_caseNumber := VStr EmptyString;
              if_description := VStr EmptyString; if_status := VStr "Open";
              if_tags := EmptyString |} (or_introl H)).
Defined.

Lemma unchanged_edit_returns_the_fields_witness :
  clean_investigation_fields (investigation_fields inv_A) ∧
  ∃ st, InvestigationForm_init (enc_investigation inv_A) = Ok st ∧
        InvestigationForm_submit st
        = Ok (investigation_payload (investigation_fields inv_A)).
Proof.
  assert (H : clean_investigation_fields (investigation_fields inv_A)).
  { split; [reflexivity|]. split; [reflexivity|]. split; [reflexivity|].
    split; [discriminate|]. constructor; [|constructor].
    split; [discriminate|]. split; reflexivity. }
  split; [exact H|].
  exact (proj1 unchanged_edit_returns_the_fields inv_A H).
Defined.

Lemma entry_form_payload_is_complete_witness :
  np_attachments (entry_form_payload " K9 " "found" form_rows)
  = [ {| att_label := "photo"; att_url := "http://x/1" |};
      {| att_label := "http://x/2"; att_url := "http://x/2" |} ] ∧
  Forall (fun a => trim (att_url a) = EmptyString)
         [ {| att_label := "lost"; att_url := "  " |} ] ∧
  np_attachments (entry_form_payload " K9 " "found"
                    [ {| att_label := "lost"; att_url := "  " |} ]) = [].
Proof.
  assert (H : Forall (fun a => trim (att_url a) = EmptyString)
                     [ {| att_label := "lost"; att_url := "  " |} ])
    by (repeat constructor).
  split; [vm_compute; reflexivity|]. split; [exact H|].
  exact (proj2 (proj2 (proj1 (proj2 entry_form_payload_is_complete) " K9 " "found"
                         [ {| att_label := "lost"; att_url := "  " |} ])) H).
Defined.

Lemma attachment_rows_edit_by_index_witness :
  (length [blank_attachment] <= 3)%nat ∧
  removeAttachment 3 [blank_attachment] = [blank_attachment] ∧
  updateAttachment 0 "url" "http://x/1" [blank_attachment]
  = Ok [ VObj {[ "label" := VStr EmptyString; "url" := VStr "http://x/1" ]} ].
Proof.
  assert (H : (length [blank_attachment] <= 3)%nat) by (cbn; lia).
  split; [exact H|].
  split; [exact (proj2 (proj1 (proj2 attachment_rows_edit_by_index) 3%nat
                          [blank_attachment]) H)|].
  vm_compute. reflexivity.
Defined.
